(** * DashboardStats (src/App.jsx): cache manager and count-up animator

    A shallow embedding of the logic of [DashboardStats] and of its inner
    [StatCard] component, and the properties of the statistics cache and
    of the count-up animation proved over it.

    Conventions.
    - Times are milliseconds since the epoch, as [Date.now()] returns
      them, in [Z].
    - [localStorage] is a string-keyed map together with the two ways a
      browser makes it fail: access denied (every read and write throws)
      and quota exceeded (a write throws).
    - JavaScript exceptions are explicit: a computation of type [Js A]
      completes normally with a value or abruptly with an [Error].
    - The host functions the source calls but does not define
      ([JSON.parse], [JSON.stringify], the [Date] string parser and
      [toISOString]) are the fields of a [Platform]. *)

From Stdlib Require Import ZArith QArith Qabs Qround Qminmax Qpower Lia Lqa.
From stdpp Require Import base option list strings pretty gmap.

Local Open Scope Z_scope.

(* ===================================================================== *)
(** ** JavaScript values used by the component *)
(* ===================================================================== *)

(** An [Error] object; the component only ever reads [message]. *)
Record Error := mkError { err_name : string; err_message : string }.

(** The value [JSON.parse] returns. Counters are integers. *)
#[warnings="-register-all"]
Inductive json :=
| JNull
| JBool (b : bool)
| JNum (n : Z)
| JStr (s : string)
| JArr (l : list json)
| JObj (fields : list (string * json)).

Fixpoint assoc (k : string) (l : list (string * json)) : option json :=
  match l with
  | [] => None
  | (k', v) :: l' => if String.eqb k k' then Some v else assoc k l'
  end.

(** The target a card is given for [field]. On a snapshot, an object
    whose member [field] is an integer ([is_snapshot] below says so for
    the four cells), this is [stats.field], and the cards are modelled
    for such targets. Elsewhere it is not what the page does: the page
    evaluates [stats.field] on the value as it is ([member] below), so
    on [null] the render throws, and a member that is a string of some
    length, [true], an array or an object is handed to the card, which
    counts up to it, where this function gives 0. Only a member that is
    missing, [null], [false] or the empty string ends as the 0 given
    here ([value || 0] on line 156).
    Where a statement depends on the targets of a render, it is made
    for snapshots. *)
Definition metric (field : string) (s : json) : Z :=
  match s with
  | JObj fields => match assoc field fields with Some (JNum n) => n | _ => 0 end
  | _ => 0
  end.

Class Platform := {
  JSON_parse : string -> Error + json;     (* inl: throws SyntaxError *)
  JSON_stringify : json -> string;
  Date_parse : string -> option Z;         (* None: Invalid Date *)
  Date_toISOString : Z -> string;
}.

(* ===================================================================== *)
(** ** localStorage *)
(* ===================================================================== *)

Record Storage := mkStorage {
  ls_items : gmap string string;
  ls_blocked : bool;      (* access to [localStorage] throws SecurityError *)
  ls_quota : Z;           (* characters the origin may store *)
}.

Definition storage_size (m : gmap string string) : nat :=
  map_fold (fun k v n => String.length k + String.length v + n)%nat 0%nat m.

Definition SecurityError : Error :=
  mkError "SecurityError" "The operation is insecure.".
Definition QuotaExceededError : Error :=
  mkError "QuotaExceededError" "The quota has been exceeded.".

Definition storage_getItem (k : string) (ls : Storage) : Error + option string :=
  if ls_blocked ls then inl SecurityError else inr (ls_items ls !! k).

Definition storage_setItem (k v : string) (ls : Storage) : Error + Storage :=
  if ls_blocked ls then inl SecurityError
  else
    let m := <[k := v]> (ls_items ls) in
    if Z.of_nat (storage_size m) <=? ls_quota ls
    then inr (mkStorage m (ls_blocked ls) (ls_quota ls))
    else inl QuotaExceededError.

(* ===================================================================== *)
(** ** Component state of DashboardStats *)
(* ===================================================================== *)

(** The four [useState] cells and the two refs. *)
Record View := mkView {
  stats : json;
  loading : bool;
  lastUpdated : Z;
  error : option string;
  intervalRef : option nat;
  mountedRef : bool;
}.

(** const [stats, setStats] = useState({ total_users: 0, ... }) *)
Definition initial_stats : json :=
  JObj [("total_users", JNum 0); ("total_providers", JNum 0);
        ("total_active_providers", JNum 0); ("total_queries_processed", JNum 0)].

Definition initial_view (now : Z) : View :=
  mkView initial_stats false now None None true.

Record Request := mkRequest {
  req_url : string;
  req_authorization : string;
  req_content_type : string;
}.

(** What the cache manager can touch: the view, the storage, the console
    and the network (the requests sent so far, latest first). *)
Record World := mkWorld {
  view : View;
  localStorage : Storage;
  console : list string;
  requests : list Request;
}.

(* ===================================================================== *)
(** ** Computations that may throw *)
(* ===================================================================== *)

Inductive Completion (A : Type) :=
| Normal (a : A) (w : World)
| Thrown (e : Error) (w : World).
Arguments Normal {A} a w.
Arguments Thrown {A} e w.

Definition Js (A : Type) : Type := World -> Completion A.

Definition ret {A} (a : A) : Js A := fun w => Normal a w.
Definition throw {A} (e : Error) : Js A := fun w => Thrown e w.
Definition bind {A B} (m : Js A) (k : A -> Js B) : Js B :=
  fun w => match m w with
           | Normal a w' => k a w'
           | Thrown e w' => Thrown e w'
           end.

(** try { body } catch (e) { handler e } *)
Definition try_catch {A} (body : Js A) (handler : Error -> Js A) : Js A :=
  fun w => match body w with
           | Normal a w' => Normal a w'
           | Thrown e w' => handler e w'
           end.

(** try { body } finally { fin } *)
Definition try_finally {A} (body : Js A) (fin : Js unit) : Js A :=
  fun w => match body w with
           | Normal a w' =>
               match fin w' with
               | Normal _ w'' => Normal a w''
               | Thrown e w'' => Thrown e w''
               end
           | Thrown e w' =>
               match fin w' with
               | Normal _ w'' => Thrown e w''
               | Thrown e' w'' => Thrown e' w''
               end
           end.

Declare Scope js_scope.
Delimit Scope js_scope with js.
Notation "x <- m ;; k" := (bind m (fun x => k))
  (at level 100, m at next level, right associativity) : js_scope.
Notation "m ;;; k" := (bind m (fun _ => k))
  (at level 100, right associativity) : js_scope.
Local Open Scope js_scope.

Definition modify_view (f : View -> View) : Js unit :=
  fun w => Normal tt (mkWorld (f (view w)) (localStorage w) (console w) (requests w)).

Definition setStats (v : json) : Js unit :=
  modify_view (fun s => mkView v (loading s) (lastUpdated s) (error s) (intervalRef s) (mountedRef s)).
Definition setLoading (b : bool) : Js unit :=
  modify_view (fun s => mkView (stats s) b (lastUpdated s) (error s) (intervalRef s) (mountedRef s)).
Definition setLastUpdated (t : Z) : Js unit :=
  modify_view (fun s => mkView (stats s) (loading s) t (error s) (intervalRef s) (mountedRef s)).
Definition setError (e : option string) : Js unit :=
  modify_view (fun s => mkView (stats s) (loading s) (lastUpdated s) e (intervalRef s) (mountedRef s)).

Definition mountedRef_current : Js bool := fun w => Normal (mountedRef (view w)) w.

Definition console_log (line : string) : Js unit :=
  fun w => Normal tt (mkWorld (view w) (localStorage w) (line :: console w) (requests w)).

Definition localStorage_getItem (k : string) : Js (option string) :=
  fun w => match storage_getItem k (localStorage w) with
           | inl e => Thrown e w
           | inr v => Normal v w
           end.

Definition localStorage_setItem (k v : string) : Js unit :=
  fun w => match storage_setItem k v (localStorage w) with
           | inl e => Thrown e w
           | inr ls => Normal tt (mkWorld (view w) ls (console w) (requests w))
           end.

Definition send (r : Request) : Js unit :=
  fun w => Normal tt (mkWorld (view w) (localStorage w) (console w) (r :: requests w)).

(** A string is truthy unless it is empty; [null] is falsy. *)
Definition truthy (o : option string) : bool :=
  match o with
  | Some s => negb (String.eqb s "")
  | None => false
  end.

(* ===================================================================== *)
(** ** The cache manager *)
(* ===================================================================== *)

Module CACHE_KEYS.
Definition STATS : string := "dashboard_stats".
Definition LAST_UPDATED : string := "dashboard_last_updated".
End CACHE_KEYS.

Definition ten_minutes : Z := 10 * 60 * 1000.

Section CacheManager.
Context {P : Platform}.

(** The body of the [try] block of [loadCachedData]. *)
Definition loadCachedData_try (now : Z) : Js bool :=
  cachedStats <- localStorage_getItem CACHE_KEYS.STATS ;;
  cachedLastUpdated <- localStorage_getItem CACHE_KEYS.LAST_UPDATED ;;
  if truthy cachedStats && truthy cachedLastUpdated then
    match JSON_parse (default "" cachedStats) with
    | inl e => throw e
    | inr parsedStats =>
        let lastUpdatedDate := Date_parse (default "" cachedLastUpdated) in
        let tenMinutesAgo := now - ten_minutes in
        match lastUpdatedDate with
        | Some t =>
            if tenMinutesAgo <? t then
              setStats parsedStats ;;;
              setLastUpdated t ;;;
              ret true
            else ret false
        | None => ret false      (* NaN > x is false *)
        end
    end
  else ret false.

Definition loadCachedData (now : Z) : Js bool :=
  try_catch (loadCachedData_try now)
    (fun e => console_log ("Error loading cached data: " +:+ err_message e) ;;; ret false).

Definition saveToCache (statsData : json) (updatedTime : Z) : Js unit :=
  try_catch
    (localStorage_setItem CACHE_KEYS.STATS (JSON_stringify statsData) ;;;
     localStorage_setItem CACHE_KEYS.LAST_UPDATED (Date_toISOString updatedTime))
    (fun e => console_log ("Error saving to cache: " +:+ err_message e)).

(** How the awaited [fetch] settles. *)
Inductive FetchOutcome :=
| Rejected (e : Error)                                   (* network error *)
| Response (status : Z) (statusText : string) (body : string).

Definition response_ok (status : Z) : bool := (200 <=? status) && (status <=? 299).

(** The [catch] and [finally] blocks of [fetchStats]. *)
Definition fetchStats_catch (now : Z) (e : Error) : Js unit :=
  console_log ("Error fetching stats: " +:+ err_message e) ;;;
  m <- mountedRef_current ;;
  if m then
    setError (Some (err_message e)) ;;;
    _ <- loadCachedData now ;;
    ret tt
  else ret tt.

Definition fetchStats_finally : Js unit :=
  m <- mountedRef_current ;;
  if m then setLoading false else ret tt.

(** Where the [try] block stands when control leaves the synchronous
    part of [fetchStats]: it returned, or it is suspended on [fetch]. *)
Inductive Suspension := Returned | Awaiting (r : Request).

Definition bearer (token : option string) : string :=
  "Bearer " +:+ default "null" token.

Definition fetchStats_try (skipCache : bool) (now : Z) : Js Suspension :=
  hit <- (if negb skipCache then loadCachedData now else ret false) ;;
  if hit then
    setLoading false ;;;
    ret Returned
  else
    token <- localStorage_getItem "token" ;;
    ret (Awaiting (mkRequest "https://server.dllm.chat/dashboard-stats"
                             (bearer token) "application/json")).

(** [fetchStats(skipCache)] up to its first [await]. The result tells
    whether a request went out. *)
Definition fetchStats (skipCache : bool) (now : Z) : Js bool :=
  m <- mountedRef_current ;;
  if negb m then ret false
  else
    setLoading true ;;;
    setError None ;;;
    fun w =>
      match try_catch (fetchStats_try skipCache now)
                      (fun e => fetchStats_catch now e ;;; ret Returned) w with
      | Normal Returned w' => (fetchStats_finally ;;; ret false) w'
      | Normal (Awaiting r) w' => (send r ;;; ret true) w'
      | Thrown e w' => (fetchStats_finally ;;; throw e) w'
      end.

(** The rest of the [try] block, run when [fetch] settles. *)
Definition fetchStats_try_resume (o : FetchOutcome) (now : Z) : Js unit :=
  match o with
  | Rejected e => throw e
  | Response status statusText body =>
      if response_ok status then
        match JSON_parse body with
        | inl e => throw e
        | inr data =>
            m <- mountedRef_current ;;
            if m then
              setStats data ;;;
              setLastUpdated now ;;;
              saveToCache data now
            else ret tt
        end
      else throw (mkError "Error" ("HTTP " +:+ pretty status +:+ ": " +:+ statusText))
  end.

Definition fetchStats_resume (o : FetchOutcome) (now : Z) : Js unit :=
  try_finally
    (try_catch (fetchStats_try_resume o now) (fetchStats_catch now))
    fetchStats_finally.

End CacheManager.

(* ===================================================================== *)
(** ** What [loadCachedData] accepts *)
(* ===================================================================== *)

Section CacheEntry.
Context {P : Platform}.

(** The entry [loadCachedData] accepts at time [now]: both slots are
    present and non-empty, the snapshot parses, the timestamp is a valid
    date and lies less than ten minutes back. *)
Definition fresh_cache (now : Z) (ls : Storage) : option (json * Z) :=
  if ls_blocked ls then None
  else
    match ls_items ls !! CACHE_KEYS.STATS, ls_items ls !! CACHE_KEYS.LAST_UPDATED with
    | Some s, Some t =>
        if negb (String.eqb s "") && negb (String.eqb t "") then
          match JSON_parse s, Date_parse t with
          | inr v, Some ts => if now - ten_minutes <? ts then Some (v, ts) else None
          | _, _ => None
          end
        else None
    | _, _ => None
    end.

Definition cache_hit (o : option (json * Z)) : bool :=
  match o with Some _ => true | None => false end.

(** The view once [setStats] and [setLastUpdated] took the entry. *)
Definition show_cached (o : option (json * Z)) (v : View) : View :=
  match o with
  | Some (s, t) => mkView s (loading v) t (error v) (intervalRef v) (mountedRef v)
  | None => v
  end.

(** The three ways the awaited request fails, with the message the
    [catch] block receives. *)
Inductive Fails : FetchOutcome -> string -> Prop :=
| fails_network (e : Error) :
    Fails (Rejected e) (err_message e)
| fails_status (status : Z) (statusText body : string) :
    response_ok status = false ->
    Fails (Response status statusText body)
          ("HTTP " +:+ pretty status +:+ ": " +:+ statusText)
| fails_parse (status : Z) (statusText body : string) (e : Error) :
    response_ok status = true ->
    JSON_parse body = inl e ->
    Fails (Response status statusText body) (err_message e).

(** The persisted entry cannot be read: the store throws, a slot is
    absent, or the snapshot does not parse. *)
Inductive Unreadable : Storage -> Prop :=
| unreadable_blocked (ls : Storage) :
    ls_blocked ls = true -> Unreadable ls
| unreadable_no_snapshot (ls : Storage) :
    ls_items ls !! CACHE_KEYS.STATS = None -> Unreadable ls
| unreadable_no_timestamp (ls : Storage) :
    ls_items ls !! CACHE_KEYS.LAST_UPDATED = None -> Unreadable ls
| unreadable_syntax (ls : Storage) (s : string) (e : Error) :
    ls_items ls !! CACHE_KEYS.STATS = Some s -> JSON_parse s = inl e -> Unreadable ls.

End CacheEntry.

(* ===================================================================== *)
(** ** Numbers *)
(* ===================================================================== *)

(** A JavaScript Number holding a finite value is a rational; an
    arithmetic operation returns the exact result rounded to a Number.
    [rnd] is that rounding and [Math_pow] the host's power function.
    Differences of counters and of [Date.now()] readings are differences
    of integers below 2^53, which are exact, and are taken in [Z]. *)
Class Arith := {
  rnd : Q -> Q;
  Math_pow : Q -> Z -> Q;
}.

Declare Scope num_scope.
Delimit Scope num_scope with num.
Notation "a ⊕ b" := (rnd (a + b)%Q) (at level 50, left associativity) : num_scope.
Notation "a ⊖ b" := (rnd (a - b)%Q) (at level 50, left associativity) : num_scope.
Notation "a ⊗ b" := (rnd (a * b)%Q) (at level 40, left associativity) : num_scope.
Notation "a ⊘ b" := (rnd (a / b)%Q) (at level 40, left associativity) : num_scope.

Definition Math_min (a b : Q) : Q := Qmin a b.
Definition Math_floor (a : Q) : Z := Qfloor a.

(** What the proofs use of the arithmetic: rounding is monotone, leaves
    the integers up to 2^53 alone, and the cube of a number of the unit
    interval stays there and is 0 at 0. [binary64] below has these
    properties ([binary64_laws]). *)
Record ArithLaws (A : Arith) : Prop := {
  rnd_mono : forall x y : Q, (x <= y)%Q -> (rnd x <= rnd y)%Q;
  rnd_integer : forall z : Z, Z.abs z <= 2 ^ 53 -> (rnd (inject_Z z) == inject_Z z)%Q;
  pow_unit : forall x : Q, (0 <= x)%Q -> (x <= 1)%Q ->
                           (0 <= Math_pow x 3)%Q /\ (Math_pow x 3 <= 1)%Q;
  pow_zero : forall x : Q, (x == 0)%Q -> (Math_pow x 3 == 0)%Q;
}.

(** Arithmetic without rounding. *)
Definition exact_arith : Arith :=
  {| rnd := fun q => q; Math_pow := fun x n => (x ^ n)%Q |}.

(** IEEE 754 binary64, round to nearest, ties to even, on the rationals
    below 2^1024 in magnitude (there is no overflow to Infinity here). *)
Definition round_half_even (q : Q) : Z :=
  let f := Qfloor q in
  match (q - inject_Z f ?= 1 # 2)%Q with
  | Lt => f
  | Gt => f + 1
  | Eq => if Z.even f then f else f + 1
  end.

(** floor (log2 q) for q > 0. *)
Definition ilog2 (q : Q) : Z :=
  let e := Z.log2 (Qnum q) - Z.log2 (Zpos (Qden q)) in
  if Qle_bool (2 ^ e) q then e else e - 1.

(** The exponent of the last place of a positive rational: 52 below its
    binary exponent, and no lower than that of the subnormals. *)
Definition rexp (a : Q) : Z := Z.max (ilog2 a - 52) (-1074).

(** A positive rational rounded to the nearest multiple of 2 ^ rexp. *)
Definition rpos (a : Q) : Q :=
  inject_Z (round_half_even (a / 2 ^ rexp a)) * 2 ^ rexp a.

Definition rnd64 (q : Q) : Q :=
  let q := Qred q in
  if Qeq_bool q 0 then 0%Q
  else
    let r := Qred (rpos (Qabs q)) in
    if Qle_bool 0 q then r else (- r)%Q.

(** A power function that returns the correctly rounded result. *)
Definition binary64 : Arith :=
  {| rnd := rnd64; Math_pow := fun x n => rnd64 (x ^ n) |}.

(** Hide rounded terms and casts from the arithmetic decision procedure. *)
Ltac generalize_atoms :=
  repeat match goal with
         | |- context [rnd ?x] => generalize (rnd x); intro
         | |- context [inject_Z ?z] => generalize (inject_Z z); intro
         end.


(* ===================================================================== *)
(** ** The host's timers and animation frames *)
(* ===================================================================== *)

(** The closure [animate] captures. [difference] is computed once from
    the other two. *)
Record Anim := mkAnim {
  startValue : Z;
  targetValue : Z;
  startTime : Z;
}.

Definition difference (a : Anim) : Z := targetValue a - startValue a.

Definition duration : Z := 1500.

(** The functions handed to [setTimeout] and [setInterval]. *)
Inductive TimerTask :=
| StartDelay (card : nat) (a : Anim)   (* startAnimation's delayed start *)
| AutoRefresh.                         (* () => fetchStats(true) *)

(** The function handed to [requestAnimationFrame]: [animate] of a card. *)
Record FrameTask := mkFrameTask { ft_card : nat; ft_anim : Anim }.

(** Pending callbacks. [setTimeout] and [setInterval] draw their handles
    from one sequence, [requestAnimationFrame] from another; both start
    at 1, so a handle is truthy. *)
Record Host := mkHost {
  timers : list (nat * TimerTask);
  frames : list (nat * FrameTask);
  next_timer : nat;
  next_frame : nat;
}.

Definition initial_host : Host := mkHost [] [] 1 1.

Definition remove_handle {T} (id : nat) (l : list (nat * T)) : list (nat * T) :=
  List.filter (fun e => negb (Nat.eqb (fst e) id)) l.

Fixpoint find_handle {T} (id : nat) (l : list (nat * T)) : option T :=
  match l with
  | [] => None
  | (i, t) :: l' => if Nat.eqb i id then Some t else find_handle id l'
  end.

Definition setTimer (t : TimerTask) (h : Host) : nat * Host :=
  (next_timer h,
   mkHost (timers h ++ [(next_timer h, t)]) (frames h) (S (next_timer h)) (next_frame h)).

(** [clearTimeout] and [clearInterval] are the same operation. *)
Definition clearInterval (id : nat) (h : Host) : Host :=
  mkHost (remove_handle id (timers h)) (frames h) (next_timer h) (next_frame h).

Definition requestAnimationFrame (t : FrameTask) (h : Host) : nat * Host :=
  (next_frame h,
   mkHost (timers h) (frames h ++ [(next_frame h, t)]) (next_timer h) (S (next_frame h))).

Definition cancelAnimationFrame (id : nat) (h : Host) : Host :=
  mkHost (timers h) (remove_handle id (frames h)) (next_timer h) (next_frame h).

(* ===================================================================== *)
(** ** StatCard *)
(* ===================================================================== *)

(** One instance of [StatCard]: its props, its two [useState] cells, its
    refs, and whether the last run of the animation effect returned its
    cleanup function. *)
Record Card := mkCard {
  value : Z;
  delay : Z;
  displayValue : Z;
  isAnimating : bool;
  animationRef : option nat;
  previousValueRef : Z;
  hasInitializedRef : bool;
  cleanupPending : bool;
}.

(** The instance as its first render leaves it. *)
Definition new_card (v d : Z) : Card := mkCard v d 0 false None 0 false false.

Definition setDisplayValue (n : Z) (c : Card) : Card :=
  mkCard (value c) (delay c) n (isAnimating c) (animationRef c)
         (previousValueRef c) (hasInitializedRef c) (cleanupPending c).
Definition setIsAnimating (b : bool) (c : Card) : Card :=
  mkCard (value c) (delay c) (displayValue c) b (animationRef c)
         (previousValueRef c) (hasInitializedRef c) (cleanupPending c).
Definition set_animationRef (r : option nat) (c : Card) : Card :=
  mkCard (value c) (delay c) (displayValue c) (isAnimating c) r
         (previousValueRef c) (hasInitializedRef c) (cleanupPending c).
Definition set_previousValueRef (n : Z) (c : Card) : Card :=
  mkCard (value c) (delay c) (displayValue c) (isAnimating c) (animationRef c)
         n (hasInitializedRef c) (cleanupPending c).
Definition set_hasInitializedRef (b : bool) (c : Card) : Card :=
  mkCard (value c) (delay c) (displayValue c) (isAnimating c) (animationRef c)
         (previousValueRef c) b (cleanupPending c).
Definition set_cleanupPending (b : bool) (c : Card) : Card :=
  mkCard (value c) (delay c) (displayValue c) (isAnimating c) (animationRef c)
         (previousValueRef c) (hasInitializedRef c) b.
Definition set_props (v d : Z) (c : Card) : Card :=
  mkCard v d (displayValue c) (isAnimating c) (animationRef c)
         (previousValueRef c) (hasInitializedRef c) (cleanupPending c).

Section StatCard.
Context {A : Arith}.
Local Open Scope num_scope.

(** The card's index among the instances, and [mountedRef.current] of
    the enclosing DashboardStats, which the card's closures read. *)
Variable self : nat.

(** [startAnimation] as called at time [now]. *)
Definition startAnimation (mounted : bool) (now : Z) (hc : Host * Card) : Host * Card :=
  let (h, c) := hc in
  if negb mounted then (h, c)
  else
    let c := setIsAnimating true c in
    let startValue := if hasInitializedRef c then previousValueRef c else 0 in
    let targetValue := value c in
    let difference := targetValue - startValue in
    if difference =? 0 then (h, setIsAnimating false c)
    else
      let a := mkAnim startValue targetValue now in
      (snd (setTimer (StartDelay self a) h), c).

(** The function the animation effect returns. *)
Definition effect_cleanup (hc : Host * Card) : Host * Card :=
  let (h, c) := hc in
  match animationRef c with
  | Some id => (cancelAnimationFrame id h, set_animationRef None c)
  | None => (h, c)
  end.

(** The body of the animation effect (dependencies [value], [delay]). *)
Definition effect (mounted : bool) (now : Z) (hc : Host * Card) : Host * Card :=
  let (h, c) := hc in
  if (value c =? 0) || (value c =? previousValueRef c) then
    if negb (hasInitializedRef c) && (0 <? value c) then
      (h, set_cleanupPending false
            (set_previousValueRef (value c)
               (set_hasInitializedRef true (setDisplayValue (value c) c))))
    else (h, set_cleanupPending false c)
  else
    let (h, c) :=
      match animationRef c with
      | Some id => (clearInterval id h, set_animationRef None c)
      | None => (h, c)
      end in
    if isAnimating c then (h, set_cleanupPending false c)
    else
      let (h, c) := startAnimation mounted now (h, c) in
      (h, set_cleanupPending true c).

(** The delayed start: the arrow function given to [setTimeout]. *)
Definition start_delay_fires (mounted : bool) (a : Anim) (hc : Host * Card) : Host * Card :=
  let (h, c) := hc in
  if mounted then
    let (id, h) := requestAnimationFrame (mkFrameTask self a) h in
    (h, set_animationRef (Some id) c)
  else (h, c).

Definition progress_at (a : Anim) (now : Z) : Q :=
  let elapsed := now - startTime a in
  Math_min (inject_Z elapsed ⊘ inject_Z duration) 1.

Definition easeOutCubic (progress : Q) : Q :=
  1 ⊖ Math_pow (1 ⊖ progress) 3.

Definition currentValue (a : Anim) (now : Z) : Q :=
  inject_Z (startValue a) ⊕ (inject_Z (difference a) ⊗ easeOutCubic (progress_at a now)).

(** One call of [animate] at time [now]. *)
Definition animate (mounted : bool) (a : Anim) (now : Z) (hc : Host * Card) : Host * Card :=
  let (h, c) := hc in
  if negb mounted then (h, setIsAnimating false c)
  else
    let progress := progress_at a now in
    let c := setDisplayValue (Math_floor (currentValue a now)) c in
    if Qle_bool 1 progress then
      (h, set_previousValueRef (targetValue a)
            (set_hasInitializedRef true
               (setIsAnimating false (setDisplayValue (targetValue a) c))))
    else
      let (id, h) := requestAnimationFrame (mkFrameTask self a) h in
      (h, set_animationRef (Some id) c).

(** What React does with the instance. Mounting runs the effect once. *)
Definition card_mount (mounted : bool) (now : Z) (v d : Z) (h : Host) : Host * Card :=
  effect mounted now (h, new_card v d).

(** A render of the same instance with other props: when a dependency
    changed, the pending cleanup runs, then the effect. *)
Definition card_update (mounted : bool) (now : Z) (v d : Z) (hc : Host * Card) : Host * Card :=
  let (h, c) := hc in
  if (v =? value c) && (d =? delay c) then (h, c)
  else
    let (h, c) := if cleanupPending c then effect_cleanup (h, c) else (h, c) in
    effect mounted now (h, set_props v d c).

(** Unmounting runs the pending cleanup of the animation effect, then
    that of the second effect, which cancels without clearing the ref. *)
Definition card_unmount (hc : Host * Card) : Host * Card :=
  let (h, c) := if cleanupPending (snd hc) then effect_cleanup hc else hc in
  match animationRef c with
  | Some id => (cancelAnimationFrame id h, set_cleanupPending false c)
  | None => (h, set_cleanupPending false c)
  end.

End StatCard.

(** The formula of the specification for the value on display [e]
    milliseconds into a transition from [p] to [t]:
    floor (p + (t - p) * (1 - (1 - min (e / 1500, 1)) ^ 3)),
    each operation being one on Numbers. *)
Definition eased_display {A : Arith} (p t e : Z) : Z :=
  Math_floor
    (inject_Z p ⊕ (inject_Z (t - p) ⊗
       (1 ⊖ Math_pow (1 ⊖ Math_min (inject_Z e ⊘ inject_Z 1500) 1) 3)))%num.

(** The same formula over the rationals, nothing rounded. *)
Definition exact_display (p t e : Z) : Z :=
  Qfloor (inject_Z p + inject_Z (t - p) *
            (1 - (1 - Qmin (inject_Z e / inject_Z 1500) 1) ^ 3))%Q.

(** What holds of every instance the page can produce: an instance that
    has not completed an animation has baseline 0. *)
Definition card_ok (c : Card) : Prop :=
  hasInitializedRef c = false -> previousValueRef c = 0.

(** No handle was issued between [h] and [h']: nothing was scheduled. *)
Definition nothing_scheduled (h h' : Host) : Prop :=
  next_timer h' = next_timer h /\ next_frame h' = next_frame h /\
  (forall id t, find_handle id (timers h') = Some t -> find_handle id (timers h) = Some t) /\
  (forall id t, find_handle id (frames h') = Some t -> find_handle id (frames h) = Some t).

(* ===================================================================== *)
(** ** The mounted dashboard *)
(* ===================================================================== *)

(** The page: the cache manager's world, the host's pending callbacks,
    every [StatCard] instance created so far (callbacks name an instance
    by its index here), the four instances on screen, and the number of
    requests not yet settled. *)
Record System := mkSystem {
  world : World;
  host : Host;
  cards : list Card;
  live : list nat;
  in_flight : nat;
}.

(** The four cards of the grid: the member of [stats] shown and the
    [delay] prop. *)
Definition grid : list (string * Z) :=
  [("total_users", 0); ("total_providers", 100);
   ("total_active_providers", 200); ("total_queries_processed", 300)].

Definition set_mountedRef (b : bool) : Js unit :=
  modify_view (fun s => mkView (stats s) (loading s) (lastUpdated s) (error s) (intervalRef s) b).
Definition set_intervalRef (r : option nat) : Js unit :=
  modify_view (fun s => mkView (stats s) (loading s) (lastUpdated s) (error s) r (mountedRef s)).

Definition completed {T} (c : Completion T) : World :=
  match c with Normal _ w => w | Thrown _ w => w end.

Section Dashboard.
Context {P : Platform} {A : Arith}.

Definition is_mounted (s : System) : bool := mountedRef (view (world s)).

(** Run [f] on instance [i]. *)
Definition on_card (i : nat) (f : Host * Card -> Host * Card) (s : System) : System :=
  match cards s !! i with
  | Some c =>
      let (h, c') := f (host s, c) in
      mkSystem (world s) h (<[i := c']> (cards s)) (live s) (in_flight s)
  | None => s
  end.

Definition unmount_cards (s : System) : System :=
  let s' := fold_left (fun s i => on_card i card_unmount s) (live s) s in
  mkSystem (world s') (host s') (cards s') [] (in_flight s').

(** Create the instance of one grid cell and run its effect. *)
Definition mount_card (now : Z) (s : System) (cell : string * Z) : System :=
  let i := length (cards s) in
  let (h, c) := card_mount i (is_mounted s) now
                  (metric (fst cell) (stats (view (world s)))) (snd cell) (host s) in
  mkSystem (world s) h (cards s ++ [c]) (live s ++ [i]) (in_flight s).

(** A render of DashboardStats commits. [StatCard] is declared in the
    body of DashboardStats, so each render makes a new component type:
    React unmounts the four instances on screen and mounts four new
    ones. *)
Definition render (now : Z) (s : System) : System :=
  fold_left (mount_card now) grid (unmount_cards s).

(** Calling [fetchStats] from the page. *)
Definition call_fetchStats (skipCache : bool) (now : Z) (s : System) : System :=
  match fetchStats skipCache now (world s) with
  | Normal sent w =>
      mkSystem w (host s) (cards s) (live s)
               (if sent then S (in_flight s) else in_flight s)
  | Thrown _ w => mkSystem w (host s) (cards s) (live s) (in_flight s)
  end.

(** The effect of DashboardStats (no dependencies: runs once). *)
Definition dashboard_effect (now : Z) (s : System) : System :=
  let w := completed (set_mountedRef true (world s)) in
  match loadCachedData now w with
  | Thrown _ w => mkSystem w (host s) (cards s) (live s) (in_flight s)
  | Normal hadCachedData w =>
      let s := call_fetchStats (negb hadCachedData) now
                 (mkSystem w (host s) (cards s) (live s) (in_flight s)) in
      let (id, h) := setTimer AutoRefresh (host s) in
      mkSystem (completed (set_intervalRef (Some id) (world s)))
               h (cards s) (live s) (in_flight s)
  end.

(** Its cleanup, followed by the unmounting of the cards. *)
Definition dashboard_cleanup (s : System) : System :=
  let w := completed (set_mountedRef false (world s)) in
  let h := match intervalRef (view w) with
           | Some id => clearInterval id (host s)
           | None => host s
           end in
  unmount_cards (mkSystem w h (cards s) (live s) (in_flight s)).

(** The page after its first render and its effects, over storage [ls]. *)
Definition boot (ls : Storage) (now : Z) : System :=
  dashboard_effect now
    (render now (mkSystem (mkWorld (initial_view now) ls [] []) initial_host [] [] 0)).

(** What happens to the page. [Rendered] is what a state change of
    DashboardStats leads to. [PropsChanged] is the other way a card can
    meet a new target, the one the dependency list of its effect is
    written for: React keeps the instance and re-runs the effect. The
    page's own renders never do that, since they replace the instance. *)
Inductive Event :=
| Rendered (now : Z)                          (* a re-render commits *)
| Clicked (now : Z)                           (* Refresh Now *)
| TimerFired (id : nat) (now : Z)
| FrameFired (id : nat) (now : Z)
| FetchSettled (o : FetchOutcome) (now : Z)
| Unmounted
| PropsChanged (i : nat) (v : Z) (now : Z).   (* instance i kept, new value *)

Definition step (s : System) (e : Event) : System :=
  match e with
  | Rendered now => if is_mounted s then render now s else s
  | Clicked now =>
      if is_mounted s && negb (loading (view (world s)))
      then call_fetchStats true now s else s
  | TimerFired id now =>
      match find_handle id (timers (host s)) with
      | Some (StartDelay i a) =>
          on_card i (start_delay_fires i (is_mounted s) a)
            (mkSystem (world s) (clearInterval id (host s)) (cards s) (live s) (in_flight s))
      | Some AutoRefresh => call_fetchStats true now s
      | None => s
      end
  | FrameFired id now =>
      match find_handle id (frames (host s)) with
      | Some t =>
          on_card (ft_card t) (animate (ft_card t) (is_mounted s) (ft_anim t) now)
            (mkSystem (world s) (cancelAnimationFrame id (host s)) (cards s) (live s) (in_flight s))
      | None => s
      end
  | FetchSettled o now =>
      match in_flight s with
      | O => s
      | S n =>
          mkSystem (completed (fetchStats_resume o now (world s)))
                   (host s) (cards s) (live s) n
      end
  | Unmounted => dashboard_cleanup s
  | PropsChanged i v now =>
      if is_mounted s && bool_decide (i ∈ live s) then
        on_card i (fun hc => card_update i (is_mounted s) now v (delay (snd hc)) hc) s
      else s
  end.

Definition run (s : System) (es : list Event) : System := fold_left step es s.

(** The number a grid cell shows. *)
Definition shown (k : nat) (s : System) : option Z :=
  i ← live s !! k; c ← cards s !! i; Some (displayValue c).

End Dashboard.

(** A callback of instance [i] is pending: a delayed start or a frame. *)
Definition card_has_pending (i : nat) (h : Host) : bool :=
  existsb (fun e => match snd e with
                    | StartDelay j _ => Nat.eqb i j
                    | AutoRefresh => false
                    end) (timers h)
  || existsb (fun e => Nat.eqb i (ft_card (snd e))) (frames h).

(** [c'] is [c] except, possibly, for an [isAnimating] reset to false,
    a cleared [animationRef] and a discharged cleanup. *)
Definition card_kept (c c' : Card) : Prop :=
  value c' = value c /\ delay c' = delay c /\
  displayValue c' = displayValue c /\
  previousValueRef c' = previousValueRef c /\
  hasInitializedRef c' = hasInitializedRef c /\
  (isAnimating c' = isAnimating c \/ isAnimating c' = false).

(** The page [s'] shows and stores what [s] does: same view state, same
    store, same requests, same instances up to [card_kept]; and no
    callback was scheduled in between. *)
Definition page_kept (s s' : System) : Prop :=
  view (world s') = view (world s) /\
  localStorage (world s') = localStorage (world s) /\
  requests (world s') = requests (world s) /\
  Forall2 card_kept (cards s) (cards s') /\
  nothing_scheduled (host s) (host s').

(* ===================================================================== *)
(** ** A concrete platform, for the examples *)
(* ===================================================================== *)

Module Browser.

Definition dq : string := String (Ascii.ascii_of_nat 34) EmptyString.

(** [JSON.stringify] on values whose strings need no escaping. *)
Fixpoint stringify (j : json) : string :=
  match j with
  | JNull => "null"
  | JBool b => if b then "true" else "false"
  | JNum n => pretty n
  | JStr s => dq +:+ s +:+ dq
  | JArr l => "[" +:+ String.concat "," (List.map stringify l) +:+ "]"
  | JObj fields =>
      "{" +:+ String.concat ","
                (List.map (fun '(k, v) => dq +:+ k +:+ dq +:+ ":" +:+ stringify v) fields)
          +:+ "}"
  end.

(** [JSON.parse] on the texts of [known]; every other text used below
    is not JSON. *)
Fixpoint parse_among (known : list json) (s : string) : Error + json :=
  match known with
  | [] => inl (mkError "SyntaxError" "Unexpected token in JSON")
  | j :: rest => if String.eqb s (stringify j) then inr j else parse_among rest s
  end.

(** Days since 1970-01-01 of a civil date, and back. *)
Definition days_from_civil (y m d : Z) : Z :=
  let y := if m <=? 2 then y - 1 else y in
  let era := y / 400 in
  let yoe := y - era * 400 in
  let doy := (153 * (if 2 <? m then m - 3 else m + 9) + 2) / 5 + d - 1 in
  let doe := yoe * 365 + yoe / 4 - yoe / 100 + doy in
  era * 146097 + doe - 719468.

Definition civil_from_days (z : Z) : Z * Z * Z :=
  let z := z + 719468 in
  let era := z / 146097 in
  let doe := z - era * 146097 in
  let yoe := (doe - doe / 1460 + doe / 36524 - doe / 146096) / 365 in
  let doy := doe - (365 * yoe + yoe / 4 - yoe / 100) in
  let mp := (5 * doy + 2) / 153 in
  let d := doy - (153 * mp + 2) / 5 + 1 in
  let m := if mp <? 10 then mp + 3 else mp - 9 in
  let y := yoe + era * 400 in
  (if m <=? 2 then y + 1 else y, m, d).

Definition pad (width : nat) (n : Z) : string :=
  let s := pretty n in
  String.concat EmptyString (List.repeat "0" (width - String.length s)%nat) +:+ s.

(** [toISOString] for the years 0000 to 9999. *)
Definition toISOString (t : Z) : string :=
  let '(y, m, d) := civil_from_days (t / 86400000) in
  let r := t mod 86400000 in
  pad 4 y +:+ "-" +:+ pad 2 m +:+ "-" +:+ pad 2 d +:+ "T" +:+
  pad 2 (r / 3600000) +:+ ":" +:+ pad 2 (r / 60000 mod 60) +:+ ":" +:+
  pad 2 (r / 1000 mod 60) +:+ "." +:+ pad 3 (r mod 1000) +:+ "Z".

Definition digit (c : Ascii.ascii) : option Z :=
  let n := Z.of_nat (Ascii.nat_of_ascii c) in
  if (48 <=? n) && (n <=? 57) then Some (n - 48) else None.

Fixpoint digits (acc : Z) (s : string) : option Z :=
  match s with
  | EmptyString => Some acc
  | String c s' => match digit c with
                   | Some d => digits (10 * acc + d) s'
                   | None => None
                   end
  end.

Definition field (from len : nat) (s : string) : option Z :=
  digits 0 (String.substring from len s).

(** The [Date] string parser on the format [toISOString] writes. *)
Definition parse_date (s : string) : option Z :=
  if Nat.eqb (String.length s) 24
     && String.eqb (String.substring 4 1 s) "-" && String.eqb (String.substring 7 1 s) "-"
     && String.eqb (String.substring 10 1 s) "T" && String.eqb (String.substring 13 1 s) ":"
     && String.eqb (String.substring 16 1 s) ":" && String.eqb (String.substring 19 1 s) "."
     && String.eqb (String.substring 23 1 s) "Z"
  then
    match field 0 4 s, field 5 2 s, field 8 2 s,
          field 11 2 s, field 14 2 s, field 17 2 s, field 20 3 s with
    | Some y, Some m, Some d, Some hh, Some mm, Some ss, Some ms =>
        if (1 <=? m) && (m <=? 12) && (1 <=? d) && (d <=? 31)
           && (hh <=? 23) && (mm <=? 59) && (ss <=? 59)
        then Some (days_from_civil y m d * 86400000
                   + hh * 3600000 + mm * 60000 + ss * 1000 + ms)
        else None
    | _, _, _, _, _, _, _ => None
    end
  else None.

(** The snapshot of a running service, and a later one. *)
Definition snapshot : json :=
  JObj [("total_users", JNum 1200); ("total_providers", JNum 34);
        ("total_active_providers", JNum 29); ("total_queries_processed", JNum 58210)].
Definition later_snapshot : json :=
  JObj [("total_users", JNum 1250); ("total_providers", JNum 34);
        ("total_active_providers", JNum 31); ("total_queries_processed", JNum 60017)].

Definition platform : Platform :=
  {| JSON_parse := parse_among [snapshot; later_snapshot; initial_stats];
     JSON_stringify := stringify;
     Date_parse := parse_date;
     Date_toISOString := toISOString |}.

(** 2025-01-01T00:00:00.000Z *)
Definition new_year : Z := 1735689600000.
Definition minutes (n : Z) : Z := n * 60 * 1000.

(** Storage holding [snapshot], saved at [new_year]. The quota is the
    usual five megabytes. *)
Definition cached_storage : Storage :=
  mkStorage (<[CACHE_KEYS.STATS := stringify snapshot]>
               (<[CACHE_KEYS.LAST_UPDATED := toISOString new_year]>
                  (<["token" := "s3cr3t"]> ∅)))
            false 5242880.

Definition empty_storage : Storage := mkStorage (<["token" := "s3cr3t"]> ∅) false 5242880.
Definition blocked_storage : Storage := mkStorage ∅ true 5242880.
(** Storage with room for nothing more. *)
Definition full_storage : Storage := mkStorage (<["token" := "s3cr3t"]> ∅) false 11.

Definition server_error : FetchOutcome := Response 500 "Internal Server Error" "oops".
Definition ok_response (j : json) : FetchOutcome := Response 200 "OK" (stringify j).

(** A mounted view over storage [ls], showing [shown] since [t]. *)
Definition world_showing (shown : json) (t : Z) (ls : Storage) : World :=
  mkWorld (mkView shown false t None (Some 1%nat) true) ls [] [].

End Browser.

(** The sample page: booted two minutes after [snapshot] was cached,
    then rendered, computing with binary64. *)
Module Page.
Import Browser.

Definition t0 : Z := new_year + minutes 2.

Definition events := @run platform binary64.

Definition booted : System := @boot platform cached_storage t0.

(** The cards show the cached snapshot; the first card (1200 users,
    no delay) has started counting and is halfway through. *)
Definition halfway : System :=
  events booted [Rendered (t0 + 5); TimerFired 2 (t0 + 5); FrameFired 1 (t0 + 755)].

(** The first card has finished counting. *)
Definition settled : System :=
  events booted [Rendered (t0 + 5); TimerFired 2 (t0 + 5); FrameFired 1 (t0 + 1505)].

(** Refresh Now is clicked, the page re-renders with the loading flag
    up, the response arrives with [later_snapshot], the page re-renders. *)
Definition refresh : list Event :=
  [Clicked (t0 + 756); Rendered (t0 + 757);
   FetchSettled (ok_response later_snapshot) (t0 + 760); Rendered (t0 + 761)].

(** Refresh Now is clicked 45 ms after the cards appeared: the re-render
    replaces them while their delayed starts are pending. The start of
    the replaced fourth card (delay 300) fires, its first frame runs,
    and the page is unmounted. *)
Definition left_early : System :=
  events booted [Rendered (t0 + 5); Clicked (t0 + 50); Rendered (t0 + 51);
                 TimerFired 5 (t0 + 305); FrameFired 1 (t0 + 321); Unmounted].

(** The same departure when React keeps the fourth card and its target
    changes during the delay and again after the delayed start. *)
Definition left_early_kept : System :=
  events booted [Rendered (t0 + 5); PropsChanged 7 60017 (t0 + 100);
                 TimerFired 5 (t0 + 305); PropsChanged 7 61000 (t0 + 310); Unmounted].

(** The page booted twenty minutes after [snapshot] was cached. *)
Definition booted_late : System := @boot platform cached_storage (new_year + minutes 20).
End Page.

(* ===================================================================== *)
(** ** What DashboardStats returns *)
(* ===================================================================== *)

Section FormatTimeAgo.
Context {A : Arith}.
Local Open Scope num_scope.

(** [formatTimeAgo(date)] called at time [now], for a valid [date]. The
    numbers it prints are integers far below 10^21, which a template
    literal writes in decimal. *)
Definition formatTimeAgo (now date : Z) : string :=
  let diffInMinutes :=
    Math_floor ((inject_Z now ⊖ inject_Z date) ⊘ inject_Z (1000 * 60)) in
  if diffInMinutes <? 1 then "Just now"
  else if diffInMinutes <? 60 then pretty diffInMinutes +:+ "m ago"
  else if diffInMinutes <? 1440 then
    pretty (Math_floor (inject_Z diffInMinutes ⊘ 60)) +:+ "h ago"
  else pretty (Math_floor (inject_Z diffInMinutes ⊘ 1440)) +:+ "d ago".

End FormatTimeAgo.

(** [stats.field] as the expression evaluates: reading a member of
    [null] throws, an object yields the member or [undefined] ([None]),
    and the other values have no member of these names. *)
Definition TypeError (field : string) : Error :=
  mkError "TypeError" ("Cannot read properties of null (reading '" +:+ field +:+ "')").

Definition member (field : string) (s : json) : Error + option json :=
  match s with
  | JNull => inl (TypeError field)
  | JObj fields => inr (assoc field fields)
  | _ => inr None
  end.

(** The props of one [<StatCard>] element. *)
Record StatCardProps := mkStatCardProps {
  p_title : string;
  p_value : option json;
  p_color : string;
  p_delay : Z;
}.

(** The parts of the returned markup that depend on state: the Refresh
    button, the error banner, the four cards, the footer. The time of
    day in the footer is written in the user's locale and is left out. *)
Record Markup := mkMarkup {
  button_disabled : bool;                (* disabled={loading} *)
  button_label : string;
  error_banner : option string;          (* {error && (...{error}...)} *)
  stat_cards : list StatCardProps;
  updated_ago : string;                  (* formatTimeAgo(lastUpdated) *)
  system_status : string;
}.

Section Markup.
Context {A : Arith}.

(** The [return] of DashboardStats, evaluated at time [now]. *)
Definition DashboardStats_return (now : Z) (v : View) : Error + Markup :=
  match member "total_users" (stats v), member "total_providers" (stats v),
        member "total_active_providers" (stats v),
        member "total_queries_processed" (stats v) with
  | inr users, inr providers, inr active, inr queries =>
      inr (mkMarkup
             (loading v)
             (if loading v then "Updating..." else "Refresh Now")
             (if truthy (error v) then error v else None)
             [mkStatCardProps "Total Users" users "blue" 0;
              mkStatCardProps "Total Providers" providers "green" 100;
              mkStatCardProps "Active Providers" active "purple" 200;
              mkStatCardProps "Queries Processed" queries "orange" 300]
             (formatTimeAgo now (lastUpdated v))
             (if truthy (error v) then "Connection Issues (Using Cache)"
              else "All Services Online"))
  | inl e, _, _, _ => inl e
  | _, inl e, _, _ => inl e
  | _, _, inl e, _ => inl e
  | _, _, _, inl e => inl e
  end.

End Markup.

(** The events of a page that stays mounted and whose cards React
    replaces on every render: all but [Unmounted] and [PropsChanged]. *)
Definition page_event (e : Event) : bool :=
  match e with
  | Unmounted | PropsChanged _ _ _ => false
  | _ => true
  end.

(** The instance a mounted page gets for a cell with target [v]: it
    shows 0 and, unless [v] is 0, is marked animating and has returned
    its cleanup. *)
Definition mounted_card (v d : Z) : Card :=
  mkCard v d 0 (negb (v =? 0)) None 0 false (negb (v =? 0)).

(** The host after such an instance was mounted at index [i]. *)
Definition mounted_host (i : nat) (now v : Z) (h : Host) : Host :=
  if v =? 0 then h else snd (setTimer (StartDelay i (mkAnim 0 v now)) h).

Section FramesFire.
Context {P : Platform} {A : Arith}.

(** The frames of instance [i] run one after the other: at each of the
    [times] the frame that its [animationRef] names fires. *)
Fixpoint frames_fire (i : nat) (times : list Z) (s : System) : System :=
  match times with
  | [] => s
  | t :: rest =>
      match cards s !! i ≫= animationRef with
      | Some f => frames_fire i rest (step s (FrameFired f t))
      | None => frames_fire i rest s
      end
  end.

End FramesFire.

(** Every pending frame carries a handle the host has issued. *)
Definition host_fresh (h : Host) : Prop :=
  forall (f : nat) (t : FrameTask),
    find_handle f (frames h) = Some t -> (f < next_frame h)%nat.

(** The sample browser, reading the text [null] as well. *)
Definition null_platform : Platform :=
  {| JSON_parse := Browser.parse_among [JNull; Browser.snapshot];
     JSON_stringify := Browser.stringify;
     Date_parse := Browser.parse_date;
     Date_toISOString := Browser.toISOString |}.

(** Instance [i] is running transition [a] (the frame its ref names is
    pending and is a frame of [a]), or has completed it. *)
Definition running (i : nat) (a : Anim) (s : System) : Prop :=
  exists (c : Card) (f : nat),
    cards s !! i = Some c /\ animationRef c = Some f /\
    find_handle f (frames (host s)) = Some (mkFrameTask i a).

Definition completed_transition (i : nat) (a : Anim) (s : System) : Prop :=
  exists (c : Card) (f : nat),
    cards s !! i = Some c /\ animationRef c = Some f /\
    find_handle f (frames (host s)) = None /\
    displayValue c = targetValue a /\ isAnimating c = false /\
    previousValueRef c = targetValue a /\ hasInitializedRef c = true.



(** The value is a snapshot: [stats.field] is an integer for each of
    the four cells. On such a value [metric] is what the page reads. *)
Definition is_snapshot (s : json) : bool :=
  forallb (fun cell : string * Z =>
             match member (fst cell) s with
             | inr (Some (JNum _)) => true
             | _ => false
             end) grid.

Section ShowsSnapshots.
Context {P : Platform} {A : Arith}.

(** Before and after each of the events the page holds a snapshot. *)
Fixpoint shows_snapshots (s : System) (es : list Event) : bool :=
  is_snapshot (stats (view (world s)))
  && match es with
     | [] => true
     | e :: es' => shows_snapshots (step s e) es'
     end.

End ShowsSnapshots.

(* ===================================================================== *)
(** * Properties of the cache manager *)
(* ===================================================================== *)

Section CacheManagerProperties.
Context {P : Platform}.

Lemma loadCachedData_spec (now : Z) (w : World) :
  exists c,
    loadCachedData now w =
      Normal (cache_hit (fresh_cache now (localStorage w)))
             (mkWorld (show_cached (fresh_cache now (localStorage w)) (view w))
                      (localStorage w) c (requests w)).
Proof.
  destruct w as [v ls c r].
  unfold loadCachedData, try_catch, loadCachedData_try, bind,
    localStorage_getItem, storage_getItem, fresh_cache; simpl.
  destruct (ls_blocked ls) eqn:Hb; simpl; [eexists; reflexivity|].
  rewrite ?Hb; simpl.
  destruct (ls_items ls !! CACHE_KEYS.STATS) as [s|]; simpl;
    destruct (ls_items ls !! CACHE_KEYS.LAST_UPDATED) as [t|]; simpl;
    rewrite ?andb_false_r; try (eexists; reflexivity).
  destruct (negb (String.eqb s "")); simpl; [|eexists; reflexivity].
  destruct (negb (String.eqb t "")); simpl; [|eexists; reflexivity].
  destruct (JSON_parse s) as [e|parsed]; simpl; [eexists; reflexivity|].
  destruct (Date_parse t) as [ts|]; simpl; [|eexists; reflexivity].
  destruct (now - ten_minutes <? ts); simpl; eexists; reflexivity.
Qed.

Lemma saveToCache_spec (data : json) (t : Z) (w : World) :
  exists ls c,
    saveToCache data t w = Normal tt (mkWorld (view w) ls c (requests w)).
Proof.
  destruct w as [v ls c r].
  unfold saveToCache, try_catch, bind, localStorage_setItem, console_log; simpl.
  destruct (storage_setItem CACHE_KEYS.STATS (JSON_stringify data) ls) as [e|ls1];
    simpl; [do 2 eexists; reflexivity|].
  destruct (storage_setItem CACHE_KEYS.LAST_UPDATED (Date_toISOString t) ls1) as [e|ls2];
    simpl; do 2 eexists; reflexivity.
Qed.

(** The [catch] block on a mounted view: the message is shown and the
    fresh entry, if there is one, replaces the snapshot. *)
Lemma fetchStats_catch_spec (now : Z) (e : Error) (w : World) :
  mountedRef (view w) = true ->
  exists c,
    fetchStats_catch now e w =
      Normal tt
        (mkWorld
           (show_cached (fresh_cache now (localStorage w))
              (mkView (stats (view w)) (loading (view w)) (lastUpdated (view w))
                      (Some (err_message e)) (intervalRef (view w)) true))
           (localStorage w) c (requests w)).
Proof.
  intros Hm. destruct w as [v ls c r]; simpl in *.
  unfold fetchStats_catch, bind, console_log, mountedRef_current, setError,
    modify_view; simpl.
  rewrite Hm.
  match goal with |- context [loadCachedData now ?w0] =>
    destruct (loadCachedData_spec now w0) as [c' Hl]; rewrite Hl end.
  simpl. rewrite Hm. eexists; reflexivity.
Qed.

Lemma fetchStats_catch_unmounted (now : Z) (e : Error) (w : World) :
  mountedRef (view w) = false ->
  exists c, fetchStats_catch now e w =
              Normal tt (mkWorld (view w) (localStorage w) c (requests w)).
Proof.
  intros Hm. destruct w as [v ls c r]; simpl in *.
  unfold fetchStats_catch, bind, console_log, mountedRef_current; simpl.
  rewrite Hm. eexists; reflexivity.
Qed.

End CacheManagerProperties.

Section CacheManagerClaims.
Context {P : Platform}.

Lemma unreadable_not_fresh (now : Z) (ls : Storage) :
  Unreadable ls -> fresh_cache now ls = None.
Proof.
  intros H. unfold fresh_cache.
  destruct H as [ls Hb|ls Hs|ls Ht|ls s e Hs He].
  - now rewrite Hb.
  - rewrite Hs. now destruct (ls_blocked ls).
  - rewrite Ht. destruct (ls_blocked ls); [easy|].
    now destruct (ls_items ls !! CACHE_KEYS.STATS).
  - rewrite Hs, He. destruct (ls_blocked ls); [easy|].
    destruct (ls_items ls !! CACHE_KEYS.LAST_UPDATED); [|easy].
    now destruct (negb (String.eqb s "") && negb (String.eqb s0 "")).
Qed.

(** C9. [loadCachedData] always completes normally, whatever the store
    holds and whether or not reading it throws. It never writes to the
    store. When the entry cannot be read (the store throws, a slot is
    absent, the snapshot is not JSON) it returns [false], and whenever
    it returns [false] the view, hence the displayed snapshot, is as it
    was. *)
Theorem loadCachedData_fail_soft (now : Z) (w : World) :
  exists (b : bool) (w' : World),
    loadCachedData now w = Normal b w' /\
    localStorage w' = localStorage w /\
    requests w' = requests w /\
    (b = false -> view w' = view w) /\
    (Unreadable (localStorage w) -> b = false).
Proof.
  destruct (loadCachedData_spec now w) as [c H].
  do 2 eexists. split; [exact H|]. simpl.
  split; [reflexivity|]. split; [reflexivity|]. split.
  - destruct (fresh_cache now (localStorage w)); simpl; [discriminate|reflexivity].
  - intros Hu. now rewrite (unreadable_not_fresh now _ Hu).
Qed.

Lemma fresh_cache_entry (now : Z) (ls : Storage) (s t : string) (cached : json) (ts : Z) :
  storage_getItem CACHE_KEYS.STATS ls = inr (Some s) -> s <> "" ->
  storage_getItem CACHE_KEYS.LAST_UPDATED ls = inr (Some t) -> t <> "" ->
  JSON_parse s = inr cached -> Date_parse t = Some ts ->
  now - ts < ten_minutes ->
  fresh_cache now ls = Some (cached, ts).
Proof.
  unfold storage_getItem, fresh_cache.
  destruct (ls_blocked ls); [discriminate|].
  intros Hs Hs0 Ht Ht0 Hp Hd Hage.
  injection Hs as ->. injection Ht as ->. rewrite Hp, Hd.
  apply String.eqb_neq in Hs0, Ht0. rewrite Hs0, Ht0. simpl.
  destruct (Z.ltb_spec (now - ten_minutes) ts); [reflexivity | lia].
Qed.

(** C2. With a cached entry less than ten minutes old, [fetchStats(false)]
    on a mounted view sends no request, and the view then shows the
    cached snapshot as parsed, with its timestamp, no error and the
    loading flag down; the store is untouched. *)
Theorem fresh_entry_served_without_request
    (now : Z) (w : World) (s t : string) (cached : json) (ts : Z) :
  mountedRef (view w) = true ->
  storage_getItem CACHE_KEYS.STATS (localStorage w) = inr (Some s) -> s <> "" ->
  storage_getItem CACHE_KEYS.LAST_UPDATED (localStorage w) = inr (Some t) -> t <> "" ->
  JSON_parse s = inr cached ->
  Date_parse t = Some ts ->
  now - ts < ten_minutes ->
  exists w',
    fetchStats false now w = Normal false w' /\
    requests w' = requests w /\
    stats (view w') = cached /\
    lastUpdated (view w') = ts /\
    error (view w') = None /\
    loading (view w') = false /\
    localStorage w' = localStorage w.
Proof.
  intros Hm Hs Hs0 Ht Ht0 Hp Hd Hage.
  pose proof (fresh_cache_entry now _ s t cached ts Hs Hs0 Ht Ht0 Hp Hd Hage) as Hf.
  destruct w as [[st ld lu er ir mr] ls c r]; simpl in *; subst mr.
  unfold fetchStats, bind, mountedRef_current, setLoading, setError, modify_view,
    try_catch, fetchStats_try; simpl.
  unfold bind.
  match goal with |- context [loadCachedData now ?w0] =>
    destruct (loadCachedData_spec now w0) as [c' Hl]; rewrite Hl end.
  simpl. rewrite Hf. simpl.
  unfold fetchStats_finally, bind, mountedRef_current, setLoading, modify_view, ret; simpl.
  eexists. split; [reflexivity|]. simpl. repeat split; reflexivity.
Qed.

(** C5, as the code has it. On a mounted view whose session token can
    be read, [fetchStats(skipCache)] sends exactly one request,
    carrying the token, when the refresh is forced or when no fresh
    entry is cached (the entry is absent, unreadable or ten minutes old
    or more). A forced refresh does so whatever the cache holds. *)
Theorem refresh_sends_one_request
    (skipCache : bool) (now : Z) (w : World) (token : option string) :
  mountedRef (view w) = true ->
  storage_getItem "token" (localStorage w) = inr token ->
  skipCache = true \/ fresh_cache now (localStorage w) = None ->
  exists w' r,
    fetchStats skipCache now w = Normal true w' /\
    requests w' = r :: requests w /\
    req_authorization r = bearer token /\
    localStorage w' = localStorage w /\
    stats (view w') = stats (view w).
Proof.
  intros Hm Htok Hcase.
  destruct w as [[st ld lu er ir mr] ls c r]; simpl in *; subst mr.
  unfold fetchStats, bind, mountedRef_current, setLoading, setError, modify_view,
    try_catch, fetchStats_try; simpl.
  destruct skipCache; simpl.
  - unfold bind, ret, localStorage_getItem; simpl. rewrite Htok. simpl.
    do 2 eexists. split; [reflexivity|]. simpl. repeat split; reflexivity.
  - destruct Hcase as [?|Hf]; [discriminate|].
    unfold bind.
    match goal with |- context [loadCachedData now ?w0] =>
      destruct (loadCachedData_spec now w0) as [c' Hl]; rewrite Hl end.
    simpl. rewrite Hf. simpl.
    unfold bind, ret, localStorage_getItem; simpl. rewrite Htok. simpl.
    do 2 eexists. split; [reflexivity|]. simpl. repeat split; reflexivity.
Qed.

(** The unguarded read of the token: when access to the store throws,
    [fetchStats] sends nothing, forced or not, and shows the store's
    error instead. *)
Theorem blocked_store_refresh_sends_nothing (skipCache : bool) (now : Z) (w : World) :
  mountedRef (view w) = true ->
  ls_blocked (localStorage w) = true ->
  exists w',
    fetchStats skipCache now w = Normal false w' /\
    requests w' = requests w /\
    error (view w') = Some (err_message SecurityError) /\
    loading (view w') = false /\
    stats (view w') = stats (view w).
Proof.
  intros Hm Hb.
  assert (Hf : fresh_cache now (localStorage w) = None)
    by (unfold fresh_cache; now rewrite Hb).
  destruct w as [[st ld lu er ir mr] ls c r]; simpl in *; subst mr.
  unfold fetchStats, bind, mountedRef_current, setLoading, setError, modify_view,
    try_catch, fetchStats_try; simpl.
  destruct (fetchStats_catch_spec now SecurityError
              (mkWorld (mkView st true lu None ir true)
                       ls c r) eq_refl) as [c1 Hc1].
  destruct skipCache; simpl.
  - unfold bind, localStorage_getItem, storage_getItem; simpl.
    rewrite Hb. rewrite Hc1.
    simpl. rewrite Hf. simpl.
    unfold fetchStats_finally, bind, mountedRef_current, setLoading, modify_view, ret.
    simpl. eexists. split; [reflexivity|]. simpl. repeat split; reflexivity.
  - unfold bind at 1.
    match goal with |- context [loadCachedData now ?w0] =>
      destruct (loadCachedData_spec now w0) as [c' Hl]; rewrite Hl end.
    simpl. rewrite Hf. simpl.
    unfold bind, localStorage_getItem, storage_getItem; simpl.
    rewrite Hb.
    destruct (fetchStats_catch_spec now SecurityError
                (mkWorld (mkView st true lu None ir true)
                         ls c' r) eq_refl) as [c2 Hc2].
    rewrite Hc2.
    simpl. rewrite Hf. simpl.
    unfold fetchStats_finally, bind, mountedRef_current, setLoading, modify_view, ret.
    simpl. eexists. split; [reflexivity|]. simpl. repeat split; reflexivity.
Qed.

End CacheManagerClaims.

Section RefreshOutcomes.
Context {P : Platform}.

Lemma fails_throws (o : FetchOutcome) (msg : string) (now : Z) (w : World) :
  Fails o msg ->
  exists e, fetchStats_try_resume o now w = Thrown e w /\ err_message e = msg.
Proof.
  intros [e|status statusText body Hok|status statusText body e Hok He];
    unfold fetchStats_try_resume, throw.
  - eexists; split; reflexivity.
  - rewrite Hok. eexists; split; reflexivity.
  - rewrite Hok, He. eexists; split; reflexivity.
Qed.

(** What a failed refresh leaves. When the awaited request fails on a
    mounted view (network error, status outside 200..299, or a body
    that does not parse), the store is left as it was, the failure's
    message becomes the error shown and the loading flag goes down. The
    snapshot shown afterwards is the cached one only if the entry is
    readable and less than ten minutes old; otherwise it is the
    snapshot that was on screen before. *)
Theorem failed_refresh_shows_only_a_fresh_entry
    (o : FetchOutcome) (msg : string) (now : Z) (w : World) :
  mountedRef (view w) = true ->
  Fails o msg ->
  exists w',
    fetchStats_resume o now w = Normal tt w' /\
    localStorage w' = localStorage w /\
    requests w' = requests w /\
    error (view w') = Some msg /\
    loading (view w') = false /\
    stats (view w') = match fresh_cache now (localStorage w) with
                      | Some (cached, _) => cached
                      | None => stats (view w)
                      end.
Proof.
  intros Hm Hf.
  destruct (fails_throws o msg now w Hf) as (e & He & Hmsg).
  destruct (fetchStats_catch_spec now e w Hm) as [c Hc].
  unfold fetchStats_resume, try_finally, try_catch.
  rewrite He, Hc.
  unfold fetchStats_finally, bind, mountedRef_current, setLoading, modify_view, ret.
  simpl.
  destruct (fresh_cache now (localStorage w)) as [[cached ts]|]; simpl;
    eexists; (split; [reflexivity|]); simpl; rewrite Hmsg; repeat split; reflexivity.
Qed.

(** C10. When the request succeeds on a mounted view, the parsed body
    becomes the snapshot shown, the time of completion becomes the
    last-updated time, the loading flag goes down and the error shown
    is not touched, whatever the store does with the two writes: if a
    write throws (access denied, quota exceeded) the exception stays in
    [saveToCache] and [fetchStats] still completes normally. *)
Theorem successful_fetch_applied_whatever_the_store_does
    (status : Z) (statusText body : string) (data : json) (now : Z) (w : World) :
  mountedRef (view w) = true ->
  response_ok status = true ->
  JSON_parse body = inr data ->
  exists w',
    fetchStats_resume (Response status statusText body) now w = Normal tt w' /\
    stats (view w') = data /\
    lastUpdated (view w') = now /\
    error (view w') = error (view w) /\
    loading (view w') = false /\
    requests w' = requests w.
Proof.
  intros Hm Hok Hp.
  destruct w as [[st ld lu er ir mr] ls c r]; simpl in *; subst mr.
  unfold fetchStats_resume, try_finally, try_catch, fetchStats_try_resume.
  rewrite Hok, Hp.
  unfold bind, mountedRef_current, setStats, setLastUpdated, modify_view. simpl.
  match goal with |- context [saveToCache data now ?w0] =>
    destruct (saveToCache_spec data now w0) as (ls' & c' & Hs); rewrite Hs end.
  unfold fetchStats_finally, bind, mountedRef_current, setLoading, modify_view, ret.
  simpl. eexists. split; [reflexivity|]. simpl. repeat split; reflexivity.
Qed.

(** What the store holds after [saveToCache] when a write throws: the
    writes made before the one that threw. *)
Lemma saveToCache_blocked (data : json) (t : Z) (w : World) :
  ls_blocked (localStorage w) = true ->
  exists c, saveToCache data t w =
              Normal tt (mkWorld (view w) (localStorage w) c (requests w)).
Proof.
  intros Hb. destruct w as [v ls c r]; simpl in *.
  unfold saveToCache, try_catch, bind, localStorage_setItem, storage_setItem,
    console_log; simpl.
  rewrite Hb. eexists; reflexivity.
Qed.

End RefreshOutcomes.

(* ===================================================================== *)
(** ** The cache manager on the sample browser *)
(* ===================================================================== *)

(** A request that fails two minutes after the snapshot was cached. *)
Lemma failed_refresh_witness :
  exists w',
    @fetchStats_resume Browser.platform Browser.server_error
        (Browser.new_year + Browser.minutes 2)
        (Browser.world_showing initial_stats (Browser.new_year + Browser.minutes 2)
           Browser.cached_storage)
      = Normal tt w' /\
    localStorage w' = Browser.cached_storage /\
    requests w' = [] /\
    error (view w') = Some "HTTP 500: Internal Server Error" /\
    loading (view w') = false /\
    stats (view w') = Browser.snapshot.
Proof.
  exact (@failed_refresh_shows_only_a_fresh_entry Browser.platform
           Browser.server_error "HTTP 500: Internal Server Error"
           (Browser.new_year + Browser.minutes 2)
           (Browser.world_showing initial_stats (Browser.new_year + Browser.minutes 2)
              Browser.cached_storage)
           eq_refl
           (@fails_status Browser.platform 500 "Internal Server Error" "oops" eq_refl)).
Defined.

Lemma fresh_entry_witness :
  exists w',
    @fetchStats Browser.platform false (Browser.new_year + Browser.minutes 2)
        (Browser.world_showing initial_stats (Browser.new_year + Browser.minutes 2)
           Browser.cached_storage)
      = Normal false w' /\
    requests w' = [] /\
    stats (view w') = Browser.snapshot /\
    lastUpdated (view w') = Browser.new_year /\
    error (view w') = None /\
    loading (view w') = false /\
    localStorage w' = Browser.cached_storage.
Proof.
  apply (@fresh_entry_served_without_request Browser.platform
           (Browser.new_year + Browser.minutes 2)
           (Browser.world_showing initial_stats (Browser.new_year + Browser.minutes 2)
              Browser.cached_storage)
           (Browser.stringify Browser.snapshot) (Browser.toISOString Browser.new_year)
           Browser.snapshot Browser.new_year).
  - reflexivity.
  - vm_compute; reflexivity.
  - vm_compute; discriminate.
  - vm_compute; reflexivity.
  - vm_compute; discriminate.
  - vm_compute; reflexivity.
  - vm_compute; reflexivity.
  - vm_compute; reflexivity.
Defined.

Lemma forced_refresh_witness :
  exists w' r,
    @fetchStats Browser.platform true (Browser.new_year + Browser.minutes 2)
        (Browser.world_showing Browser.snapshot Browser.new_year Browser.cached_storage)
      = Normal true w' /\
    requests w' = r :: [] /\
    req_authorization r = "Bearer s3cr3t" /\
    localStorage w' = Browser.cached_storage /\
    stats (view w') = Browser.snapshot.
Proof.
  apply (@refresh_sends_one_request Browser.platform true
           (Browser.new_year + Browser.minutes 2)
           (Browser.world_showing Browser.snapshot Browser.new_year Browser.cached_storage)
           (Some "s3cr3t")).
  - reflexivity.
  - vm_compute; reflexivity.
  - left; reflexivity.
Defined.

(** The store is full: both writes of [saveToCache] throw. *)
Lemma full_store_witness :
  exists w',
    @fetchStats_resume Browser.platform (Browser.ok_response Browser.later_snapshot)
        (Browser.new_year + Browser.minutes 5)
        (Browser.world_showing Browser.snapshot Browser.new_year Browser.full_storage)
      = Normal tt w' /\
    stats (view w') = Browser.later_snapshot /\
    lastUpdated (view w') = Browser.new_year + Browser.minutes 5 /\
    error (view w') = None /\
    loading (view w') = false /\
    requests w' = [].
Proof.
  apply (@successful_fetch_applied_whatever_the_store_does Browser.platform
           200 "OK" (Browser.stringify Browser.later_snapshot) Browser.later_snapshot
           (Browser.new_year + Browser.minutes 5)
           (Browser.world_showing Browser.snapshot Browser.new_year Browser.full_storage)).
  - reflexivity.
  - reflexivity.
  - vm_compute; reflexivity.
Defined.

(** There the store is left as it was and the failure goes to the
    console only. *)
Example full_store_keeps_old_entry :
  completed (@fetchStats_resume Browser.platform (Browser.ok_response Browser.later_snapshot)
               (Browser.new_year + Browser.minutes 5)
               (Browser.world_showing Browser.snapshot Browser.new_year Browser.full_storage))
  = mkWorld (mkView Browser.later_snapshot false (Browser.new_year + Browser.minutes 5)
                    None (Some 1%nat) true)
            Browser.full_storage
            ["Error saving to cache: The quota has been exceeded."] [].
Proof. vm_compute. reflexivity. Qed.

(** With room for the snapshot but not for the timestamp after it, the
    first write lands and the second throws: the store then pairs the new
    snapshot with no timestamp. *)
Example half_written_entry :
  ls_items (localStorage
    (completed (@fetchStats_resume Browser.platform (Browser.ok_response Browser.later_snapshot)
                  (Browser.new_year + Browser.minutes 5)
                  (Browser.world_showing Browser.snapshot Browser.new_year
                     (mkStorage (<["token" := "s3cr3t"]> ∅) false 150)))))
  = <[CACHE_KEYS.STATS := Browser.stringify Browser.later_snapshot]>
      (<["token" := "s3cr3t"]> ∅).
Proof. vm_compute. reflexivity. Qed.

(* ===================================================================== *)
(** * binary64 satisfies the laws of rounding *)
(* ===================================================================== *)

Section Binary64.
Local Open Scope Q_scope.

Lemma round_half_even_bounds (q : Q) :
  (Qfloor q <= round_half_even q <= Qfloor q + 1)%Z.
Proof.
  unfold round_half_even.
  destruct (q - inject_Z (Qfloor q) ?= 1 # 2); [destruct (Z.even (Qfloor q))| |]; lia.
Qed.

Lemma round_half_even_comp (x y : Q) : x == y -> round_half_even x = round_half_even y.
Proof.
  intros H. unfold round_half_even.
  rewrite (Qfloor_comp _ _ H).
  assert (E : (x - inject_Z (Qfloor y) ?= 1 # 2) = (y - inject_Z (Qfloor y) ?= 1 # 2))
    by (apply Qcompare_comp; [rewrite H|]; reflexivity).
  now rewrite E.
Qed.

Lemma round_half_even_Z (z : Z) : round_half_even (inject_Z z) = z.
Proof.
  unfold round_half_even. rewrite Qfloor_Z.
  assert (E : (inject_Z z - inject_Z z ?= 1 # 2) = Lt).
  { apply (proj1 (Qlt_alt _ _)). generalize (inject_Z z). intros r. lra. }
  now rewrite E.
Qed.

Lemma round_half_even_mono (x y : Q) : x <= y -> (round_half_even x <= round_half_even y)%Z.
Proof.
  intros H.
  pose proof (Qfloor_resp_le _ _ H) as Hf.
  pose proof (round_half_even_bounds x) as Bx.
  pose proof (round_half_even_bounds y) as By.
  destruct (Z.eq_dec (Qfloor x) (Qfloor y)) as [E|NE]; [|lia].
  unfold round_half_even in *. rewrite E in *.
  destruct (x - inject_Z (Qfloor y) ?= 1 # 2) eqn:Cx;
    destruct (y - inject_Z (Qfloor y) ?= 1 # 2) eqn:Cy;
    try lia; try (destruct (Z.even (Qfloor y)); lia).
  - apply (proj2 (Qeq_alt _ _)) in Cx. apply (proj2 (Qlt_alt _ _)) in Cy. revert Cx Cy. generalize (inject_Z (Qfloor y)). intros r ? ?. lra.
  - apply (proj2 (Qgt_alt _ _)) in Cx. apply (proj2 (Qeq_alt _ _)) in Cy. revert Cx Cy. generalize (inject_Z (Qfloor y)). intros r ? ?. lra.
  - apply (proj2 (Qgt_alt _ _)) in Cx. apply (proj2 (Qlt_alt _ _)) in Cy. revert Cx Cy. generalize (inject_Z (Qfloor y)). intros r ? ?. lra.
Qed.

Lemma two_pow_pos (k : Z) : 0 < 2 ^ k.
Proof. apply Qpower_0_lt. reflexivity. Qed.

Lemma two_pow_add (j k : Z) : 2 ^ (j + k) == 2 ^ j * 2 ^ k.
Proof. apply Qpower_plus. discriminate. Qed.

Lemma two_pow_le (j k : Z) : (j <= k)%Z -> 2 ^ j <= 2 ^ k.
Proof. intros H. apply Qpower_le_compat_l; [exact H|discriminate]. Qed.

Lemma two_pow_lt (j k : Z) : (j < k)%Z -> 2 ^ j < 2 ^ k.
Proof. intros H. apply Qpower_lt_compat_l; [exact H|reflexivity]. Qed.

Lemma two_pow_Z (k : Z) : (0 <= k)%Z -> inject_Z (2 ^ k) == 2 ^ k.
Proof. intros H. now apply (Zpower_Qpower 2 k). Qed.


Lemma Qmake_pos_div (n : Z) (d : positive) : n # d == inject_Z n / inject_Z (Zpos d).
Proof. apply Qmake_Qdiv. Qed.

(** [ilog2] brackets a positive rational between two powers of two. *)
Lemma ilog2_spec (a : Q) : 0 < a -> 2 ^ ilog2 a <= a /\ a < 2 ^ (ilog2 a + 1).
Proof.
  intros Ha. destruct a as [n d]. unfold ilog2. simpl Qnum. simpl Qden.
  assert (Hn : (0 < n)%Z) by (unfold Qlt in Ha; simpl in Ha; lia).
  destruct (Z.log2_spec n Hn) as [Hn1 Hn2].
  destruct (Z.log2_spec (Zpos d) (Pos2Z.is_pos d)) as [Hd1 Hd2].
  pose proof (Z.log2_nonneg n) as Ln. pose proof (Z.log2_nonneg (Zpos d)) as Ld.
  set (ln := Z.log2 n) in *. set (ld := Z.log2 (Zpos d)) in *.
  assert (Qn1 : 2 ^ ln <= inject_Z n) by (rewrite <- two_pow_Z by lia; now rewrite <- Zle_Qle).
  assert (Qn2 : inject_Z n < 2 ^ (ln + 1)) by (rewrite <- two_pow_Z by lia; now rewrite <- Zlt_Qlt).
  assert (Qd1 : 2 ^ ld <= inject_Z (Zpos d)) by (rewrite <- two_pow_Z by lia; now rewrite <- Zle_Qle).
  assert (Qd2 : inject_Z (Zpos d) < 2 ^ (ld + 1)) by (rewrite <- two_pow_Z by lia; now rewrite <- Zlt_Qlt).
  assert (Hdpos : 0 < inject_Z (Zpos d))
    by (change (inject_Z 0 < inject_Z (Zpos d)); rewrite <- Zlt_Qlt; lia).
  assert (Hval : n # d == inject_Z n / inject_Z (Zpos d)) by apply Qmake_Qdiv.
  (* upper: n/d < 2^(ln - ld + 1) *)
  assert (Up : n # d < 2 ^ (ln - ld + 1)).
  { rewrite Hval. apply Qlt_shift_div_r; [exact Hdpos|].
    apply Qlt_le_trans with (2 ^ (ln + 1)); [exact Qn2|].
    replace (ln + 1)%Z with ((ln - ld + 1) + ld)%Z by lia.
    rewrite two_pow_add.
    pose proof (two_pow_pos (ln - ld + 1)).
    apply Qmult_le_l; [assumption|exact Qd1]. }
  (* lower: 2^(ln - ld - 1) <= n/d *)
  assert (Lo : 2 ^ (ln - ld - 1) <= n # d).
  { rewrite Hval. apply Qle_shift_div_l; [exact Hdpos|].
    apply Qle_trans with (2 ^ ln); [|exact Qn1].
    replace ln with ((ln - ld - 1) + (ld + 1))%Z at 2 by lia.
    rewrite two_pow_add.
    pose proof (two_pow_pos (ln - ld - 1)).
    apply Qmult_le_l; [assumption|apply Qlt_le_weak; exact Qd2]. }
  destruct (Qle_bool (2 ^ (ln - ld)) (n # d)) eqn:E.
  - apply Qle_bool_iff in E. split; assumption.
  - split; [exact Lo|].
    replace (ln - ld - 1 + 1)%Z with (ln - ld)%Z by lia.
    apply Qnot_le_lt. intros C. apply Qle_bool_iff in C. congruence.
Qed.

Lemma ilog2_unique (a : Q) (e : Z) : 0 < a -> 2 ^ e <= a -> a < 2 ^ (e + 1) -> ilog2 a = e.
Proof.
  intros Ha H1 H2. destruct (ilog2_spec a Ha) as [S1 S2].
  assert (A1 : (e < ilog2 a + 1)%Z).
  { apply (Qpower_lt_compat_l_inv 2); [|reflexivity].
    eapply Qle_lt_trans; eassumption. }
  assert (A2 : (ilog2 a < e + 1)%Z).
  { apply (Qpower_lt_compat_l_inv 2); [|reflexivity].
    eapply Qle_lt_trans; eassumption. }
  lia.
Qed.

Lemma ilog2_comp (a b : Q) : 0 < a -> a == b -> ilog2 a = ilog2 b.
Proof.
  intros Ha E. assert (Hb : 0 < b) by (rewrite <- E; exact Ha).
  destruct (ilog2_spec b Hb) as [S1 S2].
  apply ilog2_unique; [exact Ha|rewrite E; exact S1|rewrite E; exact S2].
Qed.

Lemma ilog2_mono (a b : Q) : 0 < a -> a <= b -> (ilog2 a <= ilog2 b)%Z.
Proof.
  intros Ha Hab. assert (Hb : 0 < b) by (eapply Qlt_le_trans; eassumption).
  destruct (ilog2_spec a Ha) as [A1 A2]. destruct (ilog2_spec b Hb) as [B1 B2].
  assert (H : (ilog2 a < ilog2 b + 1)%Z).
  { apply (Qpower_lt_compat_l_inv 2); [|reflexivity].
    eapply Qle_lt_trans; [exact A1|]. eapply Qle_lt_trans; eassumption. }
  lia.
Qed.


Lemma rpos_comp (a b : Q) : 0 < a -> a == b -> rpos a == rpos b.
Proof.
  intros Ha E. unfold rpos, rexp. rewrite (ilog2_comp a b Ha E).
  rewrite (round_half_even_comp (a / 2 ^ Z.max (ilog2 b - 52) (-1074))
             (b / 2 ^ Z.max (ilog2 b - 52) (-1074))); [reflexivity|].
  now rewrite E.
Qed.

Lemma scaled_le (a b : Q) (e : Z) : a <= b -> a / 2 ^ e <= b / 2 ^ e.
Proof.
  intros H. apply Qle_shift_div_l; [apply two_pow_pos|].
  unfold Qdiv. rewrite <- Qmult_assoc, (Qmult_comm (/ _)), Qmult_inv_r, Qmult_1_r;
    [exact H|]. pose proof (two_pow_pos e). lra.
Qed.

Lemma round_scaled_le (x : Q) (m : Z) (e : Z) :
  x <= inject_Z m * 2 ^ e -> (round_half_even (x / 2 ^ e) <= m)%Z.
Proof.
  intros H. rewrite <- (round_half_even_Z m). apply round_half_even_mono.
  apply Qle_shift_div_r; [apply two_pow_pos|exact H].
Qed.

Lemma round_scaled_ge (x : Q) (m : Z) (e : Z) :
  inject_Z m * 2 ^ e <= x -> (m <= round_half_even (x / 2 ^ e))%Z.
Proof.
  intros H. rewrite <- (round_half_even_Z m) at 1. apply round_half_even_mono.
  apply Qle_shift_div_l; [apply two_pow_pos|exact H].
Qed.

Lemma rpos_nonneg (a : Q) : 0 < a -> 0 <= rpos a.
Proof.
  intros Ha. unfold rpos.
  apply Qmult_le_0_compat; [|apply Qlt_le_weak, two_pow_pos].
  change 0 with (inject_Z 0). rewrite <- Zle_Qle.
  apply round_scaled_ge. change (inject_Z 0) with 0. lra.
Qed.

(** An exactly representable value is returned as it is. *)
Lemma rpos_exact (a : Q) (m : Z) : a == inject_Z m * 2 ^ rexp a -> rpos a == a.
Proof.
  intros E. unfold rpos.
  assert (H : round_half_even (a / 2 ^ rexp a) = m).
  { rewrite <- (round_half_even_Z m). apply round_half_even_comp.
    rewrite E at 1. field. pose proof (two_pow_pos (rexp a)). lra. }
  rewrite H. symmetry. exact E.
Qed.

Lemma rpos_upper (a : Q) : 0 < a -> rpos a <= 2 ^ Z.max (ilog2 a + 1) (rexp a).
Proof.
  intros Ha. destruct (ilog2_spec a Ha) as [_ S2]. unfold rpos.
  set (e := rexp a). set (k := Z.max (ilog2 a + 1 - e) 0).
  assert (Hk : (0 <= k)%Z) by lia.
  assert (H : (round_half_even (a / 2 ^ e) <= 2 ^ k)%Z).
  { apply round_scaled_le. rewrite two_pow_Z by exact Hk. rewrite <- two_pow_add.
    apply Qlt_le_weak. eapply Qlt_le_trans; [exact S2|]. apply two_pow_le. lia. }
  apply Qle_trans with (inject_Z (2 ^ k) * 2 ^ e).
  - apply Qmult_le_compat_r; [now rewrite <- Zle_Qle|apply Qlt_le_weak, two_pow_pos].
  - rewrite two_pow_Z by exact Hk. rewrite <- two_pow_add. apply two_pow_le. lia.
Qed.

Lemma rpos_lower (a : Q) : 0 < a -> (-1074 <= ilog2 a - 52)%Z -> 2 ^ ilog2 a <= rpos a.
Proof.
  intros Ha Hn. destruct (ilog2_spec a Ha) as [S1 _]. unfold rpos.
  assert (He : rexp a = (ilog2 a - 52)%Z) by (unfold rexp; lia).
  rewrite He.
  assert (H : (2 ^ 52 <= round_half_even (a / 2 ^ (ilog2 a - 52)))%Z).
  { apply round_scaled_ge. rewrite two_pow_Z by lia. rewrite <- two_pow_add.
    replace (52 + (ilog2 a - 52))%Z with (ilog2 a) by lia. exact S1. }
  apply Qle_trans with (inject_Z (2 ^ 52) * 2 ^ (ilog2 a - 52)).
  - rewrite two_pow_Z by lia. rewrite <- two_pow_add.
    replace (52 + (ilog2 a - 52))%Z with (ilog2 a) by lia. apply Qle_refl.
  - apply Qmult_le_compat_r; [now rewrite <- Zle_Qle|apply Qlt_le_weak, two_pow_pos].
Qed.

Lemma rpos_mono (a b : Q) : 0 < a -> a <= b -> rpos a <= rpos b.
Proof.
  intros Ha Hab. assert (Hb : 0 < b) by (eapply Qlt_le_trans; eassumption).
  pose proof (ilog2_mono a b Ha Hab) as Hl.
  destruct (Z.eq_dec (rexp a) (rexp b)) as [E|NE].
  - unfold rpos. rewrite E.
    apply Qmult_le_compat_r; [|apply Qlt_le_weak, two_pow_pos].
    rewrite <- Zle_Qle. apply round_half_even_mono. now apply scaled_le.
  - assert (Hlt : (rexp a < rexp b)%Z) by (unfold rexp in *; lia).
    assert (Hn : (-1074 <= ilog2 b - 52)%Z) by (unfold rexp in *; lia).
    apply Qle_trans with (2 ^ Z.max (ilog2 a + 1) (rexp a)); [now apply rpos_upper|].
    apply Qle_trans with (2 ^ ilog2 b); [|now apply rpos_lower].
    apply two_pow_le. unfold rexp in *. lia.
Qed.


Lemma ilog2_Z (z : Z) : (0 < z)%Z -> ilog2 (inject_Z z) = Z.log2 z.
Proof.
  intros Hz. destruct (Z.log2_spec z Hz) as [H1 H2].
  pose proof (Z.log2_nonneg z).
  apply ilog2_unique.
  - change 0 with (inject_Z 0). rewrite <- Zlt_Qlt. exact Hz.
  - rewrite <- two_pow_Z by lia. now rewrite <- Zle_Qle.
  - rewrite <- two_pow_Z by lia. rewrite <- Zlt_Qlt. rewrite <- Z.add_1_r in H2. exact H2.
Qed.

Lemma rpos_Z (z : Z) : (0 < z <= 2 ^ 53)%Z -> rpos (inject_Z z) == inject_Z z.
Proof.
  intros [Hz Hle].
  assert (Hl : (Z.log2 z <= 53)%Z).
  { apply Z.log2_le_mono in Hle. now rewrite Z.log2_pow2 in Hle by lia. }
  pose proof (Z.log2_nonneg z) as Hl0.
  assert (He : rexp (inject_Z z) = (Z.log2 z - 52)%Z)
    by (unfold rexp; rewrite ilog2_Z by exact Hz; lia).
  destruct (Z_le_gt_dec (Z.log2 z) 52) as [H52|H53].
  - apply (rpos_exact _ (z * 2 ^ (52 - Z.log2 z))). rewrite He.
    rewrite inject_Z_mult, two_pow_Z by lia.
    rewrite <- Qmult_assoc, <- two_pow_add.
    replace (52 - Z.log2 z + (Z.log2 z - 52))%Z with 0%Z by lia.
    change (2 ^ 0) with 1. now rewrite Qmult_1_r.
  - assert (E53 : Z.log2 z = 53%Z) by lia.
    destruct (Z.log2_spec z Hz) as [H1 _]. rewrite E53 in H1.
    assert (Ez : z = (2 ^ 53)%Z) by lia.
    apply (rpos_exact _ (2 ^ 52)). rewrite He, E53, Ez. reflexivity.
Qed.

Lemma rnd64_zero (q : Q) : q == 0 -> rnd64 q = 0.
Proof.
  intros H. unfold rnd64.
  assert (E : Qeq_bool (Qred q) 0 = true)
    by (apply Qeq_bool_iff; now rewrite Qred_correct).
  now rewrite E.
Qed.

Lemma rnd64_pos (q : Q) : 0 < q -> rnd64 q == rpos q.
Proof.
  intros H. unfold rnd64.
  assert (Hr : 0 < Qred q) by now rewrite Qred_correct.
  assert (E : Qeq_bool (Qred q) 0 = false).
  { destruct (Qeq_bool (Qred q) 0) eqn:E; [|reflexivity].
    apply Qeq_bool_iff in E. lra. }
  rewrite E.
  assert (L : Qle_bool 0 (Qred q) = true) by (apply Qle_bool_iff; lra).
  rewrite L. rewrite Qred_correct.
  assert (Ea : Qabs (Qred q) == q)
    by (rewrite Qabs_pos by lra; apply Qred_correct).
  apply rpos_comp; [rewrite Ea; exact H|exact Ea].
Qed.

Lemma rnd64_neg (q : Q) : q < 0 -> rnd64 q == - rpos (- q).
Proof.
  intros H. unfold rnd64.
  assert (Hr : Qred q < 0) by now rewrite Qred_correct.
  assert (E : Qeq_bool (Qred q) 0 = false).
  { destruct (Qeq_bool (Qred q) 0) eqn:E; [|reflexivity].
    apply Qeq_bool_iff in E. lra. }
  rewrite E.
  assert (L : Qle_bool 0 (Qred q) = false).
  { destruct (Qle_bool 0 (Qred q)) eqn:L; [|reflexivity].
    apply Qle_bool_iff in L. lra. }
  rewrite L. rewrite Qred_correct.
  assert (Ea : Qabs (Qred q) == - q).
  { rewrite Qabs_neg by lra. now rewrite Qred_correct. }
  apply Qopp_comp. apply rpos_comp; [rewrite Ea; lra|exact Ea].
Qed.

Lemma rnd64_mono (x y : Q) : x <= y -> rnd64 x <= rnd64 y.
Proof.
  intros H.
  destruct (Q_dec x 0) as [[Hx|Hx]|Hx]; destruct (Q_dec y 0) as [[Hy|Hy]|Hy];
    try lra.
  - rewrite (rnd64_neg x Hx), (rnd64_neg y Hy).
    apply Qopp_le_compat. apply rpos_mono; lra.
  - rewrite (rnd64_neg x Hx), (rnd64_pos y Hy).
    pose proof (rpos_nonneg (- x) ltac:(lra)). pose proof (rpos_nonneg y Hy). lra.
  - rewrite (rnd64_neg x Hx), (rnd64_zero y Hy).
    pose proof (rpos_nonneg (- x) ltac:(lra)). lra.
  - rewrite (rnd64_pos x Hx), (rnd64_pos y Hy). apply rpos_mono; lra.
  - rewrite (rnd64_zero x Hx), (rnd64_pos y Hy). now apply rpos_nonneg.
  - rewrite (rnd64_zero x Hx), (rnd64_zero y Hy). apply Qle_refl.
Qed.

Lemma rnd64_integer (z : Z) : (Z.abs z <= 2 ^ 53)%Z -> rnd64 (inject_Z z) == inject_Z z.
Proof.
  intros H. destruct (Z.lt_trichotomy z 0) as [Hz|[Hz|Hz]].
  - assert (Hq : inject_Z z < 0) by (change 0 with (inject_Z 0); rewrite <- Zlt_Qlt; lia).
    rewrite (rnd64_neg _ Hq).
    rewrite (rpos_comp (- inject_Z z) (inject_Z (- z)));
      [|lra|now rewrite inject_Z_opp].
    rewrite rpos_Z by lia. rewrite inject_Z_opp. lra.
  - subst z. now rewrite rnd64_zero.
  - assert (Hq : 0 < inject_Z z) by (change 0 with (inject_Z 0); rewrite <- Zlt_Qlt; lia).
    rewrite (rnd64_pos _ Hq). apply rpos_Z. lia.
Qed.

End Binary64.


Lemma binary64_laws : ArithLaws binary64.
Proof.
  constructor; cbn [rnd Math_pow binary64].
  - apply rnd64_mono.
  - apply rnd64_integer.
  - intros x H0 H1.
    assert (Hc : (0 <= x ^ 3)%Q /\ (x ^ 3 <= 1)%Q) by (simpl; split; nra).
    destruct Hc as [Hc0 Hc1]. split.
    + rewrite <- (rnd64_zero 0) by reflexivity. now apply rnd64_mono.
    + rewrite <- (rnd64_integer 1) by (simpl; lia). now apply rnd64_mono.
  - intros x H. rewrite (rnd64_zero (x ^ 3)); [reflexivity|].
    rewrite H. reflexivity.
Qed.

(* ===================================================================== *)
(** * Properties of the count-up animation *)
(* ===================================================================== *)

Lemma inject_Z_sub (x y : Z) : inject_Z (x - y) = (inject_Z x - inject_Z y)%Q.
Proof.
  unfold Z.sub. rewrite inject_Z_plus, inject_Z_opp. reflexivity.
Qed.

Section Easing.
Context {A : Arith} (L : ArithLaws A).
Local Open Scope Q_scope.

Lemma rnd_proper (x y : Q) : x == y -> rnd x == rnd y.
Proof.
  intros H. apply Qle_antisym; apply (rnd_mono A L); rewrite H; apply Qle_refl.
Qed.

Lemma rnd_0 : rnd 0 == 0.
Proof. apply (rnd_integer A L 0%Z). simpl. lia. Qed.

Lemma rnd_1 : rnd 1 == 1.
Proof. apply (rnd_integer A L 1%Z). simpl. lia. Qed.

Lemma rnd_between (lo hi : Z) (x : Q) :
  (Z.abs lo <= 2 ^ 53)%Z -> (Z.abs hi <= 2 ^ 53)%Z ->
  inject_Z lo <= x -> x <= inject_Z hi ->
  inject_Z lo <= rnd x /\ rnd x <= inject_Z hi.
Proof.
  intros Hlo Hhi H1 H2. split.
  - rewrite <- (rnd_integer A L lo Hlo). now apply (rnd_mono A L).
  - rewrite <- (rnd_integer A L hi Hhi). now apply (rnd_mono A L).
Qed.

Lemma rnd_unit (x : Q) : 0 <= x -> x <= 1 -> 0 <= rnd x /\ rnd x <= 1.
Proof.
  intros H0 H1.
  apply (rnd_between 0 1 x); simpl; try lia; assumption.
Qed.

Lemma progress_le_1 (a : Anim) (now : Z) : progress_at a now <= 1.
Proof. unfold progress_at, Math_min. apply Q.le_min_r. Qed.

Lemma progress_nonneg (a : Anim) (now : Z) :
  (startTime a <= now)%Z -> 0 <= progress_at a now.
Proof.
  intros H. unfold progress_at, Math_min. apply Q.min_glb; [|lra].
  rewrite <- rnd_0. apply (rnd_mono A L).
  unfold duration. apply Qle_shift_div_l; [reflexivity|].
  rewrite Qmult_0_l. rewrite <- (Zle_Qle 0). lia.
Qed.

(** The full duration has elapsed: [progress >= 1] holds. *)
Lemma progress_complete (a : Anim) (now : Z) :
  (duration <= now - startTime a)%Z -> Qle_bool 1 (progress_at a now) = true.
Proof.
  intros H. apply Qle_bool_iff. unfold progress_at, Math_min.
  apply Q.min_glb; [|lra].
  rewrite <- rnd_1. apply (rnd_mono A L).
  unfold duration in *. apply Qle_shift_div_l; [reflexivity|].
  rewrite Qmult_1_l. rewrite <- Zle_Qle. lia.
Qed.

Lemma easeOutCubic_unit (p : Q) :
  0 <= p -> p <= 1 -> 0 <= easeOutCubic p /\ easeOutCubic p <= 1.
Proof.
  intros H0 H1. unfold easeOutCubic.
  assert (Hr : 0 <= rnd (1 - p) /\ rnd (1 - p) <= 1) by (apply rnd_unit; lra).
  destruct (pow_unit A L (rnd (1 - p)) (proj1 Hr) (proj2 Hr)) as [Hp0 Hp1].
  apply rnd_unit; lra.
Qed.

(** At [progress = 1] the easing is 1. *)
Lemma easeOutCubic_1 (p : Q) : p == 1 -> easeOutCubic p == 1.
Proof.
  intros H. unfold easeOutCubic.
  assert (H1 : rnd (1 - p) == 0).
  { transitivity (rnd 0); [apply rnd_proper; lra | apply rnd_0]. }
  transitivity (rnd 1); [apply rnd_proper | apply rnd_1].
  pose proof (pow_zero A L _ H1) as Hz. lra.
Qed.

(** The interpolated value lies between the two ends. *)
Lemma currentValue_between (a : Anim) (now : Z) :
  (Z.abs (startValue a) <= 2 ^ 52)%Z -> (Z.abs (targetValue a) <= 2 ^ 52)%Z ->
  (startTime a <= now)%Z ->
  inject_Z (Z.min (startValue a) (targetValue a)) <= currentValue a now /\
  currentValue a now <= inject_Z (Z.max (startValue a) (targetValue a)).
Proof.
  intros Hp Ht Hnow. unfold currentValue.
  destruct (easeOutCubic_unit (progress_at a now)
              (progress_nonneg a now Hnow) (progress_le_1 a now)) as [He0 He1].
  set (e := easeOutCubic (progress_at a now)) in *.
  unfold difference.
  assert (E53 : (2 ^ 53 = 2 * 2 ^ 52)%Z) by reflexivity.
  assert (Hd : (Z.abs (targetValue a - startValue a) <= 2 ^ 53)%Z) by lia.
  destruct (Z.le_ge_cases (startValue a) (targetValue a)) as [Hle|Hge].
  - rewrite Z.min_l, Z.max_r by lia.
    assert (Hd0 : 0 <= inject_Z (targetValue a - startValue a))
      by (rewrite <- (Zle_Qle 0); lia).
    assert (H0 : inject_Z 0 <= inject_Z (targetValue a - startValue a) * e)
      by (change (inject_Z 0) with 0; nra).
    assert (H1 : inject_Z (targetValue a - startValue a) * e
                 <= inject_Z (targetValue a - startValue a)) by nra.
    destruct (rnd_between 0 (targetValue a - startValue a) _ ltac:(simpl; lia) Hd H0 H1)
      as [Hr0 Hr1].
    apply rnd_between; try lia.
    + change (inject_Z 0) with 0 in Hr0. revert Hr0. generalize_atoms. lra.
    + rewrite inject_Z_sub in *. revert Hr1. generalize_atoms. lra.
  - rewrite Z.min_r, Z.max_l by lia.
    assert (H0 : inject_Z (targetValue a - startValue a) * e <= inject_Z 0).
    { assert (inject_Z (targetValue a - startValue a) <= 0)
        by (rewrite <- (Zle_Qle _ 0); lia).
      change (inject_Z 0) with 0. nra. }
    assert (H1 : inject_Z (targetValue a - startValue a)
                 <= inject_Z (targetValue a - startValue a) * e).
    { assert (inject_Z (targetValue a - startValue a) <= 0)
        by (rewrite <- (Zle_Qle _ 0); lia).
      nra. }
    destruct (rnd_between (targetValue a - startValue a) 0 _ Hd ltac:(simpl; lia) H1 H0)
      as [Hr0 Hr1].
    apply rnd_between; try lia.
    + rewrite inject_Z_sub in *. revert Hr0. generalize_atoms. lra.
    + change (inject_Z 0) with 0 in Hr1. revert Hr1. generalize_atoms. lra.
Qed.

(** At [progress = 1] the interpolated value is the target itself. *)
Lemma currentValue_final (a : Anim) (now : Z) :
  (Z.abs (targetValue a) <= 2 ^ 53)%Z -> (Z.abs (difference a) <= 2 ^ 53)%Z ->
  Qle_bool 1 (progress_at a now) = true ->
  currentValue a now == inject_Z (targetValue a).
Proof.
  intros Ht Hd Hp. apply Qle_bool_iff in Hp.
  assert (Hp1 : progress_at a now == 1)
    by (apply Qle_antisym; [apply progress_le_1|assumption]).
  unfold currentValue.
  transitivity (rnd (inject_Z (targetValue a)));
    [apply rnd_proper | apply (rnd_integer A L _ Ht)].
  assert (H : rnd (inject_Z (difference a) * easeOutCubic (progress_at a now))
              == inject_Z (difference a)).
  { transitivity (rnd (inject_Z (difference a)));
      [apply rnd_proper | apply (rnd_integer A L _ Hd)].
    pose proof (easeOutCubic_1 _ Hp1) as He. nra. }
  revert H. unfold difference. rewrite inject_Z_sub. intros H. lra.
Qed.

End Easing.

Lemma exact_arith_laws : ArithLaws exact_arith.
Proof.
  constructor; simpl.
  - intros x y H; exact H.
  - intros z _; reflexivity.
  - intros x H0 H1. simpl. split; nra.
  - intros x H. rewrite H. reflexivity.
Qed.

Section CardFacts.
Context {A : Arith}.
Variable self : nat.

Lemma find_remove_handle {T} (id id' : nat) (l : list (nat * T)) (t : T) :
  find_handle id (remove_handle id' l) = Some t -> find_handle id l = Some t.
Proof.
  induction l as [|[i x] l IH]; simpl; [easy|].
  destruct (Nat.eqb_spec i id'); simpl.
  - subst. intros H. specialize (IH H).
    destruct (Nat.eqb_spec id' id); [|exact IH].
    subst. clear -H. exfalso.
    induction l as [|[j y] l IH]; simpl in H; [discriminate|].
    destruct (Nat.eqb_spec j id); simpl in H.
    + now apply IH.
    + simpl in H. destruct (Nat.eqb_spec j id); [contradiction|now apply IH].
  - destruct (Nat.eqb_spec i id); [easy|exact IH].
Qed.

Lemma find_remove_same {T} (id : nat) (l : list (nat * T)) :
  find_handle id (remove_handle id l) = None.
Proof.
  induction l as [|[i x] l IH]; simpl; [reflexivity|].
  destruct (Nat.eqb_spec i id); simpl; [exact IH|].
  destruct (Nat.eqb_spec i id); [contradiction|exact IH].
Qed.

Lemma nothing_scheduled_refl (h : Host) : nothing_scheduled h h.
Proof. repeat split; auto. Qed.

Lemma nothing_scheduled_trans (h1 h2 h3 : Host) :
  nothing_scheduled h1 h2 -> nothing_scheduled h2 h3 -> nothing_scheduled h1 h3.
Proof.
  intros (a1 & b1 & c1 & d1) (a2 & b2 & c2 & d2).
  repeat split; try congruence; eauto.
Qed.

Lemma nothing_scheduled_cancel (id : nat) (h : Host) :
  nothing_scheduled h (cancelAnimationFrame id h).
Proof.
  repeat split; simpl; auto. intros i t. apply find_remove_handle.
Qed.

Lemma nothing_scheduled_clear (id : nat) (h : Host) :
  nothing_scheduled h (clearInterval id h).
Proof.
  repeat split; simpl; auto. intros i t. apply find_remove_handle.
Qed.

(** The cleanup cancels the frame the ref names and touches neither
    the value on display nor the flag. *)
Lemma effect_cleanup_spec (h : Host) (c : Card) :
  nothing_scheduled h (fst (effect_cleanup (h, c))) /\
  (forall id, animationRef c = Some id ->
              find_handle id (frames (fst (effect_cleanup (h, c)))) = None) /\
  timers (fst (effect_cleanup (h, c))) = timers h /\
  snd (effect_cleanup (h, c)) = set_animationRef None c.
Proof.
  unfold effect_cleanup. destruct c as [v d dv ia [id|] pv hi cp]; simpl.
  - split; [apply nothing_scheduled_cancel|]. split; [|easy].
    intros id' [= <-]. apply find_remove_same.
  - split; [apply nothing_scheduled_refl|]. easy.
Qed.

Lemma card_unmount_spec (h : Host) (c : Card) :
  nothing_scheduled h (fst (card_unmount (h, c))) /\
  (forall id, animationRef c = Some id ->
              find_handle id (frames (fst (card_unmount (h, c)))) = None) /\
  timers (fst (card_unmount (h, c))) = timers h /\
  displayValue (snd (card_unmount (h, c))) = displayValue c /\
  isAnimating (snd (card_unmount (h, c))) = isAnimating c /\
  previousValueRef (snd (card_unmount (h, c))) = previousValueRef c /\
  hasInitializedRef (snd (card_unmount (h, c))) = hasInitializedRef c.
Proof.
  unfold card_unmount, effect_cleanup.
  destruct c as [v d dv ia [id|] pv hi [|]]; simpl;
    (split; [try apply nothing_scheduled_cancel; try apply nothing_scheduled_refl|]);
    (split; [intros id' [= <-]; apply find_remove_same|easy]).
Qed.

(** [startAnimation] starts from the recorded baseline. *)
Lemma startAnimation_spec (now : Z) (h : Host) (c : Card) :
  let start := if hasInitializedRef c then previousValueRef c else 0 in
  value c <> start ->
  startAnimation self true now (h, c) =
    (snd (setTimer (StartDelay self (mkAnim start (value c) now)) h),
     setIsAnimating true c).
Proof.
  intros start Hne. unfold startAnimation. simpl.
  fold start. destruct (Z.eqb_spec (value c - start) 0); [lia|reflexivity].
Qed.

Lemma card_ok_new (v d : Z) : card_ok (new_card v d).
Proof. intros _. reflexivity. Qed.

Lemma card_ok_effect (mounted : bool) (now : Z) (h : Host) (c : Card) :
  card_ok c -> card_ok (snd (effect self mounted now (h, c))).
Proof.
  unfold card_ok, effect, startAnimation.
  destruct c as [v d dv ia ar pv hi cp]; simpl. intros Hok.
  destruct ((v =? 0) || (v =? pv)).
  - destruct (negb hi && (0 <? v)); simpl; [discriminate|exact Hok].
  - destruct ar; simpl; destruct ia; simpl; try exact Hok;
      destruct mounted; simpl; try exact Hok;
      destruct (v - (if hi then pv else 0) =? 0); simpl; exact Hok.
Qed.

Lemma card_ok_animate (mounted : bool) (a : Anim) (now : Z) (h : Host) (c : Card) :
  card_ok c -> card_ok (snd (animate self mounted a now (h, c))).
Proof.
  unfold card_ok, animate.
  destruct c as [v d dv ia ar pv hi cp]; simpl. intros Hok.
  destruct mounted; simpl; [|exact Hok].
  destruct (Qle_bool 1 (progress_at a now)); simpl; [discriminate|exact Hok].
Qed.

End CardFacts.

Section CardClaims.
Context {A : Arith}.
Variable self : nat.

(** The value a call of [animate] leaves on display is the formula's,
    also on the last frame, where the code stores the target itself. *)
Lemma animate_displays_eased_value
    (L : ArithLaws A) (a : Anim) (now : Z) (h : Host) (c : Card) :
  Z.abs (targetValue a) <= 2 ^ 53 ->
  Z.abs (difference a) <= 2 ^ 53 ->
  displayValue (snd (animate self true a now (h, c)))
  = eased_display (startValue a) (targetValue a) (now - startTime a).
Proof.
  intros Ht Hd.
  assert (E : eased_display (startValue a) (targetValue a) (now - startTime a)
              = Math_floor (currentValue a now)) by reflexivity.
  rewrite E. unfold animate. simpl.
  destruct (Qle_bool 1 (progress_at a now)) eqn:Hp; simpl; [|reflexivity].
  unfold Math_floor.
  rewrite (Qfloor_comp _ _ (currentValue_final L a now Ht Hd Hp)).
  now rewrite Qfloor_Z.
Qed.

(** C7, as the code has it. A frame of a transition from [p] to [t] on
    a mounted page, run at or after the transition's start time, leaves
    on display a value between [p] and [t] inclusive. Once 1500 ms have
    elapsed [progress >= 1] holds, and on a frame where it holds the
    value on display is exactly [t], [isAnimating] is false, no further
    frame is requested and [t] is recorded as the baseline of the card
    ([previousValueRef], with [hasInitializedRef] set). *)
Theorem animate_frame_between_and_settles
    (L : ArithLaws A) (a : Anim) (now : Z) (h : Host) (c : Card) :
  Z.abs (startValue a) <= 2 ^ 52 ->
  Z.abs (targetValue a) <= 2 ^ 52 ->
  startTime a <= now ->
  (Z.min (startValue a) (targetValue a)
     <= displayValue (snd (animate self true a now (h, c)))
     <= Z.max (startValue a) (targetValue a)) /\
  (duration <= now - startTime a -> Qle_bool 1 (progress_at a now) = true) /\
  (Qle_bool 1 (progress_at a now) = true ->
     displayValue (snd (animate self true a now (h, c))) = targetValue a /\
     isAnimating (snd (animate self true a now (h, c))) = false /\
     fst (animate self true a now (h, c)) = h /\
     previousValueRef (snd (animate self true a now (h, c))) = targetValue a /\
     hasInitializedRef (snd (animate self true a now (h, c))) = true).
Proof.
  intros Hp Ht Hnow. split; [|split].
  - unfold animate. simpl.
    destruct (Qle_bool 1 (progress_at a now)); simpl; [lia|].
    destruct (currentValue_between L a now Hp Ht Hnow) as [Hlo Hhi].
    unfold Math_floor. split.
    + rewrite <- (Qfloor_Z (Z.min _ _)). now apply Qfloor_resp_le.
    + rewrite <- (Qfloor_Z (Z.max _ _)). now apply Qfloor_resp_le.
  - apply (progress_complete L).
  - intros Hq. unfold animate. simpl. rewrite Hq. simpl.
    repeat split; reflexivity.
Qed.

End CardClaims.

(* ===================================================================== *)
(** * After the page is unmounted *)
(* ===================================================================== *)

Section Unmounted.
Context {P : Platform} {A : Arith}.

Lemma fetchStats_unmounted (skipCache : bool) (now : Z) (w : World) :
  mountedRef (view w) = false -> fetchStats skipCache now w = Normal false w.
Proof.
  intros Hm. unfold fetchStats, bind, mountedRef_current. now rewrite Hm.
Qed.

(** The continuation of a request that settles after the unmount
    writes to the console at most. *)
Lemma fetchStats_resume_unmounted (o : FetchOutcome) (now : Z) (w : World) :
  mountedRef (view w) = false ->
  exists c,
    completed (fetchStats_resume o now w)
    = mkWorld (view w) (localStorage w) c (requests w).
Proof.
  intros Hm. destruct w as [v ls c r]; simpl in Hm.
  assert (Hcatch : forall e c0,
    exists c1,
      try_finally (fun w => fetchStats_catch now e w) fetchStats_finally
        (mkWorld v ls c0 r) = Normal tt (mkWorld v ls c1 r)).
  { intros e c0. unfold try_finally.
    destruct (fetchStats_catch_unmounted now e (mkWorld v ls c0 r) Hm) as [c1 Hc].
    rewrite Hc. simpl.
    unfold fetchStats_finally, bind, mountedRef_current. simpl. rewrite Hm.
    eexists; reflexivity. }
  unfold fetchStats_resume, try_finally, try_catch, fetchStats_try_resume.
  destruct o as [e|status statusText body].
  - unfold throw.
    destruct (fetchStats_catch_unmounted now e (mkWorld v ls c r) Hm) as [c1 Hc].
    rewrite Hc. unfold fetchStats_finally, bind, mountedRef_current. simpl.
    rewrite Hm. eexists; reflexivity.
  - destruct (response_ok status).
    + destruct (JSON_parse body) as [e|data].
      * unfold throw.
        destruct (fetchStats_catch_unmounted now e (mkWorld v ls c r) Hm) as [c1 Hc].
        rewrite Hc. unfold fetchStats_finally, bind, mountedRef_current. simpl.
        rewrite Hm. eexists; reflexivity.
      * unfold bind, mountedRef_current. simpl. rewrite Hm.
        unfold ret, fetchStats_finally, bind, mountedRef_current. simpl.
        rewrite Hm. eexists; reflexivity.
    + unfold throw.
      match goal with |- context [fetchStats_catch now ?e _] =>
        destruct (fetchStats_catch_unmounted now e (mkWorld v ls c r) Hm) as [c1 Hc] end.
      rewrite Hc. unfold fetchStats_finally, bind, mountedRef_current. simpl.
      rewrite Hm. eexists; reflexivity.
Qed.

Lemma card_kept_refl (c : Card) : card_kept c c.
Proof. repeat split; auto. Qed.

Lemma card_kept_trans (c1 c2 c3 : Card) :
  card_kept c1 c2 -> card_kept c2 c3 -> card_kept c1 c3.
Proof.
  intros (a1 & b1 & d1 & e1 & f1 & g1) (a2 & b2 & d2 & e2 & f2 & g2).
  repeat split; try congruence.
  destruct g2 as [g2|g2]; [|now right].
  destruct g1 as [g1|g1]; [left|right]; congruence.
Qed.

Lemma Forall2_card_kept_refl (l : list Card) : Forall2 card_kept l l.
Proof. induction l; constructor; auto using card_kept_refl. Qed.

Lemma Forall2_card_kept_trans (l1 l2 l3 : list Card) :
  Forall2 card_kept l1 l2 -> Forall2 card_kept l2 l3 -> Forall2 card_kept l1 l3.
Proof.
  intros H12. revert l3. induction H12; intros l3 H23; inversion H23; subst;
    constructor; eauto using card_kept_trans.
Qed.

Lemma Forall2_card_kept_insert (l : list Card) (i : nat) (c c' : Card) :
  l !! i = Some c -> card_kept c c' -> Forall2 card_kept l (<[i := c']> l).
Proof.
  revert i. induction l as [|x l IH]; intros [|i] Hl Hk; simpl in *; try discriminate.
  - injection Hl as ->. constructor; [exact Hk|apply Forall2_card_kept_refl].
  - constructor; [apply card_kept_refl|]. now apply IH.
Qed.

Lemma page_kept_refl (s : System) : page_kept s s.
Proof.
  repeat split; auto using Forall2_card_kept_refl.
Qed.

Lemma page_kept_trans (s1 s2 s3 : System) :
  page_kept s1 s2 -> page_kept s2 s3 -> page_kept s1 s3.
Proof.
  intros (a1 & b1 & c1 & d1 & e1) (a2 & b2 & c2 & d2 & e2).
  split; [congruence|]. split; [congruence|]. split; [congruence|].
  split; [eapply Forall2_card_kept_trans; eauto|].
  eapply nothing_scheduled_trans; eauto.
Qed.

(** Running on an instance a function that keeps the card and
    schedules nothing keeps the page. *)
Lemma on_card_kept (i : nat) (f : Host * Card -> Host * Card) (s : System) :
  (forall h c, card_kept c (snd (f (h, c))) /\ nothing_scheduled h (fst (f (h, c)))) ->
  page_kept s (on_card i f s) /\
  world (on_card i f s) = world s /\
  live (on_card i f s) = live s /\
  in_flight (on_card i f s) = in_flight s.
Proof.
  intros Hf. unfold on_card.
  destruct (cards s !! i) as [c|] eqn:Hc; [|split; [apply page_kept_refl|easy]].
  destruct (Hf (host s) c) as [Hk Hn].
  destruct (f (host s, c)) as [h' c']; simpl in *.
  split; [|easy].
  repeat split; simpl; auto.
  - now apply (Forall2_card_kept_insert _ i c c').
  - apply Hn.
  - apply Hn.
  - apply Hn.
  - apply Hn.
Qed.

Lemma card_unmount_kept (h : Host) (c : Card) :
  card_kept c (snd (card_unmount (h, c))) /\
  nothing_scheduled h (fst (card_unmount (h, c))).
Proof.
  destruct (card_unmount_spec h c) as (Hn & _ & _ & Hd & Hi & Hp & Hh).
  split; [|exact Hn].
  unfold card_unmount, effect_cleanup.
  destruct c as [v d dv ia [id|] pv hi [|]]; simpl; repeat split; auto.
Qed.

Lemma animate_unmounted_kept (i : nat) (a : Anim) (now : Z) (h : Host) (c : Card) :
  card_kept c (snd (animate i false a now (h, c))) /\
  nothing_scheduled h (fst (animate i false a now (h, c))).
Proof.
  unfold animate. simpl. split; [|apply nothing_scheduled_refl].
  repeat split; auto.
Qed.

Lemma start_delay_unmounted_kept (i : nat) (a : Anim) (h : Host) (c : Card) :
  card_kept c (snd (start_delay_fires i false a (h, c))) /\
  nothing_scheduled h (fst (start_delay_fires i false a (h, c))).
Proof.
  unfold start_delay_fires. simpl. split; [apply card_kept_refl|apply nothing_scheduled_refl].
Qed.

Lemma unmount_cards_kept (s : System) :
  page_kept s (unmount_cards s) /\
  world (unmount_cards s) = world s /\
  timers (host (unmount_cards s)) = timers (host s).
Proof.
  unfold unmount_cards.
  assert (H : forall l s0,
             page_kept s0 (fold_left (fun s i => on_card i card_unmount s) l s0) /\
             world (fold_left (fun s i => on_card i card_unmount s) l s0) = world s0 /\
             timers (host (fold_left (fun s i => on_card i card_unmount s) l s0))
             = timers (host s0)).
  { induction l as [|i l IH]; intros s0; simpl.
    - split; [apply page_kept_refl|easy].
    - destruct (IH (on_card i card_unmount s0)) as (Hk & Hw & Ht).
      destruct (on_card_kept i card_unmount s0 card_unmount_kept) as (Hk0 & Hw0 & _).
      split; [eapply page_kept_trans; eauto|].
      split; [congruence|].
      rewrite Ht. unfold on_card.
      destruct (cards s0 !! i) as [c|]; [|reflexivity].
      destruct (card_unmount_spec (host s0) c) as (_ & _ & Htm & _).
      destruct (card_unmount (host s0, c)) as [h' c']. simpl in *. exact Htm. }
  destruct (H (live s) s) as (Hk & Hw & Ht).
  split; [|split; simpl; assumption].
  destruct Hk as (a & b & c & d & e). repeat split; simpl; auto; apply e.
Qed.

End Unmounted.

Section UnmountClaim.
Context {P : Platform} {A : Arith}.

Lemma set_mountedRef_false_view (w : World) :
  view (completed (set_mountedRef false w))
  = mkView (stats (view w)) (loading (view w)) (lastUpdated (view w))
           (error (view w)) (intervalRef (view w)) false /\
  localStorage (completed (set_mountedRef false w)) = localStorage w /\
  requests (completed (set_mountedRef false w)) = requests w.
Proof. repeat split; reflexivity. Qed.

Lemma dashboard_cleanup_unmounts (s : System) :
  is_mounted (dashboard_cleanup s) = false.
Proof.
  unfold dashboard_cleanup, is_mounted.
  match goal with |- context [unmount_cards ?s0] =>
    destruct (unmount_cards_kept s0) as (_ & Hw & _); rewrite Hw end.
  reflexivity.
Qed.

Lemma dashboard_cleanup_clears_interval (s : System) (id : nat) :
  intervalRef (view (world s)) = Some id ->
  find_handle id (timers (host (dashboard_cleanup s))) = None.
Proof.
  intros Hi. unfold dashboard_cleanup.
  match goal with |- context [unmount_cards ?s0] =>
    destruct (unmount_cards_kept s0) as (_ & _ & Ht); rewrite Ht end.
  simpl. rewrite Hi. simpl. apply find_remove_same.
Qed.

Lemma unmount_cards_cancels (s : System) (i : nat) (c : Card) (id : nat) :
  i ∈ live s -> cards s !! i = Some c -> animationRef c = Some id ->
  find_handle id (frames (host (unmount_cards s))) = None.
Proof.
  intros Hin Hc Hid. unfold unmount_cards. simpl.
  assert (Hmono : forall l s0,
             find_handle id (frames (host s0)) = None ->
             find_handle id
               (frames (host (fold_left (fun s i => on_card i card_unmount s) l s0))) = None).
  { induction l as [|j l IH]; intros s0 H0; simpl; [exact H0|].
    apply IH.
    destruct (on_card_kept j card_unmount s0 card_unmount_kept) as ((_ & _ & _ & _ & Hn) & _).
    destruct Hn as (_ & _ & _ & Hf).
    destruct (find_handle id (frames (host (on_card j card_unmount s0)))) as [t|] eqn:E;
      [|reflexivity].
    apply Hf in E. congruence. }
  revert Hin Hc. generalize (live s) as l. generalize s as s0.
  intros s0 l. revert s0.
  induction l as [|j l IH]; intros s0 Hin Hc; [now apply elem_of_nil in Hin|].
  simpl. destruct (Nat.eq_dec j i) as [->|Hne].
  - apply Hmono. unfold on_card. rewrite Hc.
    destruct (card_unmount_spec (host s0) c) as (_ & Hcancel & _).
    destruct (card_unmount (host s0, c)) as [h' c']. simpl in *.
    now apply Hcancel.
  - apply IH.
    + apply elem_of_cons in Hin. destruct Hin as [->|Hin]; [contradiction|exact Hin].
    + unfold on_card. destruct (cards s0 !! j) as [cj|]; [|exact Hc].
      destruct (card_unmount (host s0, cj)) as [h' c']. simpl.
      now rewrite list_lookup_insert_ne.
Qed.

Lemma dashboard_cleanup_cancels (s : System) (i : nat) (c : Card) (id : nat) :
  i ∈ live s -> cards s !! i = Some c -> animationRef c = Some id ->
  find_handle id (frames (host (dashboard_cleanup s))) = None.
Proof.
  intros Hin Hc Hid. unfold dashboard_cleanup.
  eapply unmount_cards_cancels; simpl; eauto.
Qed.

Lemma dashboard_cleanup_kept (s : System) :
  is_mounted s = false -> page_kept s (dashboard_cleanup s).
Proof.
  intros Hm. unfold dashboard_cleanup.
  match goal with |- page_kept _ (unmount_cards ?s0) =>
    destruct (unmount_cards_kept s0) as (Hk & _ & _);
    apply (page_kept_trans s s0); [|exact Hk] end.
  unfold is_mounted in Hm.
  split; [|split; [|split; [|split]]]; simpl.
  - destruct (world s) as [[st ld lu er ir mr] ls c r]. simpl in *. now subst mr.
  - reflexivity.
  - reflexivity.
  - apply Forall2_card_kept_refl.
  - destruct (intervalRef (view (world s)));
      [apply nothing_scheduled_clear|apply nothing_scheduled_refl].
Qed.

(** On an unmounted page every event keeps the page. *)
Lemma step_unmounted (s : System) (e : Event) :
  is_mounted s = false ->
  is_mounted (step s e) = false /\ page_kept s (step s e).
Proof.
  intros Hm. destruct e as [now|now|id now|id now|o now| |i v now]; simpl.
  - rewrite Hm. split; [exact Hm|apply page_kept_refl].
  - rewrite Hm. simpl. split; [exact Hm|apply page_kept_refl].
  - destruct (find_handle id (timers (host s))) as [[i a|]|];
      [| |split; [exact Hm|apply page_kept_refl]].
    + match goal with |- context [on_card i ?f ?s0] =>
        destruct (on_card_kept i f s0) as (Hk & Hw & _) end.
      { intros h c. rewrite Hm. apply start_delay_unmounted_kept. }
      split; [unfold is_mounted in *; rewrite Hw; exact Hm|].
      eapply page_kept_trans; [|exact Hk].
      repeat split; simpl; auto using Forall2_card_kept_refl.
      intros j t. apply find_remove_handle.
    + unfold call_fetchStats. unfold is_mounted in Hm.
      rewrite (fetchStats_unmounted true now _ Hm).
      split; [exact Hm|]. destruct s; apply page_kept_refl.
  - destruct (find_handle id (frames (host s))) as [t|];
      [|split; [exact Hm|apply page_kept_refl]].
    match goal with |- context [on_card ?i ?f ?s0] =>
      destruct (on_card_kept i f s0) as (Hk & Hw & _) end.
    { intros h c. rewrite Hm. apply animate_unmounted_kept. }
    split; [unfold is_mounted in *; rewrite Hw; exact Hm|].
    eapply page_kept_trans; [|exact Hk].
    repeat split; simpl; auto using Forall2_card_kept_refl.
    intros j t'. apply find_remove_handle.
  - destruct (in_flight s) as [|n]; [split; [exact Hm|apply page_kept_refl]|].
    unfold is_mounted in *.
    destruct (fetchStats_resume_unmounted o now (world s) Hm) as [c Hc].
    simpl. rewrite Hc. simpl. split; [exact Hm|].
    repeat split; simpl; auto using Forall2_card_kept_refl.
  - split; [apply dashboard_cleanup_unmounts|now apply dashboard_cleanup_kept].
  - rewrite Hm. simpl. split; [exact Hm|apply page_kept_refl].
Qed.

Lemma run_unmounted (es : list Event) (s : System) :
  is_mounted s = false ->
  is_mounted (run s es) = false /\ page_kept s (run s es).
Proof.
  revert s. induction es as [|e es IH]; intros s Hm; simpl.
  - split; [exact Hm|apply page_kept_refl].
  - destruct (step_unmounted s e Hm) as [Hm' Hk].
    destruct (IH (step s e) Hm') as [Hm'' Hk'].
    split; [exact Hm''|]. eapply page_kept_trans; eauto.
Qed.

(** C8, as the code has it. Unmounting the page clears the mounted
    flag, removes the refresh interval named by [intervalRef] and
    cancels, for every card on screen, the frame its [animationRef]
    names. Whatever happens afterwards (a request settles, a timer or
    a frame that is still pending fires) the view state, the store and
    the requests sent stay as they are, nothing is scheduled, and every
    card keeps its displayed value and baseline. A frame that is still
    pending (one no ref names any more) is not cancelled; when it runs
    it resets [isAnimating] of its card to false and does nothing
    else. *)
Theorem unmounted_page_is_kept (s : System) :
  is_mounted (step s Unmounted) = false /\
  (forall id, intervalRef (view (world s)) = Some id ->
              find_handle id (timers (host (step s Unmounted))) = None) /\
  (forall i c id, i ∈ live s -> cards s !! i = Some c -> animationRef c = Some id ->
                  find_handle id (frames (host (step s Unmounted))) = None) /\
  (forall es : list Event,
     page_kept (step s Unmounted) (run (step s Unmounted) es)) /\
  (forall (s' : System) (id : nat) (now : Z) (t : FrameTask) (c : Card),
     is_mounted s' = false ->
     find_handle id (frames (host s')) = Some t ->
     cards s' !! ft_card t = Some c ->
     cards (step s' (FrameFired id now)) !! ft_card t = Some (setIsAnimating false c)).
Proof.
  simpl. split; [apply dashboard_cleanup_unmounts|].
  split; [apply dashboard_cleanup_clears_interval|].
  split; [apply dashboard_cleanup_cancels|].
  split.
  - intros es. apply run_unmounted, dashboard_cleanup_unmounts.
  - intros s' id now t c Hm Hf Hc. rewrite Hf. unfold on_card. simpl.
    rewrite Hc, Hm. unfold animate. simpl.
    apply list_lookup_insert_eq. now apply lookup_lt_Some in Hc.
Qed.

End UnmountClaim.

(* ===================================================================== *)
(** * Every instance of the page has baseline 0 until it completes *)
(* ===================================================================== *)

Section CardsOk.
Context {P : Platform} {A : Arith}.

Lemma card_ok_cleanup (h : Host) (c : Card) :
  card_ok c -> card_ok (snd (effect_cleanup (h, c))).
Proof.
  unfold card_ok, effect_cleanup. destruct (animationRef c); simpl; auto.
Qed.

Lemma card_ok_unmount (h : Host) (c : Card) :
  card_ok c -> card_ok (snd (card_unmount (h, c))).
Proof.
  intros Hok. destruct (card_unmount_spec h c) as (_ & _ & _ & _ & _ & Hp & Hi).
  unfold card_ok. rewrite Hp, Hi. exact Hok.
Qed.

Lemma card_ok_start_delay (i : nat) (m : bool) (a : Anim) (h : Host) (c : Card) :
  card_ok c -> card_ok (snd (start_delay_fires i m a (h, c))).
Proof.
  unfold card_ok, start_delay_fires. destruct m; simpl; auto.
Qed.

Lemma card_ok_update (i : nat) (m : bool) (now v d : Z) (h : Host) (c : Card) :
  card_ok c -> card_ok (snd (card_update i m now v d (h, c))).
Proof.
  intros Hok. unfold card_update.
  destruct ((v =? value c) && (d =? delay c)); [exact Hok|].
  destruct (cleanupPending c).
  - pose proof (card_ok_cleanup h c Hok) as Hc.
    destruct (effect_cleanup (h, c)) as [h1 c1]. simpl in Hc.
    apply card_ok_effect. exact Hc.
  - apply card_ok_effect. exact Hok.
Qed.

Lemma on_card_ok (i : nat) (f : Host * Card -> Host * Card) (s : System) :
  (forall h c, card_ok c -> card_ok (snd (f (h, c)))) ->
  Forall card_ok (cards s) -> Forall card_ok (cards (on_card i f s)).
Proof.
  intros Hf Hs. unfold on_card.
  destruct (cards s !! i) as [c|] eqn:Hc; [|exact Hs].
  assert (Hok : card_ok c) by (eapply Forall_lookup_1; eauto).
  specialize (Hf (host s) c Hok).
  destruct (f (host s, c)) as [h' c']. simpl in *.
  now apply Forall_insert.
Qed.

Lemma unmount_cards_ok (s : System) :
  Forall card_ok (cards s) -> Forall card_ok (cards (unmount_cards s)).
Proof.
  unfold unmount_cards. simpl. generalize (live s) as l. intros l. revert s.
  induction l as [|i l IH]; intros s Hs; simpl; [exact Hs|].
  apply IH. apply on_card_ok; [|exact Hs]. intros h c. apply card_ok_unmount.
Qed.

Lemma render_ok (now : Z) (s : System) :
  Forall card_ok (cards s) -> Forall card_ok (cards (render now s)).
Proof.
  intros Hs. unfold render.
  pose proof (unmount_cards_ok s Hs) as H0.
  revert H0. generalize (unmount_cards s) as s0. generalize grid as g.
  induction g as [|cell g IH]; intros s0 H0; simpl; [exact H0|].
  apply IH. unfold mount_card, card_mount.
  pose proof (card_ok_effect (length (cards s0)) (is_mounted s0) now (host s0)
                (new_card (metric (fst cell) (stats (view (world s0)))) (snd cell))
                (card_ok_new _ _)) as Hn.
  destruct (effect _ _ _ _) as [h c]. simpl in *.
  apply Forall_app. split; [exact H0|]. constructor; [exact Hn|constructor].
Qed.

Lemma step_cards_ok (s : System) (e : Event) :
  Forall card_ok (cards s) -> Forall card_ok (cards (step s e)).
Proof.
  intros Hs. destruct e as [now|now|id now|id now|o now| |i v now]; cbn [step].
  - destruct (is_mounted s); [now apply render_ok|exact Hs].
  - destruct (is_mounted s && negb (loading (view (world s)))); [|exact Hs].
    unfold call_fetchStats. now destruct (fetchStats true now (world s)).
  - destruct (find_handle id (timers (host s))) as [[i a|]|]; [| |exact Hs].
    + apply on_card_ok; [|exact Hs]. intros h c. apply card_ok_start_delay.
    + unfold call_fetchStats. now destruct (fetchStats true now (world s)).
  - destruct (find_handle id (frames (host s))) as [t|]; [|exact Hs].
    apply on_card_ok; [|exact Hs]. intros h c. apply card_ok_animate.
  - now destruct (in_flight s).
  - unfold dashboard_cleanup.
    match goal with |- Forall card_ok (cards (unmount_cards ?s0)) =>
      apply (unmount_cards_ok s0) end. exact Hs.
  - destruct (is_mounted s && bool_decide (i ∈ live s)); [|exact Hs].
    apply on_card_ok; [|exact Hs]. intros h c. apply card_ok_update.
Qed.

(** Every instance of a page that was booted and has seen any events
    satisfies [card_ok]. *)
Lemma booted_cards_ok (ls : Storage) (now : Z) (es : list Event) :
  Forall card_ok (cards (run (boot ls now) es)).
Proof.
  assert (H0 : Forall card_ok (cards (boot ls now))).
  { unfold boot, dashboard_effect.
    match goal with |- context [render now ?s0] =>
      pose proof (render_ok now s0 (Forall_nil_2 _)) as Hr;
      generalize dependent (render now s0) end.
    intros s0 Hr.
    destruct (loadCachedData now _) as [b w|e w]; simpl; [|exact Hr].
    unfold call_fetchStats. destruct (fetchStats (negb b) now _); simpl; exact Hr. }
  revert H0. generalize (boot ls now) as s. induction es as [|e es IH]; intros s Hs; simpl.
  - exact Hs.
  - apply IH. now apply step_cards_ok.
Qed.

End CardsOk.

(* ===================================================================== *)
(** * The page on the sample browser *)
(* ===================================================================== *)

(** C8 as stated fails. The page is unmounted while a frame is pending
    that no [animationRef] of a card on screen names, so the frame is
    not cancelled; when it fires, [animate] finds the flag cleared and
    calls [setIsAnimating(false)] on its card.
    Such a frame is left by a card that a render replaced while its
    delayed start was pending ([Page.left_early]): the timer is never
    cancelled and starts the animation of the replaced card. It is left
    as well when React keeps the instance and the target changes twice
    ([Page.left_early_kept]): the second run of the effect clears
    [animationRef] with [clearInterval], which does not cancel a frame. *)
Lemma frame_fires_after_unmount :
  (is_mounted Page.left_early = false /\
   find_handle 2 (frames (host Page.left_early))
   = Some (mkFrameTask 7 (mkAnim 0 58210 (Page.t0 + 5))) /\
   isAnimating <$> cards Page.left_early !! 7%nat = Some true /\
   isAnimating <$> cards (Page.events Page.left_early [FrameFired 2 (Page.t0 + 340)]) !! 7%nat
   = Some false) /\
  (is_mounted Page.left_early_kept = false /\
   find_handle 1 (frames (host Page.left_early_kept))
   = Some (mkFrameTask 7 (mkAnim 0 58210 (Page.t0 + 5))) /\
   isAnimating <$> cards Page.left_early_kept !! 7%nat = Some true /\
   isAnimating <$> cards (Page.events Page.left_early_kept [FrameFired 1 (Page.t0 + 340)])
                     !! 7%nat
   = Some false).
Proof. repeat split; vm_compute; reflexivity. Qed.

Lemma frame_between_witness :
  Z.min 0 1000
    <= displayValue (snd (@animate binary64 0 true (mkAnim 0 1000 Page.t0) (Page.t0 + 750)
                            (initial_host, new_card 1000 0)))
    <= Z.max 0 1000.
Proof.
  apply (@animate_frame_between_and_settles binary64 0%nat binary64_laws
           (mkAnim 0 1000 Page.t0) (Page.t0 + 750) initial_host (new_card 1000 0)).
  - vm_compute. discriminate.
  - vm_compute. discriminate.
  - vm_compute. discriminate.
Defined.

Lemma unmounted_page_witness :
  is_mounted (@step Browser.platform binary64 Page.halfway Unmounted) = false /\
  find_handle 1 (timers (host (@step Browser.platform binary64 Page.halfway Unmounted))) = None /\
  find_handle 2 (frames (host (@step Browser.platform binary64 Page.halfway Unmounted))) = None.
Proof.
  destruct (@unmounted_page_is_kept Browser.platform binary64 Page.halfway)
    as (H1 & H2 & H3 & _).
  split; [exact H1|]. split.
  - apply H2. vm_compute. reflexivity.
  - apply (H3 4%nat (mkCard 1200 0 1050 true (Some 2%nat) 0 false true)).
    + vm_compute. constructor.
    + vm_compute. reflexivity.
    + reflexivity.
Defined.

(* ===================================================================== *)
(** * Further properties *)
(* ===================================================================== *)

Section NeverFatal.
Context {P : Platform}.

(** [fetchStats] never throws, before or after its [await]: whatever the
    store, the view and the response are, the promise it returns is not
    rejected. *)
Theorem fetchStats_always_completes :
  (forall (skipCache : bool) (now : Z) (w : World),
     exists b w', fetchStats skipCache now w = Normal b w') /\
  (forall (o : FetchOutcome) (now : Z) (w : World),
     exists w', fetchStats_resume o now w = Normal tt w').
Proof.
  assert (Hcatch : forall now e w, exists w', fetchStats_catch now e w = Normal tt w').
  { intros now e w. destruct (mountedRef (view w)) eqn:Hm.
    - destruct (fetchStats_catch_spec now e w Hm) as [c H]. eauto.
    - destruct (fetchStats_catch_unmounted now e w Hm) as [c H]. eauto. }
  assert (Hfin : forall w, exists w', fetchStats_finally w = Normal tt w').
  { intros w. unfold fetchStats_finally, bind, mountedRef_current.
    destruct (mountedRef (view w)); eexists; reflexivity. }
  split.
  - intros skipCache now w.
    destruct (mountedRef (view w)) eqn:Hm;
      [|rewrite (fetchStats_unmounted skipCache now w Hm); eauto].
    unfold fetchStats, bind at 1, mountedRef_current. rewrite Hm. simpl.
    unfold bind at 1, setLoading, modify_view. unfold bind at 1, setError, modify_view.
    set (w1 := mkWorld _ _ _ _).
    assert (Htry : exists s w', try_catch (fetchStats_try skipCache now)
                     (fun e => fetchStats_catch now e ;;; ret Returned) w1 = Normal s w').
    { unfold try_catch. destruct (fetchStats_try skipCache now w1) as [s w'|e w'] eqn:E.
      - eauto.
      - unfold bind. destruct (Hcatch now e w') as [w'' H]. rewrite H.
        unfold ret. eauto. }
    destruct Htry as (s & w' & Ht). rewrite Ht. destruct s as [|r].
    + unfold bind. destruct (Hfin w') as [w'' H]. rewrite H. unfold ret. eauto.
    + unfold bind, send, ret. eauto.
  - intros o now w. unfold fetchStats_resume, try_finally, try_catch.
    destruct (fetchStats_try_resume o now w) as [[] w'|e w'].
    + destruct (Hfin w') as [w'' H]. rewrite H. eauto.
    + destruct (Hcatch now e w') as [w'' H]. rewrite H.
      destruct (Hfin w'') as [w3 H3]. rewrite H3. eauto.
Qed.

End NeverFatal.

Lemma blocked_store_witness :
  exists w',
    @fetchStats Browser.platform true Page.t0
        (Browser.world_showing initial_stats Page.t0 Browser.blocked_storage)
      = Normal false w' /\
    requests w' = [] /\
    error (view w') = Some "The operation is insecure." /\
    loading (view w') = false /\
    stats (view w') = initial_stats.
Proof.
  apply (@blocked_store_refresh_sends_nothing Browser.platform true Page.t0
           (Browser.world_showing initial_stats Page.t0 Browser.blocked_storage));
    reflexivity.
Defined.

(** The formula over the rationals is the formula in exact arithmetic. *)
Lemma exact_display_eq (p t e : Z) : exact_display p t e = @eased_display exact_arith p t e.
Proof. reflexivity. Qed.

(** In binary64 the card shows 270 when 150 ms of a transition from 0 to
    1000 have elapsed, one less than the formula gives over the
    rationals; at 750 ms the two agree on 875. *)
Theorem binary64_one_below_exact_at_150ms :
  @eased_display binary64 0 1000 150 = 270 /\
  exact_display 0 1000 150 = 271 /\
  displayValue (snd (@animate binary64 0 true (mkAnim 0 1000 Page.t0) (Page.t0 + 150)
                       (initial_host, new_card 1000 0))) = 270 /\
  @eased_display binary64 0 1000 750 = exact_display 0 1000 750.
Proof. repeat split; vm_compute; reflexivity. Qed.

(** [Math.min] bounds [progress] from above only. A frame that reads a
    clock 1500 ms behind the start time of a transition from 0 to 1000
    puts -7000 on display. *)
Theorem clock_stepping_back_leaves_the_range :
  displayValue (snd (@animate binary64 0 true (mkAnim 0 1000 Page.t0) (Page.t0 - 1500)
                       (initial_host, new_card 1000 0))) = -7000.
Proof. vm_compute. reflexivity. Qed.

(** Activation two minutes after [snapshot] was cached: the snapshot is
    on the view at once, no request was sent, there is no error and the
    loading flag is down; the render that follows schedules the four
    count-ups from 0. *)
Theorem activation_with_fresh_cache :
  stats (view (world Page.booted)) = Browser.snapshot /\
  requests (world Page.booted) = [] /\
  in_flight Page.booted = 0%nat /\
  error (view (world Page.booted)) = None /\
  loading (view (world Page.booted)) = false /\
  List.map snd (timers (host (Page.events Page.booted [Rendered (Page.t0 + 5)])))
  = [AutoRefresh;
     StartDelay 4 (mkAnim 0 1200 (Page.t0 + 5)); StartDelay 5 (mkAnim 0 34 (Page.t0 + 5));
     StartDelay 6 (mkAnim 0 29 (Page.t0 + 5)); StartDelay 7 (mkAnim 0 58210 (Page.t0 + 5))].
Proof. repeat split; vm_compute; reflexivity. Qed.

(** Activation with an empty cache and a server answering 500: one
    request goes out, the zero snapshot stays on the view with the error
    HTTP 500. A manual refresh that succeeds clears the error, shows the
    received snapshot and caches it. *)
Theorem failed_activation_then_manual_refresh :
  length (requests (world (@boot Browser.platform Browser.empty_storage Page.t0))) = 1%nat /\
  view (world (Page.events (@boot Browser.platform Browser.empty_storage Page.t0)
                 [FetchSettled Browser.server_error (Page.t0 + 80)]))
  = mkView initial_stats false Page.t0 (Some "HTTP 500: Internal Server Error")
           (Some 1%nat) true /\
  view (world (Page.events (@boot Browser.platform Browser.empty_storage Page.t0)
                 [FetchSettled Browser.server_error (Page.t0 + 80);
                  Clicked (Page.t0 + 5000);
                  FetchSettled (Browser.ok_response Browser.snapshot) (Page.t0 + 5090)]))
  = mkView Browser.snapshot false (Page.t0 + 5090) None (Some 1%nat) true /\
  @fresh_cache Browser.platform (Page.t0 + 6000)
    (localStorage (world (Page.events (@boot Browser.platform Browser.empty_storage Page.t0)
                 [FetchSettled Browser.server_error (Page.t0 + 80);
                  Clicked (Page.t0 + 5000);
                  FetchSettled (Browser.ok_response Browser.snapshot) (Page.t0 + 5090)])))
  = Some (Browser.snapshot, Page.t0 + 5090).
Proof. repeat split; vm_compute; reflexivity. Qed.

(* ===================================================================== *)
(** * Integer division in binary64 *)
(* ===================================================================== *)

Section Binary64Division.
Local Open Scope Q_scope.

Lemma rnd64_dyadic (m e : Z) :
  (0 < m < 2 ^ 53)%Z -> (-1074 <= e)%Z ->
  rnd64 (inject_Z m * 2 ^ e) == inject_Z m * 2 ^ e.
Proof.
  intros [Hm Hm53] He.
  assert (Hq : 0 < inject_Z m) by (change 0 with (inject_Z 0); rewrite <- Zlt_Qlt; lia).
  pose proof (two_pow_pos e) as Hp.
  assert (Ha : 0 < inject_Z m * 2 ^ e) by nra.
  rewrite (rnd64_pos _ Ha).
  destruct (Z.log2_spec m Hm) as [L1 L2].
  pose proof (Z.log2_nonneg m) as L0.
  assert (L53 : (Z.log2 m < 53)%Z) by (apply Z.log2_lt_pow2; lia).
  assert (Hi : ilog2 (inject_Z m * 2 ^ e) = (Z.log2 m + e)%Z).
  { apply ilog2_unique; [exact Ha| |].
    - rewrite two_pow_add. apply Qmult_le_compat_r; [|lra].
      rewrite <- two_pow_Z by lia. now rewrite <- Zle_Qle.
    - replace (Z.log2 m + e + 1)%Z with ((Z.log2 m + 1) + e)%Z by lia.
      rewrite two_pow_add. apply Qmult_lt_compat_r; [exact Hp|].
      rewrite <- two_pow_Z by lia. rewrite <- Zlt_Qlt. lia. }
  set (r := rexp (inject_Z m * 2 ^ e)).
  assert (Hr : (r <= e)%Z) by (unfold r, rexp; rewrite Hi; lia).
  apply (rpos_exact _ (m * 2 ^ (e - r))). fold r.
  rewrite inject_Z_mult, two_pow_Z by lia.
  rewrite <- Qmult_assoc, <- two_pow_add.
  replace (e - r + r)%Z with e by lia. reflexivity.
Qed.

Lemma Qfloor_unique (y : Q) (k : Z) :
  inject_Z k <= y -> y < inject_Z (k + 1) -> Qfloor y = k.
Proof.
  intros H1 H2.
  pose proof (Qfloor_resp_le _ _ H1) as F1. rewrite Qfloor_Z in F1.
  pose proof (Qfloor_le y) as F2.
  assert (F3 : inject_Z (Qfloor y) < inject_Z (k + 1)) by (eapply Qle_lt_trans; eassumption).
  rewrite <- Zlt_Qlt in F3. lia.
Qed.

(** The quotient of two integers, rounded and floored, is their integer
    quotient, as long as the divisor is below 2 ^ j and the quotient
    leaves j bits of the significand free. *)
Lemma floor_rnd64_div (x c j : Z) :
  (0 <= x)%Z -> (0 < c <= 2 ^ j)%Z -> (0 < j)%Z -> ((x / c + 1) * 2 ^ j <= 2 ^ 53)%Z ->
  Qfloor (rnd64 (inject_Z x / inject_Z c)) = (x / c)%Z.
Proof.
  intros Hx [Hc Hcj] Hj Hk.
  set (k := (x / c)%Z) in *.
  assert (Hk0 : (0 <= k)%Z) by (apply Z.div_pos; lia).
  assert (Hkc : (k * c <= x < k * c + c)%Z).
  { unfold k. pose proof (Z.mul_div_le x c Hc). pose proof (Z.mul_succ_div_gt x c Hc). lia. }
  assert (Hpj : (0 < 2 ^ j)%Z) by (apply Z.pow_pos_nonneg; lia).
  assert (Qc : 0 < inject_Z c) by (change 0 with (inject_Z 0); rewrite <- Zlt_Qlt; lia).
  assert (Hk53 : (Z.abs k <= 2 ^ 53)%Z) by nia.
  apply Qfloor_unique.
  - rewrite <- (rnd64_integer k Hk53). apply rnd64_mono.
    apply Qle_shift_div_l; [exact Qc|]. rewrite <- inject_Z_mult, <- Zle_Qle. lia.
  - set (m := ((k + 1) * 2 ^ j - 1)%Z).
    assert (Hm : (0 < m < 2 ^ 53)%Z).
    { unfold m. assert (2 <= 2 ^ j)%Z by (change 2%Z with (2 ^ 1)%Z at 1; apply Z.pow_le_mono_r; lia). nia. }
    assert (Hj53 : (j <= 53)%Z).
    { apply (Z.pow_le_mono_r_iff 2); [lia|lia|]. nia. }
    assert (EP : 2 ^ (- j) == / inject_Z (2 ^ j)).
    { rewrite Qpower_opp. rewrite two_pow_Z by lia. reflexivity. }
    assert (QP : 0 < inject_Z (2 ^ j)) by (change 0 with (inject_Z 0); rewrite <- Zlt_Qlt; lia).
    assert (Em : inject_Z m == inject_Z (k + 1) * inject_Z (2 ^ j) - 1).
    { unfold m. rewrite inject_Z_sub, inject_Z_mult. reflexivity. }
    assert (Ed : inject_Z m * 2 ^ (- j) == inject_Z (k + 1) - / inject_Z (2 ^ j)).
    { rewrite EP, Em. field. lra. }
    assert (IP : 0 < / inject_Z (2 ^ j)) by (apply Qinv_lt_0_compat; exact QP).
    apply Qle_lt_trans with (inject_Z m * 2 ^ (- j)).
    + rewrite <- (rnd64_dyadic m (- j) Hm) by lia.
      apply rnd64_mono.
      apply Qle_shift_div_r; [exact Qc|].
      rewrite Ed.
      assert (Hx1 : inject_Z x <= inject_Z (k + 1) * inject_Z c - 1).
      { rewrite <- inject_Z_mult. change 1 with (inject_Z 1). rewrite <- inject_Z_sub.
        rewrite <- Zle_Qle. lia. }
      assert (Hc1 : / inject_Z (2 ^ j) * inject_Z c <= 1).
      { apply Qle_trans with (/ inject_Z (2 ^ j) * inject_Z (2 ^ j)).
        - apply Qmult_le_l; [exact IP|]. rewrite <- Zle_Qle. exact Hcj.
        - rewrite Qmult_comm, Qmult_inv_r by lra. apply Qle_refl. }
      revert Hx1 Hc1. generalize (inject_Z x) (inject_Z (k + 1)) (inject_Z c) (/ inject_Z (2 ^ j)).
      intros. lra.
    + rewrite Ed. lra.
Qed.
End Binary64Division.

Lemma rnd64_eq (x y : Q) : (x == y)%Q -> rnd64 x = rnd64 y.
Proof.
  intros H. unfold rnd64. now rewrite (Qred_complete _ _ H).
Qed.

Lemma floor_rnd64_neg (x c : Z) :
  x < 0 -> 0 < c -> Qfloor (rnd64 (inject_Z x / inject_Z c)) <= 0.
Proof.
  intros Hx Hc.
  assert (Qc : (0 < inject_Z c)%Q) by (change 0%Q with (inject_Z 0); rewrite <- Zlt_Qlt; lia).
  assert (H : (rnd64 (inject_Z x / inject_Z c) <= 0)%Q).
  { rewrite <- (rnd64_zero 0) by reflexivity. apply rnd64_mono.
    apply Qle_shift_div_r; [exact Qc|]. rewrite Qmult_0_l.
    change 0%Q with (inject_Z 0). rewrite <- Zle_Qle. lia. }
  apply Qfloor_resp_le in H. exact H.
Qed.

(** The age shown in the footer. In binary64 the two divisions of
    [formatTimeAgo] are exact on every pair of times a clock can give
    (2 ^ 51 ms is some 70000 years): the label is the age in whole
    minutes, hours or days, rounded down, and Just now for an age below
    one minute, a date in the future included. The hours and the days
    are those of the whole minutes, which are those of the age itself. *)
Theorem formatTimeAgo_buckets (now date : Z) :
  Z.abs now <= 2 ^ 51 -> Z.abs date <= 2 ^ 51 ->
  @formatTimeAgo binary64 now date =
    let age := now - date in
    if age <? 60000 then "Just now"
    else if age <? 3600000 then pretty (age / 60000) +:+ "m ago"
    else if age <? 86400000 then pretty (age / 3600000) +:+ "h ago"
    else pretty (age / 86400000) +:+ "d ago".
Proof.
  intros Hn Hd. unfold formatTimeAgo. cbn [rnd binary64]. unfold Math_floor.
  cbv zeta.
  assert (Hs : (rnd64 (inject_Z now - inject_Z date) == inject_Z (now - date))%Q).
  { rewrite <- inject_Z_sub. apply rnd64_integer. lia. }
  rewrite (rnd64_eq _ (inject_Z (now - date) / inject_Z (1000 * 60)))
    by (rewrite Hs; reflexivity).
  set (age := now - date).
  assert (Ha : Z.abs age <= 2 ^ 52) by (unfold age; lia).
  change (1000 * 60) with 60000.
  destruct (Z.ltb_spec age 60000) as [H1|H1].
  - destruct (Z_lt_le_dec age 0) as [Hneg|Hpos].
    + pose proof (floor_rnd64_neg age 60000 Hneg ltac:(lia)) as F.
      destruct (Z.ltb_spec (Qfloor (rnd64 (inject_Z age / inject_Z 60000))) 1); [reflexivity|lia].
    + rewrite (floor_rnd64_div age 60000 16) by (try lia; rewrite Z.div_small by lia; lia).
      rewrite Z.div_small by lia. reflexivity.
  - assert (Hdiv : 1 <= age / 60000 <= 2 ^ 37 - 1) by (split; [apply Z.div_le_lower_bound; lia|apply Z.div_le_upper_bound; lia]).
    rewrite (floor_rnd64_div age 60000 16) by lia.
    set (m := age / 60000) in *.
    destruct (Z.ltb_spec m 1) as [|_]; [lia|].
    assert (E60 : m / 60 = age / 3600000) by (unfold m; rewrite Z.div_div by lia; reflexivity).
    assert (E1440 : m / 1440 = age / 86400000) by (unfold m; rewrite Z.div_div by lia; reflexivity).
    destruct (Z.ltb_spec age 3600000) as [H2|H2].
    + destruct (Z.ltb_spec m 60) as [|C]; [reflexivity|].
      exfalso. clear E60 E1440 Hdiv. unfold m in C. clear m. Z.to_euclidean_division_equations; lia.
    + destruct (Z.ltb_spec m 60) as [C|_].
      { exfalso. clear E60 E1440 Hdiv. unfold m in C. clear m. Z.to_euclidean_division_equations; lia. }
      destruct (Z.ltb_spec age 86400000) as [H3|H3].
      * destruct (Z.ltb_spec m 1440) as [C|C].
        -- change (inject_Z m / 60)%Q with (inject_Z m / inject_Z 60)%Q.
           rewrite (floor_rnd64_div m 60 6); [now rewrite E60|lia|lia|lia|].
           assert (m / 60 <= 24) by (apply Z.div_le_upper_bound; lia). lia.
        -- exfalso. clear E60 E1440 Hdiv. unfold m in C. clear m. Z.to_euclidean_division_equations; lia.
      * destruct (Z.ltb_spec m 1440) as [C|C].
        { exfalso. clear E60 E1440 Hdiv. unfold m in C. clear m. Z.to_euclidean_division_equations; lia. }
        change (inject_Z m / 1440)%Q with (inject_Z m / inject_Z 1440)%Q.
        rewrite (floor_rnd64_div m 1440 11); [now rewrite E1440|lia|lia|lia|].
        assert (m / 1440 <= 2 ^ 36) by (apply Z.div_le_upper_bound; lia). lia.
Qed.

(* ===================================================================== *)
(** * The cache manager, call by call *)
(* ===================================================================== *)

Section CacheManagerCalls.
Context {P : Platform}.

(** The synchronous part of [fetchStats] on a mounted view, in its three
    outcomes: the fresh entry is served; the read of the token throws;
    the request goes out. *)
Lemma fetchStats_mounted (skipCache : bool) (now : Z) (w : World) :
  mountedRef (view w) = true ->
  exists c,
    fetchStats skipCache now w =
      match (if skipCache then None else fresh_cache now (localStorage w)) with
      | Some (cached, ts) =>
          Normal false
            (mkWorld (mkView cached false ts None (intervalRef (view w)) true)
                     (localStorage w) c (requests w))
      | None =>
          if ls_blocked (localStorage w) then
            Normal false
              (mkWorld (mkView (stats (view w)) false (lastUpdated (view w))
                               (Some (err_message SecurityError))
                               (intervalRef (view w)) true)
                       (localStorage w) c (requests w))
          else
            Normal true
              (mkWorld (mkView (stats (view w)) true (lastUpdated (view w)) None
                               (intervalRef (view w)) true)
                       (localStorage w) c
                       (mkRequest "https://server.dllm.chat/dashboard-stats"
                                  (bearer (ls_items (localStorage w) !! "token"))
                                  "application/json" :: requests w))
      end.
Proof.
  intros Hm.
  destruct w as [[st ld lu er ir mr] ls c r]; simpl in *; subst mr.
  unfold fetchStats, bind, mountedRef_current, setLoading, setError, modify_view,
    try_catch, fetchStats_try; simpl.
  assert (Hblocked : ls_blocked ls = true -> fresh_cache now ls = None)
    by (intros Hb; unfold fresh_cache; now rewrite Hb).
  destruct skipCache; simpl.
  - unfold bind, localStorage_getItem, storage_getItem; simpl.
    destruct (ls_blocked ls) eqn:Hb; simpl.
    + destruct (fetchStats_catch_spec now SecurityError
                  (mkWorld (mkView st true lu None ir true) ls c r) eq_refl) as [c1 Hc1].
      rewrite Hc1. simpl. rewrite (Hblocked eq_refl). simpl.
      unfold fetchStats_finally, bind, mountedRef_current, setLoading, modify_view, ret.
      simpl. eexists; reflexivity.
    + unfold ret, send; simpl. eexists; reflexivity.
  - unfold bind at 1.
    match goal with |- context [loadCachedData now ?w0] =>
      destruct (loadCachedData_spec now w0) as [c' Hl]; rewrite Hl end.
    simpl.
    destruct (fresh_cache now ls) as [[cached ts]|] eqn:Hf; simpl.
    + unfold fetchStats_finally, bind, mountedRef_current, setLoading, modify_view, ret;
        simpl. eexists; reflexivity.
    + unfold bind, localStorage_getItem, storage_getItem; simpl.
      destruct (ls_blocked ls) eqn:Hb; simpl.
      * destruct (fetchStats_catch_spec now SecurityError
                    (mkWorld (mkView st true lu None ir true) ls c' r) eq_refl) as [c1 Hc1].
        rewrite Hc1. simpl. rewrite Hf. simpl.
        unfold fetchStats_finally, bind, mountedRef_current, setLoading, modify_view, ret.
        simpl. eexists; reflexivity.
      * unfold ret, send; simpl. eexists; reflexivity.
Qed.

(** [saveToCache] stops at the first write that throws. *)
Lemma saveToCache_outcome (data : json) (t : Z) (w : World) :
  exists c,
    saveToCache data t w =
      Normal tt
        (mkWorld (view w)
           (match storage_setItem CACHE_KEYS.STATS (JSON_stringify data) (localStorage w) with
            | inl _ => localStorage w
            | inr ls1 =>
                match storage_setItem CACHE_KEYS.LAST_UPDATED (Date_toISOString t) ls1 with
                | inl _ => ls1
                | inr ls2 => ls2
                end
            end) c (requests w)).
Proof.
  destruct w as [v ls c r].
  unfold saveToCache, try_catch, bind, localStorage_setItem, console_log; simpl.
  destruct (storage_setItem CACHE_KEYS.STATS (JSON_stringify data) ls) as [e|ls1];
    simpl; [eexists; reflexivity|].
  destruct (storage_setItem CACHE_KEYS.LAST_UPDATED (Date_toISOString t) ls1) as [e|ls2];
    simpl; eexists; reflexivity.
Qed.

(** Every outcome of the request either fails with a message or is a
    2xx response whose body parses. *)
Lemma outcome_cases (o : FetchOutcome) :
  (exists msg, Fails o msg) \/
  (exists status statusText body data,
     o = Response status statusText body /\
     response_ok status = true /\ JSON_parse body = inr data).
Proof.
  destruct o as [e|status statusText body].
  - left. eexists. constructor.
  - destruct (response_ok status) eqn:Hok.
    + destruct (JSON_parse body) as [e|data] eqn:Hp.
      * left. eexists. eapply fails_parse; eassumption.
      * right. do 4 eexists. repeat split; eassumption.
    + left. eexists. apply fails_status. exact Hok.
Qed.

Lemma fetchStats_resume_failed (o : FetchOutcome) (msg : string) (now : Z) (w : World) :
  mountedRef (view w) = true ->
  Fails o msg ->
  exists c,
    fetchStats_resume o now w =
      Normal tt
        (mkWorld
           (show_cached (fresh_cache now (localStorage w))
              (mkView (stats (view w)) false (lastUpdated (view w)) (Some msg)
                      (intervalRef (view w)) true))
           (localStorage w) c (requests w)).
Proof.
  intros Hm Hf.
  destruct (fails_throws o msg now w Hf) as [e [He Hmsg]].
  destruct (fetchStats_catch_spec now e w Hm) as [c Hc].
  unfold fetchStats_resume, try_finally, try_catch. rewrite He, Hc.
  unfold fetchStats_finally, bind, mountedRef_current, setLoading, modify_view, ret.
  simpl. rewrite Hmsg.
  destruct (fresh_cache now (localStorage w)) as [[cached ts]|]; simpl;
    eexists; reflexivity.
Qed.

Lemma fetchStats_resume_ok
    (status : Z) (statusText body : string) (data : json) (now : Z) (w : World) :
  mountedRef (view w) = true ->
  response_ok status = true ->
  JSON_parse body = inr data ->
  exists c,
    fetchStats_resume (Response status statusText body) now w =
      Normal tt
        (mkWorld
           (mkView data false now (error (view w)) (intervalRef (view w)) true)
           (match storage_setItem CACHE_KEYS.STATS (JSON_stringify data) (localStorage w) with
            | inl _ => localStorage w
            | inr ls1 =>
                match storage_setItem CACHE_KEYS.LAST_UPDATED (Date_toISOString now) ls1 with
                | inl _ => ls1
                | inr ls2 => ls2
                end
            end) c (requests w)).
Proof.
  intros Hm Hok Hp.
  destruct w as [[st ld lu er ir mr] ls c r]; simpl in *; subst mr.
  unfold fetchStats_resume, try_finally, try_catch, fetchStats_try_resume.
  rewrite Hok, Hp.
  unfold bind at 1. unfold mountedRef_current at 1. simpl.
  unfold bind at 1. unfold setStats at 1, modify_view at 1. simpl.
  unfold bind at 1. unfold setLastUpdated at 1, modify_view at 1. simpl.
  match goal with |- context [saveToCache data now ?w0] =>
    destruct (saveToCache_outcome data now w0) as [c1 Hs]; rewrite Hs end.
  simpl.
  unfold fetchStats_finally, bind, mountedRef_current, setLoading, modify_view, ret.
  simpl. eexists; reflexivity.
Qed.

Lemma storage_setItem_inr (k v : string) (ls ls' : Storage) :
  storage_setItem k v ls = inr ls' ->
  ls' = mkStorage (<[k := v]> (ls_items ls)) (ls_blocked ls) (ls_quota ls).
Proof.
  unfold storage_setItem. destruct (ls_blocked ls); [discriminate|].
  destruct (Z.of_nat (storage_size (<[k := v]> (ls_items ls))) <=? ls_quota ls);
    [|discriminate].
  now intros [= <-].
Qed.

Lemma storage_setItem_fits (k v : string) (ls : Storage) :
  ls_blocked ls = false ->
  Z.of_nat (storage_size (<[k := v]> (ls_items ls))) <= ls_quota ls ->
  storage_setItem k v ls = inr (mkStorage (<[k := v]> (ls_items ls)) false (ls_quota ls)).
Proof.
  intros Hb Hq. unfold storage_setItem. rewrite Hb.
  destruct (Z.leb_spec (Z.of_nat (storage_size (<[k := v]> (ls_items ls)))) (ls_quota ls));
    [reflexivity|lia].
Qed.

(** [saveToCache] never throws and writes the snapshot first: afterwards
    the store is as it was, or holds the new snapshot under the
    timestamp it had, or holds the new snapshot and the new timestamp.
    A timestamp is never stored without its snapshot, and no other key
    of the store (the session token among them) is touched. *)
Theorem saveToCache_snapshot_before_timestamp (data : json) (t : Z) (w : World) :
  exists w',
    saveToCache data t w = Normal tt w' /\
    view w' = view w /\
    requests w' = requests w /\
    ls_blocked (localStorage w') = ls_blocked (localStorage w) /\
    ls_quota (localStorage w') = ls_quota (localStorage w) /\
    (ls_items (localStorage w') = ls_items (localStorage w) \/
     ls_items (localStorage w')
       = <[CACHE_KEYS.STATS := JSON_stringify data]> (ls_items (localStorage w)) \/
     ls_items (localStorage w')
       = <[CACHE_KEYS.LAST_UPDATED := Date_toISOString t]>
           (<[CACHE_KEYS.STATS := JSON_stringify data]> (ls_items (localStorage w)))) /\
    (forall k : string,
       k <> CACHE_KEYS.STATS -> k <> CACHE_KEYS.LAST_UPDATED ->
       ls_items (localStorage w') !! k = ls_items (localStorage w) !! k).
Proof.
  destruct (saveToCache_outcome data t w) as [c H].
  eexists. split; [exact H|]. cbn [view requests localStorage].
  destruct (storage_setItem CACHE_KEYS.STATS (JSON_stringify data) (localStorage w))
    as [e|ls1] eqn:H1.
  { repeat split; auto. }
  apply storage_setItem_inr in H1.
  destruct (storage_setItem CACHE_KEYS.LAST_UPDATED (Date_toISOString t) ls1)
    as [e|ls2] eqn:H2.
  - subst ls1. cbn [ls_items ls_blocked ls_quota]. repeat split; auto.
    intros k K1 K2. now rewrite lookup_insert_ne.
  - apply storage_setItem_inr in H2. subst ls2 ls1. cbn [ls_items ls_blocked ls_quota].
    repeat split; auto.
    intros k K1 K2. now rewrite !lookup_insert_ne.
Qed.

(** The store after both writes of [saveToCache], and what
    [loadCachedData] finds in it when the platform reads back what it
    wrote. *)
Lemma saved_store_fresh (data : json) (t now : Z) (ls : Storage) :
  ls_blocked ls = false ->
  JSON_stringify data <> "" ->
  Date_toISOString t <> "" ->
  JSON_parse (JSON_stringify data) = inr data ->
  Date_parse (Date_toISOString t) = Some t ->
  fresh_cache now
    (mkStorage (<[CACHE_KEYS.LAST_UPDATED := Date_toISOString t]>
                  (<[CACHE_KEYS.STATS := JSON_stringify data]> (ls_items ls)))
               false (ls_quota ls))
  = if now - t <? ten_minutes then Some (data, t) else None.
Proof.
  intros Hb Hs Hd Hp Hdp. unfold fresh_cache. cbn [ls_blocked ls_items].
  rewrite lookup_insert_ne by discriminate.
  rewrite !lookup_insert_eq.
  apply String.eqb_neq in Hs, Hd. rewrite Hs, Hd, Hp, Hdp. cbn [negb andb].
  destruct (Z.ltb_spec (now - ten_minutes) t), (Z.ltb_spec (now - t) ten_minutes);
    try reflexivity; lia.
Qed.

(** What was saved is what is loaded, for ten minutes. When the store
    takes both writes and the platform reads back what it wrote (the
    snapshot's text parses to the snapshot, the timestamp's text to the
    timestamp), [loadCachedData] run on that store at time [now]
    returns [true] exactly when [now - t] is below ten minutes, and then
    shows the saved snapshot with the time it was saved at; otherwise it
    leaves the view alone. *)
Theorem saved_entry_served_for_ten_minutes (data : json) (t : Z) (w : World) :
  ls_blocked (localStorage w) = false ->
  Z.of_nat (storage_size (<[CACHE_KEYS.STATS := JSON_stringify data]>
                            (ls_items (localStorage w))))
    <= ls_quota (localStorage w) ->
  Z.of_nat (storage_size (<[CACHE_KEYS.LAST_UPDATED := Date_toISOString t]>
                            (<[CACHE_KEYS.STATS := JSON_stringify data]>
                               (ls_items (localStorage w)))))
    <= ls_quota (localStorage w) ->
  JSON_stringify data <> "" ->
  Date_toISOString t <> "" ->
  JSON_parse (JSON_stringify data) = inr data ->
  Date_parse (Date_toISOString t) = Some t ->
  exists w1,
    saveToCache data t w = Normal tt w1 /\
    forall (now : Z) (w2 : World),
      localStorage w2 = localStorage w1 ->
      exists w3,
        loadCachedData now w2 = Normal (now - t <? ten_minutes) w3 /\
        if now - t <? ten_minutes
        then stats (view w3) = data /\ lastUpdated (view w3) = t
        else view w3 = view w2.
Proof.
  intros Hb Hq1 Hq2 Hs Hd Hp Hdp.
  destruct (saveToCache_outcome data t w) as [c H].
  eexists. split; [exact H|]. cbn [localStorage].
  rewrite (storage_setItem_fits _ _ _ Hb Hq1).
  rewrite (storage_setItem_fits _ _ (mkStorage _ _ _) eq_refl Hq2).
  cbn [ls_items ls_quota].
  intros now w2 E.
  destruct (loadCachedData_spec now w2) as [c2 Hl]. rewrite Hl, E.
  rewrite (saved_store_fresh data t now _ Hb Hs Hd Hp Hdp).
  eexists. split.
  - f_equal. now destruct (now - t <? ten_minutes).
  - destruct (now - t <? ten_minutes); cbn; auto.
Qed.

End CacheManagerCalls.

(* ===================================================================== *)
(** * The page, event by event *)
(* ===================================================================== *)

Section PageRenders.
Context {P : Platform} {A : Arith}.

Lemma card_mount_spec (i : nat) (now v d : Z) (h : Host) :
  card_mount i true now v d h = (mounted_host i now v h, mounted_card v d).
Proof.
  unfold card_mount, effect, new_card, mounted_host, mounted_card. cbn.
  rewrite orb_diag.
  destruct (Z.eqb_spec v 0) as [->|Hv]; cbn.
  - reflexivity.
  - replace (v - 0) with v by lia.
    destruct (Z.eqb_spec v 0); [contradiction|]. reflexivity.
Qed.

Lemma mount_card_spec (now : Z) (s : System) (cell : string * Z) :
  is_mounted s = true ->
  mount_card now s cell =
    mkSystem (world s)
      (mounted_host (length (cards s)) now (metric (fst cell) (stats (view (world s)))) (host s))
      (cards s ++ [mounted_card (metric (fst cell) (stats (view (world s)))) (snd cell)])
      (live s ++ [length (cards s)]) (in_flight s).
Proof.
  intros Hm. unfold mount_card. rewrite Hm, card_mount_spec. reflexivity.
Qed.

Lemma unmount_cards_rest (s : System) :
  live (unmount_cards s) = [] /\
  in_flight (unmount_cards s) = in_flight s /\
  length (cards (unmount_cards s)) = length (cards s).
Proof.
  split; [reflexivity|].
  destruct (unmount_cards_kept s) as ((_ & _ & _ & Hc & _) & _).
  split; [|symmetry; eapply Forall2_length; exact Hc].
  clear Hc.
  unfold unmount_cards. cbn [in_flight].
  generalize (live s) as l. intros l. revert s.
  induction l as [|i l IH]; intros s; simpl; [reflexivity|].
  rewrite IH.
  destruct (on_card_kept i card_unmount s card_unmount_kept) as (_ & _ & _ & Hi).
  exact Hi.
Qed.

Lemma mounted_host_timers (i : nat) (now v : Z) (h : Host) :
  timers (mounted_host i now v h)
  = timers h ++ (if v =? 0 then [] else [(next_timer h, StartDelay i (mkAnim 0 v now))]) /\
  frames (mounted_host i now v h) = frames h.
Proof.
  unfold mounted_host. destruct (v =? 0); simpl; [now rewrite app_nil_r|easy].
Qed.

(** A render of the mounted page, written out. *)
Lemma render_explicit (now : Z) (s : System) :
  is_mounted s = true ->
  let n := length (cards s) in
  let st := stats (view (world s)) in
  render now s =
    mkSystem (world s)
      (mounted_host (n + 3) now (metric "total_queries_processed" st)
         (mounted_host (n + 2) now (metric "total_active_providers" st)
            (mounted_host (n + 1) now (metric "total_providers" st)
               (mounted_host n now (metric "total_users" st)
                  (host (unmount_cards s))))))
      (cards (unmount_cards s)
         ++ [mounted_card (metric "total_users" st) 0;
             mounted_card (metric "total_providers" st) 100;
             mounted_card (metric "total_active_providers" st) 200;
             mounted_card (metric "total_queries_processed" st) 300])
      [n; (n + 1)%nat; (n + 2)%nat; (n + 3)%nat]
      (in_flight s).
Proof.
  intros Hm n st.
  destruct (unmount_cards_kept s) as (_ & Hw & _).
  destruct (unmount_cards_rest s) as (Hl & Hi & Hn).
  unfold render, grid. cbn [fold_left].
  assert (Hm0 : is_mounted (unmount_cards s) = true)
    by (unfold is_mounted in *; now rewrite Hw).
  rewrite (mount_card_spec now (unmount_cards s)) by exact Hm0.
  rewrite (mount_card_spec now (mkSystem _ _ _ _ _))
    by (unfold is_mounted in *; cbn [world]; now rewrite Hw).
  rewrite (mount_card_spec now (mkSystem _ _ _ _ _))
    by (unfold is_mounted in *; cbn [world]; now rewrite Hw).
  rewrite (mount_card_spec now (mkSystem _ _ _ _ _))
    by (unfold is_mounted in *; cbn [world]; now rewrite Hw).
  cbn [world host cards live in_flight fst snd].
  rewrite Hw, Hl, Hi. rewrite !length_app, Hn. cbn [length app].
  fold n. fold st. rewrite <- !app_assoc. cbn [app].
  replace (n + 1 + 1)%nat with (n + 2)%nat by lia.
  replace (n + 2 + 1)%nat with (n + 3)%nat by lia.
  reflexivity.
Qed.


(** The target a card receives is the number [metric] reads. *)
Lemma metric_member (field : string) (s : json) (n : Z) :
  member field s = inr (Some (JNum n)) -> metric field s = n.
Proof.
  unfold member, metric. destruct s; try discriminate.
  intros [= ->]. reflexivity.
Qed.

Lemma is_snapshot_member (s : json) (k : nat) (field : string) (d : Z) :
  is_snapshot s = true -> grid !! k = Some (field, d) ->
  exists v : Z, member field s = inr (Some (JNum v)) /\ metric field s = v.
Proof.
  intros Hs Hg. unfold is_snapshot in Hs.
  rewrite forallb_forall in Hs.
  assert (Hin : In (field, d) grid).
  { apply list_elem_of_In. eapply list_elem_of_lookup_2. exact Hg. }
  specialize (Hs _ Hin). cbn [fst] in Hs.
  destruct (member field s) as [e|[[| |v| | |]|]] eqn:Hm; try discriminate.
  exists v. split; [reflexivity|]. now apply metric_member.
Qed.

(** Every render of the mounted page replaces the four cards. The new
    instances show 0, whatever the replaced ones showed. A cell whose
    counter is 0 has nothing pending: it shows its target at once. A
    cell whose counter is not 0 has a count-up from 0 to the counter
    pending, started at the time of the render, also when the counter
    is the number the cell was showing. Nothing else changes: the view
    state, the store and the requests are as they were, and every timer
    that was pending, those of the replaced cards among them, still
    is. *)
Theorem render_restarts_every_card (now : Z) (s : System) :
  is_mounted s = true ->
  is_snapshot (stats (view (world s))) = true ->
  world (step s (Rendered now)) = world s /\
  in_flight (step s (Rendered now)) = in_flight s /\
  (forall k : nat, (k < 4)%nat -> shown k (step s (Rendered now)) = Some 0) /\
  exists added : list (nat * TimerTask),
    timers (host (step s (Rendered now))) = timers (host s) ++ added /\
    forall (k : nat) (field : string) (d : Z),
      grid !! k = Some (field, d) ->
      exists v : Z,
        member field (stats (view (world s))) = inr (Some (JNum v)) /\
        live (step s (Rendered now)) !! k = Some (length (cards s) + k)%nat /\
        cards (step s (Rendered now)) !! (length (cards s) + k)%nat
          = Some (mounted_card v d) /\
        (v <> 0 ->
         exists id : nat,
           (id, StartDelay (length (cards s) + k) (mkAnim 0 v now)) ∈ added) /\
        (v = 0 ->
         forall (id : nat) (a : Anim),
           (id, StartDelay (length (cards s) + k) a) ∉ added).
Proof.
  intros Hm Hs. cbn [step]. rewrite Hm.
  rewrite (render_explicit now s Hm).
  destruct (unmount_cards_kept s) as (_ & _ & Ht).
  destruct (unmount_cards_rest s) as (_ & _ & Hn).
  cbn [world host cards live in_flight].
  set (n := length (cards s)) in *. set (st := stats (view (world s))) in *.
  set (cs := cards (unmount_cards s)) in *.
  assert (Hc : forall k (l : list Card), (cs ++ l) !! (n + k)%nat = l !! k).
  { intros k l. rewrite lookup_app_r by lia. f_equal. lia. }
  split; [reflexivity|]. split; [reflexivity|].
  split.
  { intros k Hk. unfold shown. cbn [live cards].
    destruct k as [|[|[|[|k]]]]; try lia; cbn [lookup list_lookup mbind option_bind].
    + replace n with (n + 0)%nat at 1 by lia. rewrite Hc; reflexivity.
    + rewrite Hc; reflexivity.
    + rewrite Hc; reflexivity.
    + rewrite Hc; reflexivity. }
  repeat rewrite (proj1 (mounted_host_timers _ _ _ _)).
  rewrite Ht. rewrite <- !app_assoc.
  eexists. split; [reflexivity|].
  intros k field d Hg.
  destruct (is_snapshot_member st k field d Hs Hg) as (v & Hv & Hmv).
  exists v. split; [exact Hv|]. rewrite Hc.
  assert (Hneq : forall (a b : nat) (x y : Anim) (id id' : nat),
             a <> b -> (id, StartDelay (n + a) x) <> (id', StartDelay (n + b) y))
    by (intros a b x y id id' Hab [= _ E _]; lia).
  destruct k as [|[|[|[|k]]]]; cbn in Hg; try discriminate;
    injection Hg as <- <-; rewrite Hmv;
    (split; [cbn; f_equal; lia|]); (split; [reflexivity|]); split.
  1,3,5,7: (intros Hv0; apply Z.eqb_neq in Hv0; rewrite Hv0; eexists;
            rewrite ?Nat.add_0_r; repeat rewrite elem_of_app;
            rewrite ?list_elem_of_singleton; eauto 10).
  all: intros -> id a; cbn [Z.eqb]; rewrite ?Nat.add_0_r;
       repeat rewrite elem_of_app; intros Hin;
       repeat match type of Hin with _ \/ _ => destruct Hin as [Hin|Hin] end;
       repeat match type of Hin with
              | _ ∈ (if ?b then _ else _) => destruct b
              end;
       try (apply elem_of_nil in Hin; contradiction);
       apply list_elem_of_singleton in Hin;
       injection Hin as _ E _; lia.
Qed.

End PageRenders.

Section Activation.
Context {P : Platform}.

(** The page as its first render and its effects leave it. *)
Lemma boot_spec (ls : Storage) (now : Z) :
  is_mounted (boot ls now) = true /\
  intervalRef (view (world (boot ls now))) = Some 1%nat /\
  timers (host (boot ls now)) = [(1%nat, AutoRefresh)] /\
  frames (host (boot ls now)) = [] /\
  localStorage (world (boot ls now)) = ls /\
  match fresh_cache now ls with
  | Some (cached, ts) =>
      stats (view (world (boot ls now))) = cached /\
      lastUpdated (view (world (boot ls now))) = ts /\
      requests (world (boot ls now)) = [] /\
      in_flight (boot ls now) = 0%nat /\
      loading (view (world (boot ls now))) = false /\
      error (view (world (boot ls now))) = None
  | None =>
      stats (view (world (boot ls now))) = initial_stats /\
      lastUpdated (view (world (boot ls now))) = now /\
      if ls_blocked ls then
        requests (world (boot ls now)) = [] /\
        in_flight (boot ls now) = 0%nat /\
        loading (view (world (boot ls now))) = false /\
        error (view (world (boot ls now))) = Some (err_message SecurityError)
      else
        requests (world (boot ls now))
          = [mkRequest "https://server.dllm.chat/dashboard-stats"
                       (bearer (ls_items ls !! "token")) "application/json"] /\
        in_flight (boot ls now) = 1%nat /\
        loading (view (world (boot ls now))) = true /\
        error (view (world (boot ls now))) = None
  end.
Proof.
  unfold boot.
  change (render now (mkSystem (mkWorld (initial_view now) ls [] []) initial_host [] [] 0))
    with (mkSystem (mkWorld (initial_view now) ls [] []) initial_host
            [mounted_card 0 0; mounted_card 0 100; mounted_card 0 200; mounted_card 0 300]
            [0%nat; 1%nat; 2%nat; 3%nat] 0).
  unfold dashboard_effect. cbn [world host cards live in_flight].
  unfold set_mountedRef, set_intervalRef, modify_view.
  cbn [completed view localStorage console requests initial_view stats loading lastUpdated error
       intervalRef mountedRef].
  match goal with |- context [loadCachedData now ?w0] =>
    destruct (loadCachedData_spec now w0) as [c Hl]; rewrite Hl end.
  cbn [localStorage view requests].
  unfold call_fetchStats. cbn [world host cards live in_flight].
  match goal with |- context [fetchStats ?b now ?w0] =>
    destruct (fetchStats_mounted b now w0) as [c1 Hf] end.
  { cbn [view]. destruct (fresh_cache now ls) as [[cached ts]|]; reflexivity. }
  rewrite Hf. clear Hf Hl. cbn [localStorage view requests].
  destruct (fresh_cache now ls) as [[cached ts]|] eqn:Hfc;
    cbn [cache_hit negb show_cached].
  - cbn. repeat split; reflexivity.
  - destruct (ls_blocked ls); cbn; repeat split; reflexivity.
Qed.

Lemma boot_host (ls : Storage) (now : Z) :
  host (boot ls now) = mkHost [(1%nat, AutoRefresh)] [] 2 1 /\
  cards (boot ls now)
    = [mounted_card 0 0; mounted_card 0 100; mounted_card 0 200; mounted_card 0 300] /\
  live (boot ls now) = [0%nat; 1%nat; 2%nat; 3%nat].
Proof.
  unfold boot.
  change (render now (mkSystem (mkWorld (initial_view now) ls [] []) initial_host [] [] 0))
    with (mkSystem (mkWorld (initial_view now) ls [] []) initial_host
            [mounted_card 0 0; mounted_card 0 100; mounted_card 0 200; mounted_card 0 300]
            [0%nat; 1%nat; 2%nat; 3%nat] 0).
  unfold dashboard_effect. cbn [world host cards live in_flight].
  match goal with |- context [loadCachedData now ?w0] =>
    destruct (loadCachedData_spec now w0) as [c Hl]; rewrite Hl end.
  unfold call_fetchStats. cbn [world host cards live in_flight].
  match goal with |- context [fetchStats ?b now ?w0] =>
    destruct (fetchStats b now w0) as [sent w1|e w1] end; cbn; auto.
Qed.


End Activation.

Section PageInvariants.
Context {P : Platform} {A : Arith}.

(** [fetchStats] touches neither the refs nor the store. *)
Lemma fetchStats_keeps (skipCache : bool) (now : Z) (w : World) :
  mountedRef (view (completed (fetchStats skipCache now w))) = mountedRef (view w) /\
  intervalRef (view (completed (fetchStats skipCache now w))) = intervalRef (view w) /\
  localStorage (completed (fetchStats skipCache now w)) = localStorage w.
Proof.
  destruct (mountedRef (view w)) eqn:Hm.
  - destruct (fetchStats_mounted skipCache now w Hm) as [c H]. rewrite H.
    destruct (if skipCache then None else fresh_cache now (localStorage w)) as [[cached ts]|];
      [|destruct (ls_blocked (localStorage w))]; cbn; auto.
  - rewrite (fetchStats_unmounted skipCache now w Hm). cbn. auto.
Qed.

(** Its continuation touches neither the refs nor any key of the store
    other than the two slots of the cache. *)
Lemma fetchStats_resume_keeps (o : FetchOutcome) (now : Z) (w : World) :
  mountedRef (view (completed (fetchStats_resume o now w))) = mountedRef (view w) /\
  intervalRef (view (completed (fetchStats_resume o now w))) = intervalRef (view w) /\
  forall k : string,
    k <> CACHE_KEYS.STATS -> k <> CACHE_KEYS.LAST_UPDATED ->
    ls_items (localStorage (completed (fetchStats_resume o now w))) !! k
    = ls_items (localStorage w) !! k.
Proof.
  destruct (mountedRef (view w)) eqn:Hm.
  - destruct (outcome_cases o) as [[msg Hf]|(status & statusText & body & data & -> & Hok & Hp)].
    + destruct (fetchStats_resume_failed o msg now w Hm Hf) as [c H]. rewrite H.
      destruct (fresh_cache now (localStorage w)) as [[cached ts]|]; cbn; auto.
    + destruct (fetchStats_resume_ok status statusText body data now w Hm Hok Hp) as [c H].
      rewrite H. cbn [completed view localStorage mountedRef intervalRef].
      split; [reflexivity|]. split; [reflexivity|].
      intros k K1 K2.
      destruct (storage_setItem CACHE_KEYS.STATS (JSON_stringify data) (localStorage w))
        as [e|ls1] eqn:H1; [reflexivity|].
      apply storage_setItem_inr in H1.
      destruct (storage_setItem CACHE_KEYS.LAST_UPDATED (Date_toISOString now) ls1)
        as [e|ls2] eqn:H2.
      * subst ls1. cbn. now rewrite lookup_insert_ne.
      * apply storage_setItem_inr in H2. subst ls2 ls1. cbn. now rewrite !lookup_insert_ne.
  - destruct (fetchStats_resume_unmounted o now w Hm) as [c H]. rewrite H. cbn.
    rewrite Hm. auto.
Qed.

Lemma on_card_rest (i : nat) (f : Host * Card -> Host * Card) (s : System) :
  world (on_card i f s) = world s /\
  live (on_card i f s) = live s /\
  in_flight (on_card i f s) = in_flight s.
Proof.
  unfold on_card. destruct (cards s !! i) as [c|]; [|auto].
  destruct (f (host s, c)) as [h' c']. cbn. auto.
Qed.

Lemma on_card_timers (i : nat) (f : Host * Card -> Host * Card) (s : System) :
  (forall h c, timers (fst (f (h, c))) = timers h) ->
  timers (host (on_card i f s)) = timers (host s).
Proof.
  intros Hf. unfold on_card. destruct (cards s !! i) as [c|]; [|reflexivity].
  specialize (Hf (host s) c). destruct (f (host s, c)) as [h' c']. exact Hf.
Qed.

Lemma find_handle_app {T} (id : nat) (l l' : list (nat * T)) (t : T) :
  find_handle id l = Some t -> find_handle id (l ++ l') = Some t.
Proof.
  induction l as [|[j x] l IH]; simpl; [discriminate|].
  destruct (Nat.eqb j id); auto.
Qed.

Lemma find_remove_other {T} (id id' : nat) (l : list (nat * T)) :
  id <> id' -> find_handle id (remove_handle id' l) = find_handle id l.
Proof.
  intros Hne. induction l as [|[j x] l IH]; simpl; [reflexivity|].
  destruct (Nat.eqb_spec j id') as [->|Hj]; simpl.
  - destruct (Nat.eqb_spec id' id); [congruence|exact IH].
  - destruct (Nat.eqb j id); [reflexivity|exact IH].
Qed.

Lemma start_delay_timers (i : nat) (m : bool) (a : Anim) (h : Host) (c : Card) :
  timers (fst (start_delay_fires i m a (h, c))) = timers h.
Proof. unfold start_delay_fires. destruct m; reflexivity. Qed.

Lemma animate_timers (i : nat) (m : bool) (a : Anim) (now : Z) (h : Host) (c : Card) :
  timers (fst (animate i m a now (h, c))) = timers h.
Proof.
  unfold animate. destruct m; cbn; [|reflexivity].
  destruct (Qle_bool 1 (progress_at a now)); reflexivity.
Qed.

Lemma interval_kept (ls : Storage) (now : Z) (es : list Event) :
  forallb page_event es = true ->
  is_mounted (run (boot ls now) es) = true /\
  intervalRef (view (world (run (boot ls now) es))) = Some 1%nat /\
  find_handle 1 (timers (host (run (boot ls now) es))) = Some AutoRefresh.
Proof.
  destruct (boot_spec ls now) as (Hm & Hi & Ht & _).
  assert (H0 : is_mounted (boot ls now) = true /\
               intervalRef (view (world (boot ls now))) = Some 1%nat /\
               find_handle 1 (timers (host (boot ls now))) = Some AutoRefresh)
    by (rewrite Ht; auto).
  clear Hm Hi Ht. revert H0. generalize (boot ls now) as s.
  induction es as [|e es IH]; intros s H0 Hes; [exact H0|].
  cbn [forallb] in Hes. apply andb_prop in Hes as [He Hes].
  cbn [run fold_left]. apply (IH (step s e)); [|exact Hes].
  clear IH Hes. destruct H0 as (Hm & Hi & Ht).
  destruct e as [t|t|id t|id t|o t| |i v t]; try discriminate; cbn [step]; clear He.
  - rewrite Hm, (render_explicit t s Hm). cbn [world host]. unfold is_mounted in *.
    split; [exact Hm|]. split; [exact Hi|].
    repeat rewrite (proj1 (mounted_host_timers _ _ _ _)).
    destruct (unmount_cards_kept s) as (_ & _ & Hu). rewrite Hu.
    repeat apply find_handle_app. exact Ht.
  - destruct (is_mounted s && negb (loading (view (world s)))); [|auto].
    unfold call_fetchStats, is_mounted in *.
    destruct (fetchStats_keeps true t (world s)) as (K1 & K2 & _).
    destruct (fetchStats true t (world s)) as [b w|e w]; cbn in *;
      (split; [congruence|split; [congruence|exact Ht]]).
  - destruct (find_handle id (timers (host s))) as [[i a|]|] eqn:Hid; [| |auto].
    + match goal with |- context [on_card i ?f ?s0] =>
        destruct (on_card_rest i f s0) as (Hw & _);
        pose proof (on_card_timers i f s0 (start_delay_timers i (is_mounted s) a)) as Htm
      end.
      unfold is_mounted in *. rewrite Hw, Htm. cbn.
      split; [exact Hm|]. split; [exact Hi|].
      rewrite find_remove_other; [exact Ht|]. intros E. subst id. congruence.
    + unfold call_fetchStats, is_mounted in *.
      destruct (fetchStats_keeps true t (world s)) as (K1 & K2 & _).
      destruct (fetchStats true t (world s)) as [b w|e w]; cbn in *;
        (split; [congruence|split; [congruence|exact Ht]]).
  - destruct (find_handle id (frames (host s))) as [ft|]; [|auto].
    match goal with |- context [on_card ?i ?f ?s0] =>
      destruct (on_card_rest i f s0) as (Hw & _);
      pose proof (on_card_timers i f s0
                    (animate_timers (ft_card ft) (is_mounted s) (ft_anim ft) t)) as Htm
    end.
    unfold is_mounted in *. rewrite Hw, Htm. cbn. auto.
  - destruct (in_flight s) as [|n]; [auto|].
    unfold is_mounted in *. cbn.
    destruct (fetchStats_resume_keeps o t (world s)) as (K1 & K2 & _).
    split; [congruence|split; [congruence|exact Ht]].
Qed.

(** The refresh interval stays scheduled for as long as the page is
    mounted: after activation and any sequence of renders, clicks,
    fired timers and frames and settled requests, on a page that holds
    a snapshot throughout, the page is mounted, [intervalRef] holds the
    handle 1 and the timer of that handle is the forced refresh. *)
Theorem auto_refresh_stays_scheduled (ls : Storage) (now : Z) (es : list Event) :
  forallb page_event es = true ->
  shows_snapshots (boot ls now) es = true ->
  is_mounted (run (boot ls now) es) = true /\
  intervalRef (view (world (run (boot ls now) es))) = Some 1%nat /\
  find_handle 1 (timers (host (run (boot ls now) es))) = Some AutoRefresh.
Proof. intros Hp _. now apply interval_kept. Qed.


End PageInvariants.

Section PageRuns.
Context {P : Platform} {A : Arith}.

Lemma step_world (s : System) (e : Event) :
  world (step s e) = world s \/
  (exists now, world (step s e) = completed (fetchStats true now (world s))) \/
  (exists o now, world (step s e) = completed (fetchStats_resume o now (world s))) \/
  world (step s e) = completed (set_mountedRef false (world s)).
Proof.
  destruct e as [t|t|id t|id t|o t| |i v t]; cbn [step].
  - destruct (is_mounted s); [|auto]. left. unfold render.
    assert (H : forall g s0, world (fold_left (mount_card t) g s0) = world s0).
    { induction g as [|cell g IH]; intros s0; simpl; [reflexivity|].
      rewrite IH. unfold mount_card. now destruct (card_mount _ _ _ _ _ _). }
    rewrite H. exact (proj1 (proj2 (unmount_cards_kept s))).
  - destruct (is_mounted s && negb (loading (view (world s)))); [|auto].
    right. left. exists t. unfold call_fetchStats.
    now destruct (fetchStats true t (world s)).
  - destruct (find_handle id (timers (host s))) as [[i a|]|]; [| |auto].
    + left. match goal with |- world (on_card ?i ?f ?s0) = _ =>
      exact (proj1 (on_card_rest i f s0)) end.
    + right. left. exists t. unfold call_fetchStats.
      now destruct (fetchStats true t (world s)).
  - destruct (find_handle id (frames (host s))) as [ft|]; [|auto].
    left. match goal with |- world (on_card ?i ?f ?s0) = _ =>
      exact (proj1 (on_card_rest i f s0)) end.
  - destruct (in_flight s); [auto|]. right. right. left. eauto.
  - right. right. right. unfold dashboard_cleanup.
    match goal with |- context [unmount_cards ?s0] =>
      destruct (unmount_cards_kept s0) as (_ & Hw & _); rewrite Hw end.
    reflexivity.
  - destruct (is_mounted s && bool_decide (i ∈ live s)); [|auto].
    left. match goal with |- world (on_card ?i ?f ?s0) = _ =>
      exact (proj1 (on_card_rest i f s0)) end.
Qed.

(** The page writes to its two cache slots only. Whatever happens to
    it, every other key of the store, the session token among them,
    keeps the value it had. *)
Theorem only_the_cache_slots_are_written (s : System) (es : list Event) (k : string) :
  k <> CACHE_KEYS.STATS -> k <> CACHE_KEYS.LAST_UPDATED ->
  ls_items (localStorage (world (run s es))) !! k
  = ls_items (localStorage (world s)) !! k.
Proof.
  intros K1 K2. revert s. induction es as [|e es IH]; intros s; [reflexivity|].
  cbn [run fold_left]. etransitivity; [apply (IH (step s e))|].
  destruct (step_world s e) as [H|[[now H]|[(o & now & H)|H]]]; rewrite H.
  - reflexivity.
  - now rewrite (proj2 (proj2 (fetchStats_keeps true now (world s)))).
  - now apply fetchStats_resume_keeps.
  - reflexivity.
Qed.

Lemma call_fetchStats_spec (now : Z) (s : System) :
  is_mounted s = true ->
  is_mounted (call_fetchStats true now s) = true /\
  host (call_fetchStats true now s) = host s /\
  localStorage (world (call_fetchStats true now s)) = localStorage (world s) /\
  if ls_blocked (localStorage (world s)) then
    in_flight (call_fetchStats true now s) = in_flight s /\
    requests (world (call_fetchStats true now s)) = requests (world s) /\
    loading (view (world (call_fetchStats true now s))) = false
  else
    in_flight (call_fetchStats true now s) = S (in_flight s) /\
    requests (world (call_fetchStats true now s))
      = mkRequest "https://server.dllm.chat/dashboard-stats"
                  (bearer (ls_items (localStorage (world s)) !! "token"))
                  "application/json" :: requests (world s) /\
    loading (view (world (call_fetchStats true now s))) = true.
Proof.
  intros Hm. unfold call_fetchStats, is_mounted in *.
  destruct (fetchStats_mounted true now (world s) Hm) as [c H]. rewrite H.
  destruct (ls_blocked (localStorage (world s))); cbn; auto 10.
Qed.

Lemma settled_spec (o : FetchOutcome) (now : Z) (w : World) :
  mountedRef (view w) = true ->
  loading (view (completed (fetchStats_resume o now w))) = false /\
  requests (completed (fetchStats_resume o now w)) = requests w /\
  ls_blocked (localStorage (completed (fetchStats_resume o now w)))
    = ls_blocked (localStorage w).
Proof.
  intros Hm.
  destruct (outcome_cases o) as [[msg Hf]|(status & statusText & body & data & -> & Hok & Hp)].
  - destruct (fetchStats_resume_failed o msg now w Hm Hf) as [c H]. rewrite H.
    destruct (fresh_cache now (localStorage w)) as [[cached ts]|]; cbn; auto.
  - destruct (fetchStats_resume_ok status statusText body data now w Hm Hok Hp) as [c H].
    rewrite H. cbn [completed view localStorage loading requests].
    split; [reflexivity|]. split; [reflexivity|].
    destruct (storage_setItem CACHE_KEYS.STATS (JSON_stringify data) (localStorage w))
      as [e|ls1] eqn:H1; [reflexivity|].
    apply storage_setItem_inr in H1.
    destruct (storage_setItem CACHE_KEYS.LAST_UPDATED (Date_toISOString now) ls1)
      as [e|ls2] eqn:H2.
    + now subst ls1.
    + apply storage_setItem_inr in H2. now subst ls2 ls1.
Qed.

(** Refreshes are not serialised. On a mounted page whose store can be
    read and which holds a snapshot throughout, the refresh interval
    sends one more forced request each time it fires, however many
    requests are pending. When a request
    settles while others are pending the loading flag goes down all the
    same, so Refresh Now, which is disabled while the flag is up, sends
    a further request although earlier ones are still pending. *)
Theorem refreshes_overlap
    (s : System) (id : nat) (t1 t2 t3 : Z) (o : FetchOutcome) :
  is_mounted s = true ->
  ls_blocked (localStorage (world s)) = false ->
  find_handle id (timers (host s)) = Some AutoRefresh ->
  shows_snapshots s [TimerFired id t1; FetchSettled o t2] = true ->
  in_flight (step s (TimerFired id t1)) = S (in_flight s) /\
  length (requests (world (step s (TimerFired id t1))))
    = S (length (requests (world s))) /\
  loading (view (world (step s (TimerFired id t1)))) = true /\
  step (step s (TimerFired id t1)) (Clicked t2) = step s (TimerFired id t1) /\
  in_flight (run s [TimerFired id t1; FetchSettled o t2]) = in_flight s /\
  loading (view (world (run s [TimerFired id t1; FetchSettled o t2]))) = false /\
  in_flight (run s [TimerFired id t1; FetchSettled o t2; Clicked t3]) = S (in_flight s) /\
  length (requests (world (run s [TimerFired id t1; FetchSettled o t2; Clicked t3])))
    = S (S (length (requests (world s)))).
Proof.
  intros Hm Hb Hid _. cbn [run fold_left].
  assert (E1 : step s (TimerFired id t1) = call_fetchStats true t1 s)
    by (cbn [step]; now rewrite Hid).
  rewrite E1.
  destruct (call_fetchStats_spec t1 s Hm) as (Hm1 & Hh1 & Hs1 & H1). rewrite Hb in H1.
  destruct H1 as (Hi1 & Hr1 & Hl1).
  set (s1 := call_fetchStats true t1 s) in *.
  split; [exact Hi1|]. split; [now rewrite Hr1|]. split; [exact Hl1|].
  split; [cbn [step]; now rewrite Hl1, andb_false_r|].
  assert (E2 : step s1 (FetchSettled o t2)
               = mkSystem (completed (fetchStats_resume o t2 (world s1)))
                          (host s1) (cards s1) (live s1) (in_flight s))
    by (cbn [step]; now rewrite Hi1).
  rewrite E2. set (s2 := mkSystem _ _ _ _ _) in *.
  unfold is_mounted in Hm1.
  destruct (settled_spec o t2 (world s1) Hm1) as (Hl2 & Hr2 & Hb2).
  destruct (fetchStats_resume_keeps o t2 (world s1)) as (Hm2 & _).
  split; [reflexivity|]. split; [exact Hl2|].
  assert (Hm2' : is_mounted s2 = true) by (unfold is_mounted; cbn; congruence).
  assert (E3 : step s2 (Clicked t3) = call_fetchStats true t3 s2).
  { cbn [step]. rewrite Hm2'. cbn [s2 world]. now rewrite Hl2. }
  rewrite E3.
  destruct (call_fetchStats_spec t3 s2 Hm2') as (_ & _ & _ & H3).
  assert (Hb3 : ls_blocked (localStorage (world s2)) = false).
  { cbn [s2 world]. now rewrite Hb2, Hs1. }
  rewrite Hb3 in H3. destruct H3 as (Hi3 & Hr3 & _).
  split; [exact Hi3|]. rewrite Hr3. cbn [length s2 world]. now rewrite Hr2, Hr1.
Qed.

Lemma loading_down_when_idle (ls : Storage) (now : Z) (es : list Event) :
  is_mounted (run (boot ls now) es) = true ->
  in_flight (run (boot ls now) es) = 0%nat ->
  loading (view (world (run (boot ls now) es))) = false.
Proof.
  assert (H0 : is_mounted (boot ls now) = true ->
               in_flight (boot ls now) = 0%nat ->
               loading (view (world (boot ls now))) = false).
  { destruct (boot_spec ls now) as (_ & _ & _ & _ & _ & H).
    destruct (fresh_cache now ls) as [[cached ts]|].
    - intros _ _. apply H.
    - destruct H as (_ & _ & H). destruct (ls_blocked ls).
      + intros _ _. apply H.
      + intros _ Hi. destruct H as (_ & Hi' & _). congruence. }
  revert H0. generalize (boot ls now) as s.
  induction es as [|e es IH]; intros s H0; [exact H0|].
  cbn [run fold_left]. apply (IH (step s e)). clear IH.
  intros Hm' Hi'.
  assert (Hm : is_mounted s = true).
  { destruct (is_mounted s) eqn:E; [reflexivity|].
    destruct (step_unmounted s e E) as [C _]. congruence. }
  destruct e as [t|t|id t|id t|o t| |i v t]; cbn [step] in *.
  - rewrite Hm in *. rewrite (render_explicit t s Hm) in *. cbn in *. auto.
  - destruct (is_mounted s && negb (loading (view (world s)))) eqn:Hc; [|auto].
    destruct (call_fetchStats_spec t s Hm) as (_ & _ & _ & H).
    destruct (ls_blocked (localStorage (world s))); [apply H|].
    destruct H as (H & _). congruence.
  - destruct (find_handle id (timers (host s))) as [[i a|]|]; [| |auto].
    + match type of Hi' with context [on_card i ?f ?s0] =>
        destruct (on_card_rest i f s0) as (Hw & _ & Hn) end.
      rewrite Hw. rewrite Hn in Hi'. cbn in *. auto.
    + destruct (call_fetchStats_spec t s Hm) as (_ & _ & _ & H).
      destruct (ls_blocked (localStorage (world s))); [apply H|].
      destruct H as (H & _). congruence.
  - destruct (find_handle id (frames (host s))) as [ft|]; [|auto].
    match type of Hi' with context [on_card ?i ?f ?s0] =>
      destruct (on_card_rest i f s0) as (Hw & _ & Hn) end.
    rewrite Hw. rewrite Hn in Hi'. cbn in *. auto.
  - destruct (in_flight s) as [|n]; [auto|]. cbn [world].
    apply settled_spec. exact Hm.
  - rewrite dashboard_cleanup_unmounts in Hm'. discriminate.
  - destruct (is_mounted s && bool_decide (i ∈ live s)); [|auto].
    match type of Hi' with context [on_card ?i ?f ?s0] =>
      destruct (on_card_rest i f s0) as (Hw & _ & Hn) end.
    rewrite Hw. rewrite Hn in Hi'. auto.
Qed.

(** The loading flag is never left up. On a mounted page that was
    activated, has seen any events and has held a snapshot throughout,
    the flag is down whenever no request is pending: Refresh Now is
    disabled only while the page waits for a response. *)
Theorem loading_flag_never_left_up (ls : Storage) (now : Z) (es : list Event) :
  shows_snapshots (boot ls now) es = true ->
  is_mounted (run (boot ls now) es) = true ->
  in_flight (run (boot ls now) es) = 0%nat ->
  loading (view (world (run (boot ls now) es))) = false.
Proof. intros _. apply loading_down_when_idle. Qed.


End PageRuns.

(* ===================================================================== *)
(** * The count-up, frame after frame *)
(* ===================================================================== *)

Section Monotone.
Context {A : Arith} (L : ArithLaws A).
Hypothesis pow_mono : forall x y : Q, (x <= y)%Q -> (Math_pow x 3 <= Math_pow y 3)%Q.
Local Open Scope Q_scope.

Lemma eased_mono (e1 e2 : Z) :
  (e1 <= e2)%Z ->
  (1 ⊖ Math_pow (1 ⊖ Math_min (inject_Z e1 ⊘ inject_Z 1500) 1) 3
   <= 1 ⊖ Math_pow (1 ⊖ Math_min (inject_Z e2 ⊘ inject_Z 1500) 1) 3)%num.
Proof.
  intros He.
  assert (H1 : inject_Z e1 / inject_Z 1500 <= inject_Z e2 / inject_Z 1500).
  { apply Qmult_le_compat_r; [now rewrite <- Zle_Qle|]. discriminate. }
  apply (rnd_mono A L) in H1.
  assert (H2 : Math_min (rnd (inject_Z e1 / inject_Z 1500)) 1
               <= Math_min (rnd (inject_Z e2 / inject_Z 1500)) 1)
    by (unfold Math_min; apply Q.min_le_compat_r; exact H1).
  apply (rnd_mono A L). apply Qplus_le_r. apply Qopp_le_compat.
  apply pow_mono. apply (rnd_mono A L). apply Qplus_le_r. apply Qopp_le_compat.
  exact H2.
Qed.

Lemma eased_display_up (p t e1 e2 : Z) :
  (p <= t)%Z -> (e1 <= e2)%Z -> (eased_display p t e1 <= eased_display p t e2)%Z.
Proof.
  intros Hpt He. unfold eased_display, Math_floor. apply Qfloor_resp_le.
  apply (rnd_mono A L). apply Qplus_le_r. apply (rnd_mono A L).
  pose proof (eased_mono e1 e2 He) as Hm.
  assert (Hd : 0 <= inject_Z (t - p)) by (change 0 with (inject_Z 0); rewrite <- Zle_Qle; lia).
  revert Hm Hd. generalize (inject_Z (t - p)). generalize_atoms. intros; nra.
Qed.

Lemma eased_display_down (p t e1 e2 : Z) :
  (t <= p)%Z -> (e1 <= e2)%Z -> (eased_display p t e2 <= eased_display p t e1)%Z.
Proof.
  intros Hpt He. unfold eased_display, Math_floor. apply Qfloor_resp_le.
  apply (rnd_mono A L). apply Qplus_le_r. apply (rnd_mono A L).
  pose proof (eased_mono e1 e2 He) as Hm.
  assert (Hd : inject_Z (t - p) <= 0) by (change 0 with (inject_Z 0); rewrite <- Zle_Qle; lia).
  revert Hm Hd. generalize (inject_Z (t - p)). generalize_atoms. intros; nra.
Qed.

(** The number on display moves one way. Of two frames of the same
    transition on a mounted page, the later one leaves on display a
    value at least as large when the transition counts up, and at most
    as large when it counts down: the easing, rounded at every step as
    it is, never steps back. *)
Theorem display_moves_one_way
    (self : nat) (a : Anim) (now1 now2 : Z) (h1 h2 : Host) (c1 c2 : Card) :
  (Z.abs (targetValue a) <= 2 ^ 53)%Z ->
  (Z.abs (difference a) <= 2 ^ 53)%Z ->
  (now1 <= now2)%Z ->
  ((startValue a <= targetValue a)%Z ->
   (displayValue (snd (animate self true a now1 (h1, c1)))
    <= displayValue (snd (animate self true a now2 (h2, c2))))%Z) /\
  ((targetValue a <= startValue a)%Z ->
   (displayValue (snd (animate self true a now2 (h2, c2)))
    <= displayValue (snd (animate self true a now1 (h1, c1))))%Z).
Proof.
  intros Ht Hd Hn.
  rewrite !(animate_displays_eased_value self L a) by assumption.
  split; intros Hdir.
  - apply eased_display_up; [exact Hdir|lia].
  - apply eased_display_down; [exact Hdir|lia].
Qed.

End Monotone.

Lemma binary64_pow_mono (x y : Q) :
  (x <= y)%Q -> (@Math_pow binary64 x 3 <= @Math_pow binary64 y 3)%Q.
Proof.
  intros H. cbn [Math_pow binary64]. apply rnd64_mono.
  assert (E : forall z : Q, (z ^ 3 == z * z * z)%Q) by (intros z; simpl; ring).
  rewrite !E.
  assert (H0 : (0 <= (y - x) * ((x + y) * (x + y) + x * x + y * y))%Q).
  { apply Qmult_le_0_compat; [lra|]. nra. }
  nra.
Qed.

Section ClockBehind.
Local Open Scope Q_scope.

Lemma rnd64_opp (q : Q) : rnd64 (- q) == - rnd64 q.
Proof.
  destruct (Q_dec q 0) as [[H|H]|H].
  - rewrite (rnd64_neg q H). rewrite (rnd64_pos (- q)) by lra. lra.
  - rewrite (rnd64_pos q H). rewrite (rnd64_neg (- q)) by lra.
    rewrite (rpos_comp (- - q) q); [reflexivity|lra|lra].
  - rewrite (rnd64_zero q H). rewrite (rnd64_zero (- q)) by lra. reflexivity.
Qed.

Lemma rnd64_dyadic_signed (m e : Z) :
  (Z.abs m < 2 ^ 53)%Z -> (-1074 <= e)%Z ->
  rnd64 (inject_Z m * 2 ^ e) == inject_Z m * 2 ^ e.
Proof.
  intros Hm He. destruct (Z.lt_trichotomy m 0) as [H|[H|H]].
  - assert (E : inject_Z m * 2 ^ e == - (inject_Z (- m) * 2 ^ e))
      by (rewrite inject_Z_opp; ring).
    rewrite (rnd64_eq _ _ E), rnd64_opp, rnd64_dyadic by lia. now rewrite E.
  - subst m. rewrite rnd64_zero; [ring|ring].
  - apply rnd64_dyadic; lia.
Qed.

#[local] Existing Instance binary64.

(** The easing one millisecond before the start, in binary64. *)
Lemma eased_before_start :
  (1 ⊖ Math_pow (1 ⊖ Math_min (inject_Z (-1) ⊘ inject_Z 1500) 1) 3 <= - (1 # 512))%num.
Proof. apply Qle_bool_imp_le. vm_compute. reflexivity. Qed.

(** [Math.min] bounds [progress] from above only, so a clock that reads
    earlier than the start time of a transition gives a negative
    progress. In binary64, a frame of a count-up that reads such a
    clock leaves on display a value below the value the count-up
    started from. *)
Theorem clock_behind_start_undershoots
    (self : nat) (a : Anim) (now : Z) (h : Host) (c : Card) :
  (now < startTime a)%Z ->
  (startValue a < targetValue a)%Z ->
  (Z.abs (startValue a) <= 2 ^ 43)%Z ->
  (Z.abs (targetValue a) <= 2 ^ 52)%Z ->
  (displayValue (snd (@animate binary64 self true a now (h, c))) < startValue a)%Z.
Proof.
  intros Hn Hlt Hp Ht.
  rewrite (animate_displays_eased_value self binary64_laws a)
    by (unfold difference; lia).
  set (p := startValue a) in *. set (t := targetValue a) in *.
  apply Z.le_lt_trans with (@eased_display binary64 p t (-1)).
  { apply (eased_display_up binary64_laws binary64_pow_mono); lia. }
  unfold eased_display, Math_floor.
  pose proof eased_before_start as Hc.
  set (c0 := (1 ⊖ Math_pow (1 ⊖ Math_min (inject_Z (-1) ⊘ inject_Z 1500) 1) 3)%num) in *.
  cbn [rnd binary64].
  assert (Hd : 1 <= inject_Z (t - p))
    by (change 1 with (inject_Z 1); rewrite <- Zle_Qle; lia).
  assert (H1 : rnd64 (inject_Z (t - p) * c0) <= - (1 # 512)).
  { apply Qle_trans with (rnd64 (- (1 # 512))).
    - apply rnd64_mono. revert Hd Hc. generalize (inject_Z (t - p)) c0. intros; nra.
    - apply Qle_bool_imp_le. vm_compute. reflexivity. }
  assert (E : inject_Z p - (1 # 512) == inject_Z (p * 512 - 1) * 2 ^ (-9)).
  { rewrite inject_Z_sub, inject_Z_mult.
    change (2 ^ (-9)) with (1 # 512). change (inject_Z 512) with (512 # 1).
    change (inject_Z 1) with 1. field. }
  assert (H2 : rnd64 (inject_Z p + rnd64 (inject_Z (t - p) * c0)) <= inject_Z p - (1 # 512)).
  { rewrite E. rewrite <- (rnd64_dyadic_signed (p * 512 - 1) (-9)) by lia.
    apply rnd64_mono. rewrite <- E. lra. }
  apply Qfloor_resp_le in H2.
  rewrite (Qfloor_unique (inject_Z p - (1 # 512)) (p - 1)) in H2.
  - lia.
  - rewrite inject_Z_sub. change (inject_Z 1) with 1. lra.
  - replace (p - 1 + 1)%Z with p by lia. lra.
Qed.

End ClockBehind.

(* ===================================================================== *)
(** * What the page shows *)
(* ===================================================================== *)

Section PageMarkup.
Context {P : Platform} {A : Arith}.

Lemma return_null (now : Z) (v : View) :
  stats v = JNull ->
  DashboardStats_return now v = inl (TypeError "total_users").
Proof. intros H. unfold DashboardStats_return. now rewrite H. Qed.

Lemma return_markup (now : Z) (v : View) (m : Markup) :
  DashboardStats_return now v = inr m ->
  button_disabled m = loading v /\
  button_label m = (if loading v then "Updating..." else "Refresh Now") /\
  error_banner m = (if truthy (error v) then error v else None) /\
  system_status m = (if truthy (error v) then "Connection Issues (Using Cache)"
                     else "All Services Online") /\
  updated_ago m = formatTimeAgo now (lastUpdated v).
Proof.
  unfold DashboardStats_return.
  destruct (member "total_users" (stats v)); [discriminate|].
  destruct (member "total_providers" (stats v)); [discriminate|].
  destruct (member "total_active_providers" (stats v)); [discriminate|].
  destruct (member "total_queries_processed" (stats v)); [discriminate|].
  intros [= <-]. cbn. auto.
Qed.

(** The banner follows the refresh, not the data. While a request is
    pending the page shows no banner, the status All Services Online and
    a disabled button, whatever the previous refresh came to. When the
    request fails with a message that is not empty, the banner carries
    that message and the status reads Connection Issues (Using Cache),
    whether or not an entry of the cache is on display. *)
Theorem banner_follows_the_refresh
    (now : Z) (w : World) (o : FetchOutcome) (msg : string) (later : Z) :
  mountedRef (view w) = true ->
  ls_blocked (localStorage w) = false ->
  Fails o msg ->
  msg <> "" ->
  exists w1 w2,
    fetchStats true now w = Normal true w1 /\
    fetchStats_resume o later w1 = Normal tt w2 /\
    (forall t m, DashboardStats_return t (view w1) = inr m ->
       error_banner m = None /\
       system_status m = "All Services Online" /\
       button_disabled m = true /\
       button_label m = "Updating...") /\
    (forall t m, DashboardStats_return t (view w2) = inr m ->
       error_banner m = Some msg /\
       system_status m = "Connection Issues (Using Cache)" /\
       button_disabled m = false /\
       button_label m = "Refresh Now").
Proof.
  intros Hm Hb Hf Hmsg.
  destruct (fetchStats_mounted true now w Hm) as [c1 H1]. rewrite Hb in H1.
  eexists. 
  match type of H1 with _ = Normal true ?w1 =>
    destruct (fetchStats_resume_failed o msg later w1 eq_refl Hf) as [c2 H2] end.
  eexists. split; [exact H1|]. split; [exact H2|].
  apply String.eqb_neq in Hmsg.
  split; intros t m Hr; apply return_markup in Hr;
    destruct Hr as (R1 & R2 & R3 & R4 & _); rewrite R1, R2, R3, R4.
  - cbn. auto.
  - cbn [view localStorage].
    destruct (fresh_cache later (localStorage w)) as [[cached ts]|];
      cbn; rewrite Hmsg; cbn; auto.
Qed.


(** The body of a 2xx response is not validated. Whatever JSON value
    it holds becomes the snapshot, and no error is set. If the value is
    [null], every later evaluation of the component's [return] throws
    a TypeError at [stats.total_users]; if it is another value that is
    not an object (a number, a string, an array), the four cards
    receive [undefined]. *)
Theorem response_body_is_not_validated
    (status : Z) (statusText body : string) (data : json) (now : Z) (w : World) :
  mountedRef (view w) = true ->
  response_ok status = true ->
  JSON_parse body = inr data ->
  exists w',
    fetchStats_resume (Response status statusText body) now w = Normal tt w' /\
    stats (view w') = data /\
    error (view w') = error (view w) /\
    (data = JNull ->
     forall t, exists e,
       DashboardStats_return t (view w') = inl e /\ err_name e = "TypeError") /\
    ((forall fields, data <> JObj fields) -> data <> JNull ->
     forall t, exists m,
       DashboardStats_return t (view w') = inr m /\
       List.map p_value (stat_cards m) = [None; None; None; None]).
Proof.
  intros Hm Hok Hp.
  destruct (fetchStats_resume_ok status statusText body data now w Hm Hok Hp) as [c H].
  eexists. split; [exact H|]. cbn [view stats error].
  split; [reflexivity|]. split; [reflexivity|]. split.
  - intros -> t. eexists. split; [apply return_null; reflexivity|reflexivity].
  - intros Hno Hnn t. unfold DashboardStats_return. cbn [stats].
    destruct data; try (eexists; split; reflexivity).
    + contradiction.
    + now destruct (Hno fields).
Qed.

End PageMarkup.

(* ===================================================================== *)
(** * A count-up runs to its target *)
(* ===================================================================== *)

Section HostFresh.
Context {P : Platform} {A : Arith}.

Lemma host_fresh_scheduled (h h' : Host) :
  nothing_scheduled h h' -> host_fresh h -> host_fresh h'.
Proof.
  intros (_ & Hn & _ & Hf) H f t Hft. rewrite Hn. eapply H, Hf, Hft.
Qed.

Lemma host_fresh_same (h h' : Host) :
  frames h' = frames h -> next_frame h' = next_frame h -> host_fresh h -> host_fresh h'.
Proof. intros Hf Hn H f t. rewrite Hf, Hn. apply H. Qed.

Lemma find_handle_snoc {T} (id id' : nat) (l : list (nat * T)) (t x : T) :
  find_handle id (l ++ [(id', x)]) = Some t ->
  find_handle id l = Some t \/ (id = id' /\ t = x).
Proof.
  induction l as [|[j y] l IH]; simpl.
  - destruct (Nat.eqb_spec id' id); [|discriminate]. intros [= <-]. auto.
  - destruct (Nat.eqb j id); auto.
Qed.

Lemma find_handle_new {T} (id : nat) (l : list (nat * T)) (x : T) :
  find_handle id l = None -> find_handle id (l ++ [(id, x)]) = Some x.
Proof.
  induction l as [|[j y] l IH]; simpl.
  - now rewrite Nat.eqb_refl.
  - destruct (Nat.eqb j id); [discriminate|exact IH].
Qed.

Lemma host_fresh_request (t : FrameTask) (h : Host) :
  host_fresh h -> host_fresh (snd (requestAnimationFrame t h)).
Proof.
  intros H f x. cbn. intros Hf. apply find_handle_snoc in Hf as [Hf|[-> _]]; [|lia].
  apply H in Hf. lia.
Qed.

Lemma host_fresh_cancel (id : nat) (h : Host) :
  host_fresh h -> host_fresh (cancelAnimationFrame id h).
Proof. apply host_fresh_scheduled, nothing_scheduled_cancel. Qed.

Lemma effect_frames (i : nat) (m : bool) (now : Z) (h : Host) (c : Card) :
  frames (fst (effect i m now (h, c))) = frames h /\
  next_frame (fst (effect i m now (h, c))) = next_frame h.
Proof.
  unfold effect.
  destruct ((value c =? 0) || (value c =? previousValueRef c)).
  { destruct (negb (hasInitializedRef c) && (0 <? value c)); cbn; auto. }
  destruct (animationRef c) as [id|]; cbn [fst snd];
    match goal with |- context [isAnimating ?c0] => destruct (isAnimating c0) end;
    cbn; auto; unfold startAnimation; destruct m; cbn; auto;
    match goal with |- context [?x =? 0] => destruct (x =? 0) end; cbn; auto.
Qed.

Lemma host_fresh_start_delay (i : nat) (m : bool) (a : Anim) (h : Host) (c : Card) :
  host_fresh h -> host_fresh (fst (start_delay_fires i m a (h, c))).
Proof.
  intros H. unfold start_delay_fires. destruct m; [|exact H].
  apply (host_fresh_request (mkFrameTask i a)) in H.
  destruct (requestAnimationFrame _ h). exact H.
Qed.

Lemma host_fresh_animate (i : nat) (m : bool) (a : Anim) (now : Z) (h : Host) (c : Card) :
  host_fresh h -> host_fresh (fst (animate i m a now (h, c))).
Proof.
  intros H. unfold animate. destruct m; cbn [negb]; [|exact H].
  destruct (Qle_bool 1 (progress_at a now)); [exact H|].
  apply (host_fresh_request (mkFrameTask i a)) in H.
  destruct (requestAnimationFrame _ h). exact H.
Qed.

Lemma host_fresh_update (i : nat) (m : bool) (now v d : Z) (h : Host) (c : Card) :
  host_fresh h -> host_fresh (fst (card_update i m now v d (h, c))).
Proof.
  intros H. unfold card_update.
  destruct ((v =? value c) && (d =? delay c)); [exact H|].
  assert (H1 : host_fresh (fst (if cleanupPending c then effect_cleanup (h, c) else (h, c)))).
  { destruct (cleanupPending c); [|exact H].
    eapply host_fresh_scheduled; [|exact H]. apply effect_cleanup_spec. }
  destruct (if cleanupPending c then effect_cleanup (h, c) else (h, c)) as [h1 c1].
  destruct (effect_frames i m now h1 (set_props v d c1)) as [Hf Hn].
  eapply host_fresh_same; eauto.
Qed.

Lemma on_card_fresh (i : nat) (f : Host * Card -> Host * Card) (s : System) :
  (forall h c, host_fresh h -> host_fresh (fst (f (h, c)))) ->
  host_fresh (host s) -> host_fresh (host (on_card i f s)).
Proof.
  intros Hf H. unfold on_card. destruct (cards s !! i) as [c|]; [|exact H].
  specialize (Hf (host s) c H). destruct (f (host s, c)). exact Hf.
Qed.

Lemma mounted_host_frames (i : nat) (now v : Z) (h : Host) :
  frames (mounted_host i now v h) = frames h /\
  next_frame (mounted_host i now v h) = next_frame h.
Proof. unfold mounted_host. destruct (v =? 0); cbn; auto. Qed.

Lemma step_host_fresh (s : System) (e : Event) :
  host_fresh (host s) -> host_fresh (host (step s e)).
Proof.
  intros H. destruct e as [t|t|id t|id t|o t| |i v t]; cbn [step].
  - destruct (is_mounted s) eqn:Hm; [|exact H].
    rewrite (render_explicit t s Hm). cbn [host].
    destruct (unmount_cards_kept s) as ((_ & _ & _ & _ & Hn) & _).
    apply (host_fresh_scheduled _ _ Hn) in H.
    repeat (eapply host_fresh_same;
            [apply mounted_host_frames|apply mounted_host_frames|]).
    exact H.
  - destruct (is_mounted s && negb (loading (view (world s)))); [|exact H].
    unfold call_fetchStats. now destruct (fetchStats true t (world s)).
  - destruct (find_handle id (timers (host s))) as [[i a|]|]; [| |exact H].
    + apply on_card_fresh; [intros h c; apply host_fresh_start_delay|].
      cbn. eapply host_fresh_same; [| |exact H]; reflexivity.
    + unfold call_fetchStats. now destruct (fetchStats true t (world s)).
  - destruct (find_handle id (frames (host s))) as [ft|]; [|exact H].
    apply on_card_fresh; [intros h c; apply host_fresh_animate|].
    cbn. now apply host_fresh_cancel.
  - now destruct (in_flight s).
  - unfold dashboard_cleanup.
    match goal with |- context [unmount_cards ?s0] =>
      destruct (unmount_cards_kept s0) as ((_ & _ & _ & _ & Hn) & _) end.
    apply (host_fresh_scheduled _ _ Hn). cbn.
    destruct (intervalRef _); [|exact H].
    eapply host_fresh_same; [| |exact H]; reflexivity.
  - destruct (is_mounted s && bool_decide (i ∈ live s)); [|exact H].
    apply on_card_fresh; [|exact H]. intros h c. apply host_fresh_update.
Qed.

Lemma run_host_fresh (ls : Storage) (now : Z) (es : list Event) :
  host_fresh (host (run (boot ls now) es)).
Proof.
  assert (H0 : host_fresh (host (boot ls now))).
  { destruct (boot_host ls now) as (Hf & _).
    intros f t. rewrite Hf. discriminate. }
  revert H0. generalize (boot ls now) as s.
  induction es as [|e es IH]; intros s H0; [exact H0|].
  cbn [run fold_left]. apply (IH (step s e)). now apply step_host_fresh.
Qed.













End HostFresh.

Section CountUpRuns.
Context {P : Platform} {A : Arith} (L : ArithLaws A).

Lemma frame_of_running (i : nat) (a : Anim) (t : Z) (s : System) :
  is_mounted s = true -> host_fresh (host s) -> running i a s ->
  match cards s !! i ≫= animationRef with
  | Some f =>
      is_mounted (step s (FrameFired f t)) = true /\
      host_fresh (host (step s (FrameFired f t))) /\
      (if Qle_bool 1 (progress_at a t)
       then completed_transition i a (step s (FrameFired f t))
       else running i a (step s (FrameFired f t)))
  | None => False
  end.
Proof.
  intros Hm Hh (c & f & Hc & Hf & Hp).
  rewrite Hc. cbn [mbind option_bind]. rewrite Hf.
  split; [|split; [now apply step_host_fresh|]].
  { cbn [step]. rewrite Hp. cbn [ft_card ft_anim].
    match goal with |- context [on_card i ?g ?s0] =>
      destruct (on_card_rest i g s0) as (Hw & _) end.
    unfold is_mounted in *. now rewrite Hw. }
  cbn [step]. rewrite Hp. cbn [ft_card ft_anim]. rewrite Hm.
  unfold on_card. cbn [cards host world live in_flight]. rewrite Hc.
  unfold animate. cbn [negb].
  destruct (Qle_bool 1 (progress_at a t)).
  - exists (set_previousValueRef (targetValue a)
              (set_hasInitializedRef true
                 (setIsAnimating false
                    (setDisplayValue (targetValue a)
                       (setDisplayValue (Math_floor (currentValue a t)) c))))), f.
    cbn. split; [apply list_lookup_insert_eq; eapply lookup_lt_Some; exact Hc|].
    repeat split; auto. apply find_remove_same.
  - cbn.
    exists (set_animationRef (Some (next_frame (host s)))
              (setDisplayValue (Math_floor (currentValue a t)) c)), (next_frame (host s)).
    split; [apply list_lookup_insert_eq; eapply lookup_lt_Some; exact Hc|].
    repeat split; auto.
    apply find_handle_new.
    destruct (find_handle (next_frame (host s)) (remove_handle f (frames (host s))))
      as [x|] eqn:E; [|reflexivity].
    apply find_remove_handle in E. apply Hh in E. lia.
Qed.

Lemma frame_of_completed (i : nat) (a : Anim) (t : Z) (s : System) :
  completed_transition i a s ->
  match cards s !! i ≫= animationRef with
  | Some f => step s (FrameFired f t) = s
  | None => False
  end.
Proof.
  intros (c & f & Hc & Hf & Hp & _).
  rewrite Hc. cbn [mbind option_bind]. rewrite Hf. cbn [step]. now rewrite Hp.
Qed.

Lemma frames_fire_completed (i : nat) (a : Anim) (times : list Z) (s : System) :
  completed_transition i a s -> frames_fire i times s = s.
Proof.
  intros H. induction times as [|t times IH]; [reflexivity|].
  cbn [frames_fire]. pose proof (frame_of_completed i a t s H) as Hs.
  destruct (cards s !! i ≫= animationRef) as [f|]; [|contradiction].
  now rewrite Hs.
Qed.

Lemma frames_fire_running (i : nat) (a : Anim) (times : list Z) (s : System) :
  is_mounted s = true -> host_fresh (host s) -> running i a s ->
  Exists (fun t => startTime a + duration <= t) times ->
  completed_transition i a (frames_fire i times s).
Proof.
  revert s. induction times as [|t times IH]; intros s Hm Hh Hr Hex.
  { inversion Hex. }
  cbn [frames_fire].
  pose proof (frame_of_running i a t s Hm Hh Hr) as Hs.
  destruct (cards s !! i ≫= animationRef) as [f|]; [|contradiction].
  destruct Hs as (Hm' & Hh' & Hs).
  destruct (Qle_bool 1 (progress_at a t)) eqn:Hq.
  - now rewrite (frames_fire_completed i a times _ Hs).
  - apply IH; try assumption.
    inversion Hex as [? ? Ht|? ? Ht]; subst; [|exact Ht].
    rewrite (progress_complete L a t) in Hq by lia. discriminate.
Qed.

Lemma frame_fired_live (s : System) (f : nat) (t : Z) :
  live (step s (FrameFired f t)) = live s.
Proof.
  cbn [step]. destruct (find_handle f (frames (host s))) as [ft|]; [|reflexivity].
  match goal with |- context [on_card ?i ?g ?s0] =>
    destruct (on_card_rest i g s0) as (_ & Hl & _) end.
  exact Hl.
Qed.

Lemma frames_fire_live (i : nat) (times : list Z) (s : System) :
  live (frames_fire i times s) = live s.
Proof.
  revert s. induction times as [|t times IH]; intros s; [reflexivity|].
  cbn [frames_fire]. destruct (cards s !! i ≫= animationRef) as [f|]; [|apply IH].
  rewrite IH. apply frame_fired_live.
Qed.

Lemma count_up_runs
    (s : System) (id i : nat) (a : Anim) (c : Card) (t0 : Z) (times : list Z) :
  is_mounted s = true ->
  host_fresh (host s) ->
  find_handle id (timers (host s)) = Some (StartDelay i a) ->
  cards s !! i = Some c ->
  Exists (fun t => startTime a + duration <= t) times ->
  exists c' : Card,
    cards (frames_fire i times (step s (TimerFired id t0))) !! i = Some c' /\
    displayValue c' = targetValue a /\
    isAnimating c' = false /\
    previousValueRef c' = targetValue a /\
    hasInitializedRef c' = true /\
    forall k : nat,
      live s !! k = Some i ->
      shown k (frames_fire i times (step s (TimerFired id t0))) = Some (targetValue a).
Proof.
  intros Hm Hh Hid Hc Hex.
  assert (Hm1 : is_mounted (step s (TimerFired id t0)) = true).
  { cbn [step]. rewrite Hid.
    match goal with |- context [on_card i ?g ?s0] =>
      destruct (on_card_rest i g s0) as (Hw & _) end.
    unfold is_mounted in *. now rewrite Hw. }
  assert (Hr : running i a (step s (TimerFired id t0))).
  { cbn [step]. rewrite Hid, Hm. unfold on_card. cbn [cards host]. rewrite Hc.
    cbn. exists (set_animationRef (Some (next_frame (host s))) c), (next_frame (host s)).
    split; [apply list_lookup_insert_eq; eapply lookup_lt_Some; exact Hc|].
    repeat split; auto. apply find_handle_new.
    destruct (find_handle (next_frame (host s)) (frames (host s))) as [x|] eqn:E;
      [|reflexivity].
    apply Hh in E. lia. }
  pose proof (frames_fire_running i a times _ Hm1 (step_host_fresh _ _ Hh) Hr Hex)
    as (c' & f & H1 & _ & _ & H2 & H3 & H4 & H5).
  exists c'. repeat split; auto.
  intros k Hk. unfold shown. rewrite frames_fire_live.
  assert (Hl : live (step s (TimerFired id t0)) = live s).
  { cbn [step]. rewrite Hid.
    match goal with |- context [on_card i ?g ?s0] =>
      destruct (on_card_rest i g s0) as (_ & Hl & _) end.
    exact Hl. }
  rewrite Hl, Hk. cbn [mbind option_bind]. rewrite H1. cbn. now rewrite H2.
Qed.

(** A count-up that is left to run ends on its target. On a mounted
    page reached from an activation, holding a snapshot throughout, let
    the delayed start of card [i] fire and then the frames the card
    requests, one after the other, at any times of which one is 1500 ms
    or more past the transition's start time. Then the card shows
    exactly the transition's target, is no longer animating and has the
    target as its baseline; if the card is on screen, its cell shows
    the target. *)
Theorem count_up_reaches_its_target
    (ls : Storage) (now : Z) (es : list Event)
    (id i : nat) (a : Anim) (c : Card) (t0 : Z) (times : list Z) :
  shows_snapshots (boot ls now) es = true ->
  is_mounted (run (boot ls now) es) = true ->
  find_handle id (timers (host (run (boot ls now) es))) = Some (StartDelay i a) ->
  cards (run (boot ls now) es) !! i = Some c ->
  Exists (fun t => startTime a + duration <= t) times ->
  exists c' : Card,
    cards (frames_fire i times (step (run (boot ls now) es) (TimerFired id t0))) !! i
      = Some c' /\
    displayValue c' = targetValue a /\
    isAnimating c' = false /\
    previousValueRef c' = targetValue a /\
    hasInitializedRef c' = true /\
    forall k : nat,
      live (run (boot ls now) es) !! k = Some i ->
      shown k (frames_fire i times (step (run (boot ls now) es) (TimerFired id t0)))
      = Some (targetValue a).
Proof.
  intros _ Hm Hid Hc Hex.
  exact (count_up_runs _ id i a c t0 times Hm (run_host_fresh ls now es) Hid Hc Hex).
Qed.

End CountUpRuns.

(* ===================================================================== *)
(** * The rounding error of the easing *)
(* ===================================================================== *)

Section RoundingError.
Local Open Scope Q_scope.

Lemma round_half_even_error (x : Q) :
  - (1 # 2) <= inject_Z (round_half_even x) - x <= 1 # 2.
Proof.
  unfold round_half_even.
  pose proof (Qfloor_le x) as H1. pose proof (Qlt_floor x) as H2.
  rewrite inject_Z_plus in H2. change (inject_Z 1) with 1 in H2.
  destruct (x - inject_Z (Qfloor x) ?= 1 # 2) eqn:C.
  - apply (proj2 (Qeq_alt _ _)) in C.
    destruct (Z.even (Qfloor x)); [|rewrite inject_Z_plus; change (inject_Z 1) with 1];
      revert H1 H2 C; generalize (inject_Z (Qfloor x)); intros; lra.
  - apply (proj2 (Qlt_alt _ _)) in C.
    revert H1 H2 C; generalize (inject_Z (Qfloor x)); intros; lra.
  - apply (proj2 (Qgt_alt _ _)) in C. rewrite inject_Z_plus. change (inject_Z 1) with 1.
    revert H1 H2 C; generalize (inject_Z (Qfloor x)); intros; lra.
Qed.

(** A positive rational below 2 ^ (k + 1) is rounded to within half a
    unit in the last place of that binade. *)
Lemma rpos_error (a : Q) (k : Z) :
  0 < a -> a < 2 ^ (k + 1) -> (-1022 <= k)%Z ->
  - 2 ^ (k - 53) <= rpos a - a <= 2 ^ (k - 53).
Proof.
  intros Ha Hk Hn.
  destruct (ilog2_spec a Ha) as [S1 _].
  assert (Hi : (ilog2 a <= k)%Z).
  { assert (ilog2 a < k + 1)%Z; [|lia].
    apply (Qpower_lt_compat_l_inv 2); [|reflexivity]. eapply Qle_lt_trans; eassumption. }
  unfold rpos. set (r := rexp a).
  assert (Hr : (r <= k - 52)%Z) by (unfold r, rexp; lia).
  pose proof (round_half_even_error (a / 2 ^ r)) as He.
  pose proof (two_pow_pos r) as Hp.
  assert (Hh : (1 # 2) * 2 ^ r <= 2 ^ (k - 53)).
  { replace (k - 53)%Z with ((-1) + (k - 52))%Z by lia. rewrite two_pow_add.
    change (2 ^ (-1)) with (1 # 2).
    apply Qmult_le_l; [reflexivity|]. now apply two_pow_le. }
  assert (Ea : a == a / 2 ^ r * 2 ^ r) by (field; lra).
  set (m := inject_Z (round_half_even (a / 2 ^ r))) in *.
  set (y := a / 2 ^ r) in *.
  assert (E : m * 2 ^ r - a == (m - y) * 2 ^ r) by (rewrite Ea at 1; ring).
  rewrite E. revert He Hh Hp. generalize (2 ^ r) (2 ^ (k - 53)) m y. intros. nra.
Qed.

Lemma rnd64_error (q : Q) (k : Z) :
  - 2 ^ (k + 1) < q -> q < 2 ^ (k + 1) -> (-1022 <= k)%Z ->
  - 2 ^ (k - 53) <= rnd64 q - q <= 2 ^ (k - 53).
Proof.
  intros H1 H2 Hk. pose proof (two_pow_pos (k - 53)) as Hp.
  destruct (Q_dec q 0) as [[H|H]|H].
  - rewrite (rnd64_neg q H).
    pose proof (rpos_error (- q) k ltac:(lra) ltac:(lra) Hk). lra.
  - rewrite (rnd64_pos q H).
    apply (rpos_error q k H H2 Hk).
  - rewrite (rnd64_zero q H). lra.
Qed.

Lemma Qfloor_close (x y : Q) :
  - (1) < x - y -> x - y < 1 -> (Z.abs (Qfloor x - Qfloor y) <= 1)%Z.
Proof.
  intros H1 H2.
  pose proof (Qfloor_le x) as X1. pose proof (Qlt_floor x) as X2.
  pose proof (Qfloor_le y) as Y1. pose proof (Qlt_floor y) as Y2.
  rewrite inject_Z_plus in X2, Y2. change (inject_Z 1) with 1 in X2, Y2.
  assert (A1 : inject_Z (Qfloor x) < inject_Z (Qfloor y + 2)).
  { rewrite inject_Z_plus. change (inject_Z 2) with 2. lra. }
  assert (A2 : inject_Z (Qfloor y) < inject_Z (Qfloor x + 2)).
  { rewrite inject_Z_plus. change (inject_Z 2) with 2. lra. }
  rewrite <- Zlt_Qlt in A1, A2. lia.
Qed.

End RoundingError.

Section DisplayError.
Local Open Scope Q_scope.
#[local] Existing Instance binary64.

(** Rounding a number of the unit interval moves it by 2 ^ -53 at most
    and keeps it in the interval. *)
Lemma rnd64_unit_error (x : Q) :
  0 <= x -> x <= 1 ->
  0 <= rnd64 x /\ rnd64 x <= 1 /\
  - (1 # 9007199254740992) <= rnd64 x - x <= 1 # 9007199254740992.
Proof.
  intros H0 H1.
  destruct (@rnd_unit binary64 binary64_laws x H0 H1) as [U0 U1].
  cbn [rnd binary64] in U0, U1.
  split; [exact U0|]. split; [exact U1|].
  assert (E : 2 ^ (0 - 53) == 1 # 9007199254740992) by reflexivity.
  rewrite <- E. apply rnd64_error; [| |lia]; change (2 ^ (0 + 1)) with 2; lra.
Qed.

Lemma Qmin_l_eq (x y : Q) : x <= y -> Qmin x y = x.
Proof.
  intros H. unfold Qmin, GenericMinMax.gmin.
  destruct (x ?= y) eqn:C; try reflexivity.
  apply (proj2 (Qgt_alt _ _)) in C. lra.
Qed.

Lemma cube_close (a b d : Q) :
  0 <= a -> a <= 1 -> 0 <= b -> b <= 1 -> 0 <= d ->
  - d <= a - b <= d ->
  - (3 * d) <= a * a * a - b * b * b <= 3 * d.
Proof.
  intros A0 A1 B0 B1 D0 [H1 H2].
  assert (E : a * a * a - b * b * b == (a - b) * (a * a + a * b + b * b)) by ring.
  assert (S0 : 0 <= a * a + a * b + b * b) by nra.
  assert (S3 : a * a + a * b + b * b <= 3) by nra.
  rewrite E. set (s := a * a + a * b + b * b) in *. set (x := a - b) in *.
  split; nra.
Qed.

(** The easing in binary64 is within 2 ^ -50 of the easing over the
    rationals, for a progress of the unit interval. *)
Lemma eased_error (e : Z) :
  (0 <= e < 1500)%Z ->
  let X := inject_Z e / inject_Z 1500 in
  let ea := (1 ⊖ Math_pow (1 ⊖ Math_min (inject_Z e ⊘ inject_Z 1500) 1) 3)%num in
  0 <= ea /\ ea <= 1 /\
  0 <= 1 - (1 - Qmin X 1) ^ 3 /\ 1 - (1 - Qmin X 1) ^ 3 <= 1 /\
  - (1 # 1125899906842624) <= ea - (1 - (1 - Qmin X 1) ^ 3) <= 1 # 1125899906842624.
Proof.
  intros He X ea. subst ea. cbn [rnd Math_pow binary64]. unfold Math_min.
  assert (X0 : 0 <= X).
  { unfold X. apply Qle_shift_div_l; [reflexivity|]. rewrite Qmult_0_l.
    change 0 with (inject_Z 0). rewrite <- Zle_Qle. lia. }
  assert (X1 : X <= 1).
  { unfold X. apply Qle_shift_div_r; [reflexivity|]. rewrite Qmult_1_l.
    rewrite <- Zle_Qle. lia. }
  fold X.
  destruct (rnd64_unit_error X X0 X1) as (R0 & R1 & RE).
  set (r1 := rnd64 X) in *.
  rewrite (Qmin_l_eq r1 1 R1). rewrite (Qmin_l_eq X 1 X1).
  destruct (rnd64_unit_error (1 - r1) ltac:(lra) ltac:(lra)) as (S0 & S1 & SE).
  set (s := rnd64 (1 - r1)) in *.
  assert (Ec : forall z : Q, z ^ 3 == z * z * z) by (intros z; simpl; ring).
  assert (Hcube : forall y : Q, 0 <= y -> y <= 1 -> 0 <= y ^ 3 /\ y ^ 3 <= 1).
  { intros y Hy0 Hy1. rewrite Ec.
    assert (0 <= y * y) by nra. assert (y * y <= 1) by nra. split; nra. }
  assert (C0 : 0 <= s ^ 3 /\ s ^ 3 <= 1) by (apply Hcube; lra).
  destruct (rnd64_unit_error (s ^ 3) (proj1 C0) (proj2 C0)) as (P0 & P1 & PE).
  set (pw := rnd64 (s ^ 3)) in *.
  destruct (rnd64_unit_error (1 - pw) ltac:(lra) ltac:(lra)) as (E0 & E1 & EE).
  set (ea := rnd64 (1 - pw)) in *.
  assert (Y0 : 0 <= (1 - X) ^ 3 /\ (1 - X) ^ 3 <= 1) by (apply Hcube; lra).
  split; [exact E0|]. split; [exact E1|].
  split; [lra|]. split; [lra|].
  pose proof (cube_close s (1 - X) (2 # 9007199254740992)
                S0 S1 ltac:(lra) ltac:(lra) ltac:(lra) ltac:(lra)) as CC.
  rewrite <- !Ec in CC.
  revert CC PE EE. generalize (s ^ 3) ((1 - X) ^ 3). intros. lra.
Qed.

Lemma eased_display_done (A : Arith) (L : ArithLaws A) (p t e : Z) :
  (Z.abs t <= 2 ^ 53)%Z -> (Z.abs (t - p) <= 2 ^ 53)%Z -> (1500 <= e)%Z ->
  @eased_display A p t e = t.
Proof.
  intros Ht Hd He.
  pose proof (@currentValue_final A L (mkAnim p t 0) e Ht Hd) as H.
  pose proof (@progress_complete A L (mkAnim p t 0) e) as Hc.
  unfold currentValue, progress_at, easeOutCubic, difference, duration in H, Hc.
  cbn [startValue targetValue startTime] in H, Hc.
  replace (e - 0)%Z with e in H, Hc by lia.
  specialize (H (Hc He)).
  unfold eased_display, Math_floor. rewrite (Qfloor_comp _ _ H). apply Qfloor_Z.
Qed.

Lemma sum_error (p t e : Z) :
  (Z.abs p <= 2 ^ 40)%Z -> (Z.abs t <= 2 ^ 40)%Z -> (0 <= e < 1500)%Z ->
  let float :=
    (inject_Z p ⊕ (inject_Z (t - p) ⊗
       (1 ⊖ Math_pow (1 ⊖ Math_min (inject_Z e ⊘ inject_Z 1500) 1) 3)))%num in
  let exact :=
    inject_Z p + inject_Z (t - p) * (1 - (1 - Qmin (inject_Z e / inject_Z 1500) 1) ^ 3) in
  - (1 # 2) <= float - exact <= 1 # 2.
Proof.
  intros Hp Ht He float exact. subst float exact.
  destruct (eased_error e He) as (E0 & E1 & X0 & X1 & EE).
  cbn zeta in E0, E1, X0, X1, EE.
  set (ea := (1 ⊖ Math_pow (1 ⊖ Math_min (inject_Z e ⊘ inject_Z 1500) 1) 3)%num) in *.
  set (EA := 1 - (1 - Qmin (inject_Z e / inject_Z 1500) 1) ^ 3) in *.
  cbn [rnd binary64].
  assert (HD : - (2199023255552) <= inject_Z (t - p) <= 2199023255552).
  { change 2199023255552 with (inject_Z 2199023255552).
    rewrite <- inject_Z_opp, <- !Zle_Qle. lia. }
  assert (HP : - (1099511627776) <= inject_Z p <= 1099511627776).
  { change 1099511627776 with (inject_Z 1099511627776).
    rewrite <- inject_Z_opp, <- !Zle_Qle. lia. }
  set (D := inject_Z (t - p)) in *. set (P := inject_Z p) in *.
  assert (E42 : 2 ^ (41 + 1) == 4398046511104) by reflexivity.
  assert (E12 : 2 ^ (41 - 53) == 1 # 4096) by reflexivity.
  assert (Hb : - (2199023255552) <= D * ea <= 2199023255552) by (split; nra).
  pose proof (rnd64_error (D * ea) 41) as Hprod.
  rewrite E42, E12 in Hprod. specialize (Hprod ltac:(lra) ltac:(lra) ltac:(lia)).
  set (prod := rnd64 (D * ea)) in *.
  pose proof (rnd64_error (P + prod) 41) as Hsum.
  rewrite E42, E12 in Hsum. specialize (Hsum ltac:(lra) ltac:(lra) ltac:(lia)).
  set (sum := rnd64 (P + prod)) in *.
  assert (Hx : - (1 # 512) <= D * (ea - EA) <= 1 # 512).
  { set (x := ea - EA) in *. split; nra. }
  clearbody sum prod D P ea EA.
  clear - Hx Hsum Hprod. nra.
Qed.

(** The formula in binary64 and over the rationals. *)
Lemma eased_display_within_one (p t e : Z) :
  (Z.abs p <= 2 ^ 40)%Z -> (Z.abs t <= 2 ^ 40)%Z -> (0 <= e)%Z ->
  (Z.abs (@eased_display binary64 p t e - exact_display p t e) <= 1)%Z /\
  ((1500 <= e)%Z ->
   @eased_display binary64 p t e = t /\ exact_display p t e = t).
Proof.
  intros Hp Ht He.
  assert (Hdone : (1500 <= e)%Z ->
                  @eased_display binary64 p t e = t /\ exact_display p t e = t).
  { intros H. rewrite exact_display_eq.
    split; apply eased_display_done; auto using binary64_laws, exact_arith_laws; lia. }
  split; [|exact Hdone].
  destruct (Z_lt_le_dec e 1500) as [Hlt|Hge].
  2:{ destruct (Hdone Hge) as [-> ->]. lia. }
  pose proof (sum_error p t e Hp Ht ltac:(lia)) as H. cbn zeta in H.
  unfold eased_display, exact_display, Math_floor. apply Qfloor_close; lra.
Qed.

End DisplayError.

(* ===================================================================== *)
(** * The claims on the page's own events *)
(* ===================================================================== *)

Section NewTarget.
Context {P : Platform} {A : Arith}.


End NewTarget.



(** C1. The page is activated twenty minutes after the snapshot was
    cached: the entry is stale, so a request goes out. It comes back
    with status 500. The store still holds the snapshot, but the
    [catch] block loads it with the loader written for activation,
    which refuses an entry of ten minutes or more: the page shows the
    zero snapshot under the error banner and the status Connection
    Issues (Using Cache). The same failure on a page that has had the
    same snapshot on display for twenty minutes leaves it there. *)
Theorem stale_entry_is_not_the_fallback :
  ls_items (localStorage (world Page.booted_late)) !! CACHE_KEYS.STATS
    = Some (Browser.stringify Browser.snapshot) /\
  @JSON_parse Browser.platform (Browser.stringify Browser.snapshot)
    = inr Browser.snapshot /\
  length (requests (world Page.booted_late)) = 1%nat /\
  stats (view (world (Page.events Page.booted_late
           [FetchSettled Browser.server_error (Browser.new_year + Browser.minutes 20 + 80)])))
  = initial_stats /\
  initial_stats <> Browser.snapshot /\
  @DashboardStats_return binary64 (Browser.new_year + Browser.minutes 20 + 100)
    (view (world (Page.events Page.booted_late
       [FetchSettled Browser.server_error (Browser.new_year + Browser.minutes 20 + 80)])))
  = inr (mkMarkup false "Refresh Now" (Some "HTTP 500: Internal Server Error")
           [mkStatCardProps "Total Users" (Some (JNum 0)) "blue" 0;
            mkStatCardProps "Total Providers" (Some (JNum 0)) "green" 100;
            mkStatCardProps "Active Providers" (Some (JNum 0)) "purple" 200;
            mkStatCardProps "Queries Processed" (Some (JNum 0)) "orange" 300]
           "Just now" "Connection Issues (Using Cache)") /\
  stats (view (completed
     (@fetchStats_resume Browser.platform Browser.server_error
        (Browser.new_year + Browser.minutes 20 + 80)
        (Browser.world_showing Browser.snapshot Browser.new_year Browser.cached_storage))))
  = Browser.snapshot.
Proof. vm_compute. repeat split; try reflexivity. discriminate. Qed.

(** C4. The first cell has settled at 1200. Refresh Now is clicked and
    the page renders with the loading flag up and the same snapshot:
    the target of the cell is the 1200 it shows. The render replaces
    the card: the cell shows 0 and counts up from 0 to 1200 again
    (1050 halfway), although the target has not changed. A target of 0
    is shown at once: on a page holding the zero snapshot a render
    leaves 0 in the cell and nothing pending for a card. *)
Theorem unchanged_target_counts_up_again :
  shown 0 Page.settled = Some 1200 /\
  member "total_users"
    (stats (view (world (Page.events Page.settled
                           [Clicked (Page.t0 + 2000); Rendered (Page.t0 + 2001)]))))
  = inr (Some (JNum 1200)) /\
  shown 0 (Page.events Page.settled [Clicked (Page.t0 + 2000); Rendered (Page.t0 + 2001)])
  = Some 0 /\
  find_handle 6
    (timers (host (Page.events Page.settled
                     [Clicked (Page.t0 + 2000); Rendered (Page.t0 + 2001)])))
  = Some (StartDelay 8 (mkAnim 0 1200 (Page.t0 + 2001))) /\
  shown 0 (Page.events Page.settled
             [Clicked (Page.t0 + 2000); Rendered (Page.t0 + 2001);
              TimerFired 6 (Page.t0 + 2001); FrameFired 2 (Page.t0 + 2751)])
  = Some 1050 /\
  shown 0 (Page.events Page.settled
             [Clicked (Page.t0 + 2000); Rendered (Page.t0 + 2001);
              TimerFired 6 (Page.t0 + 2001); FrameFired 2 (Page.t0 + 2751);
              FrameFired 3 (Page.t0 + 3501)])
  = Some 1200 /\
  shown 0 (Page.events (@boot Browser.platform Browser.empty_storage Page.t0)
             [Rendered (Page.t0 + 5)]) = Some 0 /\
  timers (host (Page.events (@boot Browser.platform Browser.empty_storage Page.t0)
                  [Rendered (Page.t0 + 5)])) = [(1%nat, AutoRefresh)] /\
  frames (host (Page.events (@boot Browser.platform Browser.empty_storage Page.t0)
                  [Rendered (Page.t0 + 5)])) = [].
Proof. vm_compute. repeat split; reflexivity. Qed.

(** C5 as stated fails. Reading the store throws: the forced refresh
    sends no request and shows the store's error. *)
Lemma forced_refresh_on_blocked_store_sends_nothing :
  @fetchStats Browser.platform true Page.t0
    (Browser.world_showing initial_stats Page.t0 Browser.blocked_storage)
  = Normal false
      (mkWorld (mkView initial_stats false Page.t0 (Some "The operation is insecure.")
                       (Some 1%nat) true)
               Browser.blocked_storage
               ["Error loading cached data: The operation is insecure.";
                "Error fetching stats: The operation is insecure."] []).
Proof. vm_compute. reflexivity. Qed.

Section DisplayAndFormula.
Variable self : nat.

(** C6, as the code has it. A call of [animate] on a mounted page, [e]
    milliseconds after the transition from [p] to [t] was started,
    leaves on display a value that differs by at most 1 from
    floor (p + (t - p) * (1 - (1 - min (e / 1500, 1)) ^ 3)), the value
    of the formula over the rationals: the page computes the formula in
    binary64 and rounds each operation. This is for counters up to
    2 ^ 40 in magnitude and a clock that has not stepped back. From
    1500 ms on both values are [t]. For p = 0, t = 1000 and e = 750
    both are 875. *)
Theorem display_within_one_of_the_formula
    (a : Anim) (now : Z) (h : Host) (c : Card) :
  Z.abs (startValue a) <= 2 ^ 40 ->
  Z.abs (targetValue a) <= 2 ^ 40 ->
  startTime a <= now ->
  Z.abs (displayValue (snd (@animate binary64 self true a now (h, c)))
         - exact_display (startValue a) (targetValue a) (now - startTime a)) <= 1 /\
  (duration <= now - startTime a ->
   displayValue (snd (@animate binary64 self true a now (h, c))) = targetValue a /\
   exact_display (startValue a) (targetValue a) (now - startTime a) = targetValue a) /\
  displayValue (snd (@animate binary64 self true (mkAnim 0 1000 Page.t0) (Page.t0 + 750)
                       (initial_host, new_card 1000 0))) = 875 /\
  exact_display 0 1000 750 = 875.
Proof.
  intros Hp Ht Hn.
  rewrite (animate_displays_eased_value self binary64_laws a)
    by (unfold difference; lia).
  destruct (eased_display_within_one (startValue a) (targetValue a) (now - startTime a)
              Hp Ht ltac:(lia)) as [H1 H2].
  split; [exact H1|]. split; [exact H2|].
  split; vm_compute; reflexivity.
Qed.

End DisplayAndFormula.

(** 150 ms into the count-up from 0 to 1000. *)
Lemma display_within_one_witness :
  Z.abs (displayValue (snd (@animate binary64 0 true (mkAnim 0 1000 Page.t0) (Page.t0 + 150)
                              (initial_host, new_card 1000 0)))
         - exact_display 0 1000 (Page.t0 + 150 - Page.t0)) <= 1.
Proof.
  apply (display_within_one_of_the_formula 0%nat (mkAnim 0 1000 Page.t0) (Page.t0 + 150)
           initial_host (new_card 1000 0)).
  - vm_compute. discriminate.
  - vm_compute. discriminate.
  - vm_compute. discriminate.
Defined.

(** C6 as stated fails. 150 ms into a transition from 0 to 1000 the
    formula gives 271 and the card shows 270. *)
Lemma display_is_one_below_the_formula_at_150ms :
  exact_display 0 1000 150 = 271 /\
  displayValue (snd (@animate binary64 0 true (mkAnim 0 1000 Page.t0) (Page.t0 + 150)
                       (initial_host, new_card 1000 0))) = 270.
Proof. vm_compute. split; reflexivity. Qed.

(** C7 as stated fails. A frame that reads a clock 1500 ms behind the
    start of the count-up from 0 to 1200 puts -8400 in the cell, outside
    the range. And the baseline a completed count-up records is not
    where the next one starts: the first cell has settled at 1200, with
    1200 as the baseline of its card, when Refresh Now brings the
    snapshot with 1250; the transition the page then runs for the cell
    goes from 0 to 1250. *)
Lemma frame_leaves_the_range_and_baseline_is_not_used :
  find_handle 2 (timers (host (Page.events Page.booted [Rendered (Page.t0 + 5)])))
  = Some (StartDelay 4 (mkAnim 0 1200 (Page.t0 + 5))) /\
  shown 0 (Page.events Page.booted
             [Rendered (Page.t0 + 5); TimerFired 2 (Page.t0 + 5);
              FrameFired 1 (Page.t0 - 1495)])
  = Some (-8400) /\
  shown 0 Page.settled = Some 1200 /\
  previousValueRef <$> cards Page.settled !! 4%nat = Some 1200 /\
  live (Page.events Page.settled
          [Clicked (Page.t0 + 2000); Rendered (Page.t0 + 2001);
           FetchSettled (Browser.ok_response Browser.later_snapshot) (Page.t0 + 2080);
           Rendered (Page.t0 + 2081)]) !! 0%nat = Some 12%nat /\
  find_handle 10
    (timers (host (Page.events Page.settled
                     [Clicked (Page.t0 + 2000); Rendered (Page.t0 + 2001);
                      FetchSettled (Browser.ok_response Browser.later_snapshot) (Page.t0 + 2080);
                      Rendered (Page.t0 + 2081)])))
  = Some (StartDelay 12 (mkAnim 0 1250 (Page.t0 + 2081))).
Proof. vm_compute. repeat split; reflexivity. Qed.

(* ===================================================================== *)
(** * The further properties on the sample page *)
(* ===================================================================== *)

(** Two hours and five minutes after the last update. *)
Lemma formatTimeAgo_witness :
  @formatTimeAgo binary64 (Browser.new_year + Browser.minutes 125) Browser.new_year
  = "2h ago".
Proof.
  rewrite (formatTimeAgo_buckets (Browser.new_year + Browser.minutes 125) Browser.new_year).
  - vm_compute. reflexivity.
  - vm_compute. discriminate.
  - vm_compute. discriminate.
Defined.

(** The snapshot saved on the empty store of the sample browser. *)
Lemma saved_entry_witness :
  exists w1,
    @saveToCache Browser.platform Browser.snapshot Page.t0
      (Browser.world_showing initial_stats Page.t0 Browser.empty_storage) = Normal tt w1 /\
    forall (now : Z) (w2 : World),
      localStorage w2 = localStorage w1 ->
      exists w3,
        @loadCachedData Browser.platform now w2 = Normal (now - Page.t0 <? ten_minutes) w3 /\
        if now - Page.t0 <? ten_minutes
        then stats (view w3) = Browser.snapshot /\ lastUpdated (view w3) = Page.t0
        else view w3 = view w2.
Proof.
  apply (@saved_entry_served_for_ten_minutes Browser.platform Browser.snapshot Page.t0
           (Browser.world_showing initial_stats Page.t0 Browser.empty_storage)).
  - reflexivity.
  - vm_compute. discriminate.
  - vm_compute. discriminate.
  - vm_compute. discriminate.
  - vm_compute. discriminate.
  - vm_compute. reflexivity.
  - vm_compute. reflexivity.
Defined.

(** The first render after the activation with a fresh cache. *)
Lemma render_witness :
  shown 0 (@step Browser.platform binary64 Page.booted (Rendered (Page.t0 + 5))) = Some 0.
Proof.
  destruct (@render_restarts_every_card Browser.platform binary64 (Page.t0 + 5) Page.booted)
    as (_ & _ & H & _).
  - vm_compute. reflexivity.
  - vm_compute. reflexivity.
  - apply (H 0%nat). lia.
Defined.

(** The refresh of the sample page, and the interval firing after it. *)
Lemma auto_refresh_witness :
  find_handle 1
    (timers (host (@run Browser.platform binary64
                     (@boot Browser.platform Browser.cached_storage Page.t0)
                     [Rendered (Page.t0 + 5); TimerFired 2 (Page.t0 + 5);
                      FrameFired 1 (Page.t0 + 755); Clicked (Page.t0 + 756);
                      Rendered (Page.t0 + 757);
                      FetchSettled (Browser.ok_response Browser.later_snapshot) (Page.t0 + 760);
                      Rendered (Page.t0 + 761); TimerFired 1 (Page.t0 + 300000)])))
  = Some AutoRefresh.
Proof.
  apply (@auto_refresh_stays_scheduled Browser.platform binary64 Browser.cached_storage Page.t0
           [Rendered (Page.t0 + 5); TimerFired 2 (Page.t0 + 5);
            FrameFired 1 (Page.t0 + 755); Clicked (Page.t0 + 756);
            Rendered (Page.t0 + 757);
            FetchSettled (Browser.ok_response Browser.later_snapshot) (Page.t0 + 760);
            Rendered (Page.t0 + 761); TimerFired 1 (Page.t0 + 300000)]).
  - reflexivity.
  - vm_compute. reflexivity.
Defined.

(** The session token outlives a refresh that rewrites the cache. *)
Lemma token_witness :
  ls_items (localStorage (world (@run Browser.platform binary64 Page.halfway Page.refresh)))
    !! "token"
  = ls_items (localStorage (world Page.halfway)) !! "token".
Proof.
  apply (@only_the_cache_slots_are_written Browser.platform binary64 Page.halfway Page.refresh
           "token").
  - discriminate.
  - discriminate.
Defined.

(** The interval fires while the request of the activation is pending. *)
Lemma overlap_witness :
  in_flight (@step Browser.platform binary64
               (@boot Browser.platform Browser.empty_storage Page.t0)
               (TimerFired 1 (Page.t0 + 300000))) = 2%nat.
Proof.
  apply (@refreshes_overlap Browser.platform binary64
           (@boot Browser.platform Browser.empty_storage Page.t0) 1%nat
           (Page.t0 + 300000) (Page.t0 + 300080) (Page.t0 + 300090)
           (Browser.ok_response Browser.snapshot)).
  - vm_compute. reflexivity.
  - reflexivity.
  - vm_compute. reflexivity.
  - vm_compute. reflexivity.
Defined.

(** The request of the activation fails and nothing else is pending. *)
Lemma loading_flag_witness :
  loading (view (world (@run Browser.platform binary64
                          (@boot Browser.platform Browser.empty_storage Page.t0)
                          [FetchSettled Browser.server_error (Page.t0 + 80)]))) = false.
Proof.
  apply (@loading_flag_never_left_up Browser.platform binary64 Browser.empty_storage Page.t0
           [FetchSettled Browser.server_error (Page.t0 + 80)]).
  - vm_compute. reflexivity.
  - vm_compute. reflexivity.
  - vm_compute. reflexivity.
Defined.

(** Two frames of the count-up from 0 to 1000, at 150 and at 750 ms. *)
Lemma one_way_witness :
  displayValue (snd (@animate binary64 0 true (mkAnim 0 1000 Page.t0) (Page.t0 + 150)
                       (initial_host, new_card 1000 0)))
  <= displayValue (snd (@animate binary64 0 true (mkAnim 0 1000 Page.t0) (Page.t0 + 750)
                          (initial_host, new_card 1000 0))).
Proof.
  apply (@display_moves_one_way binary64 binary64_laws binary64_pow_mono 0%nat
           (mkAnim 0 1000 Page.t0) (Page.t0 + 150) (Page.t0 + 750)
           initial_host initial_host (new_card 1000 0) (new_card 1000 0)).
  - vm_compute. discriminate.
  - vm_compute. discriminate.
  - vm_compute. discriminate.
  - vm_compute. discriminate.
Defined.

(** A frame that reads a clock 1 ms behind the start time. *)
Lemma clock_behind_witness :
  displayValue (snd (@animate binary64 0 true (mkAnim 0 1000 Page.t0) (Page.t0 - 1)
                       (initial_host, new_card 1000 0))) < 0.
Proof.
  apply (clock_behind_start_undershoots 0%nat (mkAnim 0 1000 Page.t0) (Page.t0 - 1)
           initial_host (new_card 1000 0)).
  - vm_compute. reflexivity.
  - reflexivity.
  - vm_compute. discriminate.
  - vm_compute. discriminate.
Defined.

(** A forced refresh on an empty store, answered with status 500. *)
Lemma banner_witness :
  exists w1 w2,
    @fetchStats Browser.platform true Page.t0
      (Browser.world_showing initial_stats Page.t0 Browser.empty_storage) = Normal true w1 /\
    @fetchStats_resume Browser.platform Browser.server_error (Page.t0 + 80) w1 = Normal tt w2 /\
    (forall t m, @DashboardStats_return binary64 t (view w1) = inr m ->
       error_banner m = None /\
       system_status m = "All Services Online" /\
       button_disabled m = true /\
       button_label m = "Updating...") /\
    (forall t m, @DashboardStats_return binary64 t (view w2) = inr m ->
       error_banner m = Some "HTTP 500: Internal Server Error" /\
       system_status m = "Connection Issues (Using Cache)" /\
       button_disabled m = false /\
       button_label m = "Refresh Now").
Proof.
  apply (@banner_follows_the_refresh Browser.platform binary64 Page.t0
           (Browser.world_showing initial_stats Page.t0 Browser.empty_storage)
           Browser.server_error "HTTP 500: Internal Server Error" (Page.t0 + 80)).
  - reflexivity.
  - reflexivity.
  - exact (@fails_status Browser.platform 500 "Internal Server Error" "oops" eq_refl).
  - discriminate.
Defined.


(** The server answers 200 with the text [null]. *)
Lemma null_body_witness :
  exists w',
    @fetchStats_resume null_platform (Response 200 "OK" "null") Page.t0
      (Browser.world_showing Browser.snapshot Page.t0 Browser.empty_storage) = Normal tt w' /\
    stats (view w') = JNull /\
    error (view w') = None /\
    (JNull = JNull ->
     forall t, exists e,
       @DashboardStats_return binary64 t (view w') = inl e /\ err_name e = "TypeError") /\
    ((forall fields, JNull <> JObj fields) -> JNull <> JNull ->
     forall t, exists m,
       @DashboardStats_return binary64 t (view w') = inr m /\
       List.map p_value (stat_cards m) = [None; None; None; None]).
Proof.
  apply (@response_body_is_not_validated null_platform binary64 200 "OK" "null" JNull Page.t0
           (Browser.world_showing Browser.snapshot Page.t0 Browser.empty_storage)).
  - reflexivity.
  - reflexivity.
  - vm_compute. reflexivity.
Defined.

(** The first card of the sample page runs from its delayed start to
    the end. *)
Lemma count_up_witness :
  shown 0 (@frames_fire Browser.platform binary64 4 [Page.t0 + 755; Page.t0 + 1505]
             (@step Browser.platform binary64
                (@run Browser.platform binary64
                   (@boot Browser.platform Browser.cached_storage Page.t0)
                   [Rendered (Page.t0 + 5)])
                (TimerFired 2 (Page.t0 + 5))))
  = Some 1200.
Proof.
  destruct (@count_up_reaches_its_target Browser.platform binary64 binary64_laws
              Browser.cached_storage Page.t0 [Rendered (Page.t0 + 5)]
              2%nat 4%nat (mkAnim 0 1200 (Page.t0 + 5)) (mounted_card 1200 0)
              (Page.t0 + 5) [Page.t0 + 755; Page.t0 + 1505])
    as (c' & _ & _ & _ & _ & _ & H).
  - vm_compute. reflexivity.
  - vm_compute. reflexivity.
  - vm_compute. reflexivity.
  - vm_compute. reflexivity.
  - apply Exists_cons_tl, Exists_cons_hd. vm_compute. discriminate.
  - apply (H 0%nat). vm_compute. reflexivity.
Defined.
